(** * LCD Pomodoro timer: the phase-timing state machine of [pomodoro_simchn.pyw]

    The development embeds the timer core of [PomodoroApp] (the heartbeat,
    the Start/Pause/Resume handler, the Reset handler, the phase transitions
    and the rendering of the progress line) together with the module level
    functions of the file and the look of the window.

    Modelling conventions.
    - Python [int] is [Z].
    - [int(round(x))] is [py_round]: rounding to the nearest integer, ties
      going to the even one.
    - Every handler reads the clock at one instant, its argument [now].
    - Widgets are modelled by the text they show ([lbl_status], [lbl_bottom],
      [btn_start]); calls to [play_sound_async] and [messagebox.showerror]
      are recorded as the events a handler returns next to the new state.
    - The timer is embedded twice.  The first embedding, at the top level of
      the file, takes clock readings and deadlines as exact rationals ([Q])
      and the float arithmetic as exact; it carries the properties of mode,
      counts, configuration, dialogs and of the test [left <= 0].  The
      second, module [Fp], takes the floats as the program has them: IEEE
      754 doubles, a sum or difference being rounded to the nearest double
      (ties to the even mantissa, infinity from [2^1024] on), with the
      [OverflowError] of [float + int] for an integer too large for a float
      and of [round] on an infinity.  An exception ends the handler where
      it is raised: the assignments before it stay, those after it are not
      run, and a heartbeat that raises does not schedule the next one.  The
      second embedding carries the properties that depend on the value of
      the deadline or on what is left behind when the arithmetic fails. *)

From Stdlib Require Import ZArith QArith Qround Qabs Qpower String Ascii List Bool
  Lia Lqa.
From Stdlib Require Qcanon.
Import ListNotations.

Local Open Scope string_scope.
Local Open Scope Z_scope.

(** ** Numbers *)

Module PyNum.

(** [int(round(x))] on a float [x]: nearest integer, ties to even. *)
Definition py_round (x : Q) : Z :=
  let f := Qfloor x in
  match Qcompare (x - inject_Z f) (1 # 2) with
  | Lt => f
  | Gt => f + 1
  | Eq => if Z.even f then f else f + 1
  end.

(** One decimal digit as a character. *)
Definition digit_char (d : Z) : ascii := ascii_of_nat (48 + Z.to_nat d).

(** The decimal digits of a non-negative [n], most significant first,
    pushed in front of [acc]. *)
Fixpoint dec_digits (fuel : nat) (n : Z) (acc : string) : string :=
  match fuel with
  | O => acc
  | S fuel' =>
      let acc' := String (digit_char (n mod 10)) acc in
      if n <? 10 then acc' else dec_digits fuel' (n / 10) acc'
  end.

Definition dec_fuel (n : Z) : nat := S (Z.to_nat (Z.log2 n)).

(** [str(n)] for an integer. *)
Definition str_int (n : Z) : string :=
  if n <? 0 then String "-" (dec_digits (dec_fuel (- n)) (- n) "")
  else dec_digits (dec_fuel n) n "".

(** The format specification [:02d]: zero padding up to a minimum width
    of two characters (a sign counts for the width). *)
Definition format_02d (n : Z) : string :=
  let s := str_int n in
  if (String.length s <? 2)%nat then String "0" s else s.

(** Reading a string of decimal digits back; [None] on any other character
    and on the empty string. *)
Definition digit_value (c : ascii) : option Z :=
  let k := Z.of_nat (nat_of_ascii c) in
  if (48 <=? k) && (k <=? 57) then Some (k - 48) else None.

Fixpoint dec_value_from (acc : Z) (s : string) : option Z :=
  match s with
  | EmptyString => Some acc
  | String c s' =>
      match digit_value c with
      | Some d => dec_value_from (10 * acc + d) s'
      | None => None
      end
  end.

Definition dec_value (s : string) : option Z :=
  match s with
  | EmptyString => None
  | _ => dec_value_from 0 s
  end.

End PyNum.
Import PyNum.

(** ** Formatters (module level functions of the source) *)

Definition fmt_mm_ss (sec : Z) : string :=
  let sec := if sec <? 0 then 0 else sec in
  let m := sec / 60 in
  let s := sec mod 60 in
  format_02d m ++ ":" ++ format_02d s.

Definition fmt_progress (n d : Z) : string :=
  let n := Z.max 0 n in
  let d := Z.max 0 d in
  format_02d n ++ "/" ++ format_02d d.

(** ** The application object *)

(** [self.mode], one of the strings "idle", "study", "break". *)
Inductive Mode : Type := idle | study | break.

Definition Mode_eqb (m1 m2 : Mode) : bool :=
  match m1, m2 with
  | idle, idle | study, study | break, break => true
  | _, _ => false
  end.

(** The fields of [PomodoroApp] that the timer core reads or writes. *)
Record App : Type := mkApp {
  total_sessions : Z;
  done_pomodoros : Z;
  mode : Mode;
  paused : bool;
  paused_left : Z;
  _status_before_pause : string;
  pomo_min : Z;
  short_min : Z;
  long_min : Z;
  phase_end_monot : Q;
  audio_path : option string;
  lbl_status : string;   (* text of the status line *)
  lbl_bottom : string;   (* text of the progress and countdown line *)
  btn_start : string     (* caption of the Start/Pause/Resume button *)
}.

(** What a handler does to the outside world. *)
Inductive Event : Type :=
| play_sound_async (path : option string)
| showerror (title : string).

(** The four entry fields; each holds the outcome of
    [int(self.var_X.get().strip())], [None] when the conversion raises. *)
Record Settings : Type := mkSettings {
  var_sessions : option Z;
  var_pomo_min : option Z;
  var_short_min : option Z;
  var_long_min : option Z
}.

(** Field assignments. *)
Definition set_config (s p sb lb : Z) (a : App) : App :=
  mkApp s (done_pomodoros a) (mode a) (paused a) (paused_left a)
    (_status_before_pause a) p sb lb (phase_end_monot a) (audio_path a)
    (lbl_status a) (lbl_bottom a) (btn_start a).

Definition set_done_pomodoros (n : Z) (a : App) : App :=
  mkApp (total_sessions a) n (mode a) (paused a) (paused_left a)
    (_status_before_pause a) (pomo_min a) (short_min a) (long_min a)
    (phase_end_monot a) (audio_path a) (lbl_status a) (lbl_bottom a)
    (btn_start a).

Definition set_mode (m : Mode) (a : App) : App :=
  mkApp (total_sessions a) (done_pomodoros a) m (paused a) (paused_left a)
    (_status_before_pause a) (pomo_min a) (short_min a) (long_min a)
    (phase_end_monot a) (audio_path a) (lbl_status a) (lbl_bottom a)
    (btn_start a).

Definition set_paused (b : bool) (a : App) : App :=
  mkApp (total_sessions a) (done_pomodoros a) (mode a) b (paused_left a)
    (_status_before_pause a) (pomo_min a) (short_min a) (long_min a)
    (phase_end_monot a) (audio_path a) (lbl_status a) (lbl_bottom a)
    (btn_start a).

Definition set_paused_left (n : Z) (a : App) : App :=
  mkApp (total_sessions a) (done_pomodoros a) (mode a) (paused a) n
    (_status_before_pause a) (pomo_min a) (short_min a) (long_min a)
    (phase_end_monot a) (audio_path a) (lbl_status a) (lbl_bottom a)
    (btn_start a).

Definition set_status_before_pause (t : string) (a : App) : App :=
  mkApp (total_sessions a) (done_pomodoros a) (mode a) (paused a)
    (paused_left a) t (pomo_min a) (short_min a) (long_min a)
    (phase_end_monot a) (audio_path a) (lbl_status a) (lbl_bottom a)
    (btn_start a).

Definition set_phase_end_monot (t : Q) (a : App) : App :=
  mkApp (total_sessions a) (done_pomodoros a) (mode a) (paused a)
    (paused_left a) (_status_before_pause a) (pomo_min a) (short_min a)
    (long_min a) t (audio_path a) (lbl_status a) (lbl_bottom a)
    (btn_start a).

Definition set_lbl_status (t : string) (a : App) : App :=
  mkApp (total_sessions a) (done_pomodoros a) (mode a) (paused a)
    (paused_left a) (_status_before_pause a) (pomo_min a) (short_min a)
    (long_min a) (phase_end_monot a) (audio_path a) t (lbl_bottom a)
    (btn_start a).

Definition set_lbl_bottom (t : string) (a : App) : App :=
  mkApp (total_sessions a) (done_pomodoros a) (mode a) (paused a)
    (paused_left a) (_status_before_pause a) (pomo_min a) (short_min a)
    (long_min a) (phase_end_monot a) (audio_path a) (lbl_status a) t
    (btn_start a).

Definition set_btn_start (t : string) (a : App) : App :=
  mkApp (total_sessions a) (done_pomodoros a) (mode a) (paused a)
    (paused_left a) (_status_before_pause a) (pomo_min a) (short_min a)
    (long_min a) (phase_end_monot a) (audio_path a) (lbl_status a)
    (lbl_bottom a) t.

(** The object as [__init__] leaves it; [audio] is what [find_audio_file]
    found in the program's folder. *)
Definition init (audio : option string) : App :=
  mkApp 0 0 idle false 0 "READY" 25 5 15 0%Q audio
    "READY" (fmt_progress 0 0 ++ "    00:00") "Start".

(** ** Rendering of the second line *)

Definition _render_bottom_dynamic (numerator total_seconds : Z) (a : App) : App :=
  set_lbl_bottom
    (fmt_progress numerator (total_sessions a) ++ "    " ++ fmt_mm_ss total_seconds) a.

Definition _update_bottom_with_left (left_seconds : Z) (a : App) : App :=
  let numerator :=
    done_pomodoros a + (if Mode_eqb (mode a) study then 1 else 0) in
  set_lbl_bottom
    (fmt_progress numerator (total_sessions a) ++ "    " ++ fmt_mm_ss left_seconds) a.

Definition _render_bottom_static (mmss : string) (a : App) : App :=
  set_lbl_bottom
    (fmt_progress (done_pomodoros a) (total_sessions a) ++ "    " ++ mmss) a.

(** ** Reading the settings *)

Definition _read_settings (ui : Settings) : list Event * option (Z * Z * Z * Z) :=
  match var_sessions ui, var_pomo_min ui, var_short_min ui, var_long_min ui with
  | Some s, Some p, Some sb, Some lb =>
      if negb ((1 <=? s) && (s <=? 20)) then
        ([showerror "Invalid Sessions"], None)
      else if (p <=? 0) || (sb <=? 0) || (lb <=? 0) then
        ([showerror "Invalid minutes"], None)
      else ([], Some (s, p, sb, lb))
  | _, _, _, _ => ([showerror "Invalid input"], None)
  end.

(** ** Phase transitions

    In this embedding the sum [time.monotonic() + dur] is the exact one
    and is always defined; [Fp._enter_study] and [Fp._enter_break] below
    have the sum of doubles and its [OverflowError]. *)

Definition _enter_study (now : Q) (a : App) : App :=
  let a := set_lbl_status "STUDY" (set_mode study a) in
  let a := set_status_before_pause "STUDY" a in
  let dur := pomo_min a * 60 in
  let a := set_paused false (set_phase_end_monot (now + inject_Z dur)%Q a) in
  _render_bottom_dynamic (done_pomodoros a + 1) dur a.

Definition _enter_break (now : Q) (a : App) : App :=
  let a := set_lbl_status "BREAK" (set_mode break a) in
  let a := set_status_before_pause "BREAK" a in
  let dur :=
    (if done_pomodoros a mod 5 =? 0 then long_min a else short_min a) * 60 in
  let a := set_paused false (set_phase_end_monot (now + inject_Z dur)%Q a) in
  _render_bottom_dynamic (done_pomodoros a) dur a.

Definition _advance_phase (now : Q) (a : App) : App :=
  match mode a with
  | study =>
      let a := set_done_pomodoros (done_pomodoros a + 1) a in
      if total_sessions a <=? done_pomodoros a then
        let a := set_lbl_status "READY" (set_mode idle a) in
        let a := set_status_before_pause "READY" a in
        set_btn_start "Start" (_render_bottom_static "00:00" a)
      else _enter_break now a
  | break => _enter_study now a
  | idle => a
  end.

(** ** The heartbeat *)

(** [int(round(self.phase_end_monot - time.monotonic()))], the difference
    being the exact one; [Fp.left_at] rounds it to a double first. *)
Definition left_at (now : Q) (a : App) : Z :=
  py_round (phase_end_monot a - now)%Q.

Definition _heartbeat (now : Q) (a : App) : list Event * App :=
  match mode a with
  | idle => ([], a)
  | _ =>
      if paused a then ([], _update_bottom_with_left (paused_left a) a)
      else
        let left := left_at now a in
        if left <=? 0 then
          ([play_sound_async (audio_path a)], _advance_phase now a)
        else ([], _update_bottom_with_left left a)
  end.

(** ** Start / Pause / Resume *)

Definition on_start_pause_resume (ui : Settings) (now : Q) (a : App)
  : list Event * App :=
  match mode a with
  | idle =>
      match _read_settings ui with
      | (evs, None) => (evs, a)
      | (evs, Some (s, p, sb, lb)) =>
          let a := set_config s p sb lb a in
          let a := set_done_pomodoros 0 a in
          let a := set_paused false a in
          let a := _enter_study now a in
          (evs, set_btn_start "Pause" a)
      end
  | _ =>
      if negb (paused a) then
        let a := set_paused_left (Z.max 0 (left_at now a)) a in
        let a := set_paused true a in
        let a :=
          set_status_before_pause
            (if Mode_eqb (mode a) study then "STUDY" else "BREAK") a in
        ([], set_btn_start "Resume" (set_lbl_status "PAUSE" a))
      else
        let a := set_phase_end_monot (now + inject_Z (paused_left a))%Q a in
        let a := set_paused false a in
        let a := set_lbl_status (_status_before_pause a) a in
        ([], set_btn_start "Pause" a)
  end.

(** ** Reset *)

Definition on_reset (ui : Settings) (a : App) : list Event * App :=
  let '(evs, a) :=
    if total_sessions a <=? 0 then
      match _read_settings ui with
      | (evs, Some (s, p, sb, lb)) => (evs, set_config s p sb lb a)
      | (evs, None) => (evs, a)
      end
    else ([], a) in
  let a := set_done_pomodoros 0 (set_paused false (set_mode idle a)) in
  let a := set_lbl_status "READY" a in
  let a := set_status_before_pause "READY" a in
  let a := _render_bottom_static "00:00" a in
  (evs, set_btn_start "Start" a).

Arguments fmt_mm_ss : simpl never.
Arguments fmt_progress : simpl never.
Arguments py_round : simpl never.
Arguments left_at : simpl never.

(** ** Runs of the controller *)

(** The three ways the event loop enters the timer core. *)
Inductive Op : Type :=
| Tick (now : Q)                    (* the periodic [_heartbeat] *)
| Press (ui : Settings) (now : Q)   (* the Start/Pause/Resume button *)
| Reset (ui : Settings).            (* the Reset button *)

Definition step (op : Op) (a : App) : list Event * App :=
  match op with
  | Tick now => _heartbeat now a
  | Press ui now => on_start_pause_resume ui now a
  | Reset ui => on_reset ui a
  end.

Definition exec (ops : list Op) (a : App) : App :=
  fold_left (fun a op => snd (step op a)) ops a.

Inductive reachable : App -> Prop :=
| reach_init (audio : option string) : reachable (init audio)
| reach_step (op : Op) (a : App) : reachable a -> reachable (snd (step op a)).

(** The timing part of the object: mode, paused flag, completed sessions,
    deadline, frozen remaining seconds and the stored configuration. *)
Definition config (a : App) : Z * Z * Z * Z :=
  (total_sessions a, pomo_min a, short_min a, long_min a).

Definition run_state (a : App) : Mode * bool * Z * Q * Z * (Z * Z * Z * Z) :=
  (mode a, paused a, done_pomodoros a, phase_end_monot a, paused_left a, config a).

(** The settings that [_read_settings] accepts. *)
Definition valid_config (s p sb lb : Z) : Prop :=
  1 <= s <= 20 /\ 0 < p /\ 0 < sb /\ 0 < lb.

Definition settings_of (s p sb lb : Z) : Settings :=
  mkSettings (Some s) (Some p) (Some sb) (Some lb).

(** The settings that [_read_settings] rejects: a field that is not an
    integer, a session count outside 1..20, a duration that is not positive. *)
Definition invalid_settings (ui : Settings) : Prop :=
  match var_sessions ui, var_pomo_min ui, var_short_min ui, var_long_min ui with
  | Some s, Some p, Some sb, Some lb =>
      ~ (1 <= s <= 20) \/ p <= 0 \/ sb <= 0 \/ lb <= 0
  | _, _, _, _ => True
  end.

(** The numerator of the progress display that belongs to a state. *)
Definition numerator_of (a : App) : Z :=
  done_pomodoros a + (if Mode_eqb (mode a) study then 1 else 0).

(** The heartbeat's test for an elapsed phase. *)
Definition phase_elapsed (now : Q) (a : App) : bool :=
  negb (Mode_eqb (mode a) idle) && negb (paused a) && (left_at now a <=? 0).

Fixpoint alerts (evs : list Event) : nat :=
  match evs with
  | [] => 0%nat
  | play_sound_async _ :: evs' => S (alerts evs')
  | showerror _ :: evs' => alerts evs'
  end.

(** What holds of every state the controller can be in. *)
Record Inv (a : App) : Prop := mkInv {
  inv_total : 0 <= total_sessions a <= 20;
  inv_done : 0 <= done_pomodoros a <= total_sessions a;
  inv_running : mode a <> idle -> done_pomodoros a < total_sessions a;
  inv_idle : mode a = idle -> paused a = false;
  inv_pomo : 0 < pomo_min a;
  inv_short : 0 < short_min a;
  inv_long : 0 < long_min a;
  inv_left : 0 <= paused_left a;
  inv_bottom : exists t,
      lbl_bottom a =
      fmt_progress (numerator_of a) (total_sessions a) ++ "    " ++ t
}.

(** Evaluation of the handlers on a state given by its fields.  The
    reduction is by value, so that nested field assignments stay small. *)
Ltac unfold_core :=
  cbv beta iota zeta delta
    [step _heartbeat on_start_pause_resume on_reset _advance_phase
     _enter_study _enter_break _render_bottom_dynamic
     _update_bottom_with_left _render_bottom_static numerator_of config
     run_state phase_elapsed
     set_config set_done_pomodoros set_mode set_paused set_paused_left
     set_status_before_pause set_phase_end_monot set_lbl_status
     set_lbl_bottom set_btn_start
     total_sessions done_pomodoros mode paused paused_left
     _status_before_pause pomo_min short_min long_min phase_end_monot
     audio_path lbl_status lbl_bottom btn_start fst snd Mode_eqb negb
     andb orb] in *.

Ltac fields :=
  cbn [total_sessions done_pomodoros mode paused paused_left
       _status_before_pause pomo_min short_min long_min phase_end_monot
       audio_path lbl_status lbl_bottom btn_start fst snd Mode_eqb negb
       andb orb alerts var_sessions var_pomo_min var_short_min var_long_min]
    in *.

Ltac core := unfold_core; fields.

Ltac close_inv :=
  constructor; unfold_core; fields; rewrite ?Z.add_0_r in *;
  try lia; try congruence; try discriminate;
  try (intros; lia); try (eexists; reflexivity); try (eexists; eassumption).

(** ** Runs used as concrete inputs *)

(** Three sessions of 25 minutes, breaks of 5 and 15 minutes. *)
Definition demo_settings : Settings := settings_of 3 25 5 15.

(** One session of one minute. *)
Definition single_settings : Settings := settings_of 1 1 5 15.

(** A session count of zero. *)
Definition zero_sessions : Settings := settings_of 0 25 5 15.

(** Started at instant 0. *)
Definition started : App := exec [Press demo_settings 0%Q] (init None).

(** Started at 0 and paused at 10. *)
Definition started_paused : App :=
  exec [Press demo_settings 0%Q; Press demo_settings (inject_Z 10)] (init None).

(** Started at 0 with one session of one minute. *)
Definition started_single : App := exec [Press single_settings 0%Q] (init None).

(** ** Notions used in the statements *)

(** The states a heartbeat at [now] leaves as they are: idle ones, paused
    ones whose second line already shows the frozen time, and running ones
    with time left whose second line already shows that time. *)
Definition settled (now : Q) (b : App) : Prop :=
  mode b = idle \/
  (paused b = true /\
   lbl_bottom b =
     fmt_progress (numerator_of b) (total_sessions b) ++ "    " ++
     fmt_mm_ss (paused_left b)) \/
  (paused b = false /\ 0 < left_at now b /\
   lbl_bottom b =
     fmt_progress (numerator_of b) (total_sessions b) ++ "    " ++
     fmt_mm_ss (left_at now b)).

(** ** The shape of the formatted texts *)

Definition is_digit (c : ascii) : bool :=
  match digit_value c with
  | Some _ => true
  | None => false
  end.

(** Two digits, a separator, two digits. *)
Definition two_by_two (sep : ascii) (s : string) : bool :=
  match s with
  | String a (String b (String c (String d (String e EmptyString)))) =>
      is_digit a && is_digit b && Ascii.eqb c sep && is_digit d && is_digit e
  | _ => false
  end.

Definition is_mm_ss (s : string) : bool := two_by_two ":" s.
Definition is_nn_dd (s : string) : bool := two_by_two "/" s.

(** ** Further notions about the timer *)


(** The text of the status line that belongs to a mode. *)
Definition mode_label (m : Mode) : string :=
  match m with
  | idle => "READY"
  | study => "STUDY"
  | break => "BREAK"
  end.

Definition status_text (a : App) : string :=
  if paused a then "PAUSE" else mode_label (mode a).

Definition caption (a : App) : string :=
  match mode a with
  | idle => "Start"
  | _ => if paused a then "Resume" else "Pause"
  end.

(** ** The other module level functions *)

(** The fields of a [datetime] that the clock text uses. *)
Record datetime : Type := mkDatetime {
  year : Z;
  month : Z;
  day : Z;
  hour : Z;
  minute : Z;
  second : Z
}.

(** What the class [datetime] guarantees of these fields. *)
Definition valid_datetime (dt : datetime) : Prop :=
  1 <= year dt <= 9999 /\ 1 <= month dt <= 12 /\ 1 <= day dt <= 31 /\
  0 <= hour dt <= 23 /\ 0 <= minute dt <= 59 /\ 0 <= second dt <= 59.

(** [dt.strftime("%y/%m/%d %H:%M:%S")]: every directive is a number padded
    with zeros to two digits, [%y] being the year without its century. *)
Definition fmt_clock (dt : datetime) : string :=
  format_02d (year dt mod 100) ++ "/" ++ format_02d (month dt) ++ "/" ++
  format_02d (day dt) ++ " " ++ format_02d (hour dt) ++ ":" ++
  format_02d (minute dt) ++ ":" ++ format_02d (second dt).

(** Two decimal digits. *)
Definition two_digits (n : Z) : string :=
  String (digit_char (n / 10)) (String (digit_char (n mod 10)) "").

(** The patterns of [find_audio_file], in the order they are tried. *)
Definition audio_patterns : list string := ["*.wav"; "*.mp3"; "*.WAV"; "*.MP3"].

Fixpoint first_listed (listing : string -> list string) (pats : list string)
  : option string :=
  match pats with
  | [] => None
  | pat :: pats' =>
      match listing pat with
      | f :: _ => Some f
      | [] => first_listed listing pats'
      end
  end.

(** [find_audio_file(folder)]; [listing pat] is the result of
    [glob.glob(os.path.join(folder, pat))]. *)
Definition find_audio_file (listing : string -> list string) : option string :=
  first_listed listing audio_patterns.

(** [sorted] on a list of strings. *)
Fixpoint insert_sorted (x : string) (l : list string) : list string :=
  match l with
  | [] => [x]
  | y :: l' => if String.leb x y then x :: l else y :: insert_sorted x l'
  end.

Fixpoint py_sorted (l : list string) : list string :=
  match l with
  | [] => []
  | x :: l' => insert_sorted x (py_sorted l')
  end.

(** The elements of [set(after) - set(before)]. *)
Definition new_families (after before : list string) : list string :=
  nodup string_dec
    (filter (fun f => negb (existsb (String.eqb f) before)) after).

(** [load_first_ttf_and_get_family(folder)].  [ttf_listing] is the result
    of the glob for [*.ttf], [os_nt] says whether [os.name] is "nt",
    [before] is [tkfont.families()] at the call, and [add_font ttf] is the
    outcome of the block under [try]: the families after the font was
    added, or [None] when the block raises. *)
Definition load_first_ttf_and_get_family
  (ttf_listing : list string) (os_nt : bool) (before : list string)
  (add_font : string -> option (list string)) : bool * option string :=
  match py_sorted ttf_listing with
  | [] => (false, None)
  | ttf :: _ =>
      if os_nt then
        match add_font ttf with
        | Some after =>
            match py_sorted (new_families after before) with
            | f :: _ => (true, Some f)
            | [] => (false, None)
            end
        | None => (false, None)
        end
      else (false, None)
  end.

(** [fam or "Segoe UI"], as [__init__] sets [self.base_family]. *)
Definition base_family_of (fam : option string) : string :=
  match fam with
  | Some f => if String.eqb f "" then "Segoe UI" else f
  | None => "Segoe UI"
  end.

(** ** The look of the window

    The part of [PomodoroApp] and [TextLine] that decides how the window
    looks: colours, fonts, the settings panel, the date line and the
    floating mode.  A widget is modelled by the options the program sets
    and reads; [winfo_manager() == "pack"] is a boolean.  A binding made
    with [bind] replaces the binding of the sequence, [unbind] removes
    it.  Attributes that [__init__] sets once and nothing assigns again
    ([chroma], [float_outline_px], the saved backgrounds, [base_family])
    are constants or fields of the environment; [_status_bg0],
    [_bottom_bg0] and [_now_bg0] are the background of the display frame,
    which every line takes from its master when it is made.  A handler
    that raises returns [None]. *)
Module Gui.

(** A font as it is given to Tk: family, size, style words. *)
Definition Font : Type := (string * Z * list string)%type.

(** A canvas item made by [create_text] (the anchor is always "w"). *)
Inductive Item : Type :=
| create_text (x y : Z) (text : string) (font : Font) (fill : string).

(** The methods bound to mouse sequences. *)
Inductive Handler : Type :=
| on_status_click_h
| drag_start_h
| drag_move_h.

(** What the program cannot decide: the platform, whether the window
    manager accepts a transparent colour, the line height of a font, the
    default backgrounds of the root window and of the two frames, and the
    font family found at start. *)
Record Env : Type := mkEnv {
  os_nt : bool;
  transparent_ok : bool;
  linespace : Font -> Z;
  _root_bg0 : string;
  wrap_default_bg : string;
  display_default_bg : string;
  base_family : string
}.

Definition chroma : string := "#FF00FF".
Definition float_outline_px : Z := 0.

Record TextLine : Type := mkTextLine {
  _text : string;
  _font : Font;
  _fg : string;
  _bg : string;
  _outline_thick : Z;
  _outline_color : string;
  canvas_bg : string;          (* option bg of the canvas *)
  canvas_height : Z;           (* option height of the canvas *)
  canvas_items : list Item     (* the items on the canvas, oldest first *)
}.

Record Widget : Type := mkWidget {
  tl : TextLine;
  manager : bool;              (* packed *)
  pady : Z * Z;
  button1 : option Handler;    (* binding of <Button-1> *)
  b1_motion : option Handler   (* binding of <B1-Motion> *)
}.

Record Frame : Type := mkFrame {
  frame_bg : string;
  fill : string;
  expand : bool;
  frame_button1 : option Handler;
  frame_b1_motion : option Handler
}.

Record Toplevel : Type := mkToplevel {
  top_bg : string;
  topmost : bool;
  overrideredirect : bool;
  alpha : Q;
  transparentcolor : string;
  geometry : option string     (* the last position asked for *)
}.

Record Gui : Type := mkGui {
  float_on : bool;
  show_time : bool;
  setting_open : bool;
  bold_on : bool;
  italic_on : bool;
  underline_on : bool;
  color_var : string;
  size_var : string;
  current_size : string;
  current_fg : string;
  lbl_status : Widget;
  lbl_bottom : Widget;
  lbl_now : Widget;
  settings_packed : bool;      (* the settings frame is packed *)
  wrap : Frame;
  display : Frame;
  root : Toplevel;
  _drag_origin : option (Z * Z * Z * Z)   (* [None]: attribute not set *)
}.

(** Field assignments. *)
Definition with_text (v : string) (t : TextLine) : TextLine :=
  mkTextLine v (_font t) (_fg t) (_bg t) (_outline_thick t) (_outline_color
    t) (canvas_bg t) (canvas_height t) (canvas_items t).

Definition with_font (v : Font) (t : TextLine) : TextLine :=
  mkTextLine (_text t) v (_fg t) (_bg t) (_outline_thick t) (_outline_color
    t) (canvas_bg t) (canvas_height t) (canvas_items t).

Definition with_fg (v : string) (t : TextLine) : TextLine :=
  mkTextLine (_text t) (_font t) v (_bg t) (_outline_thick t)
    (_outline_color t) (canvas_bg t) (canvas_height t) (canvas_items t).

Definition with_bg (v : string) (t : TextLine) : TextLine :=
  mkTextLine (_text t) (_font t) (_fg t) v (_outline_thick t)
    (_outline_color t) (canvas_bg t) (canvas_height t) (canvas_items t).

Definition with_outline_thick (v : Z) (t : TextLine) : TextLine :=
  mkTextLine (_text t) (_font t) (_fg t) (_bg t) v (_outline_color t)
    (canvas_bg t) (canvas_height t) (canvas_items t).

Definition with_outline_color (v : string) (t : TextLine) : TextLine :=
  mkTextLine (_text t) (_font t) (_fg t) (_bg t) (_outline_thick t) v
    (canvas_bg t) (canvas_height t) (canvas_items t).

Definition with_canvas_bg (v : string) (t : TextLine) : TextLine :=
  mkTextLine (_text t) (_font t) (_fg t) (_bg t) (_outline_thick t)
    (_outline_color t) v (canvas_height t) (canvas_items t).

Definition with_canvas_height (v : Z) (t : TextLine) : TextLine :=
  mkTextLine (_text t) (_font t) (_fg t) (_bg t) (_outline_thick t)
    (_outline_color t) (canvas_bg t) v (canvas_items t).

Definition with_canvas_items (v : list Item) (t : TextLine) : TextLine :=
  mkTextLine (_text t) (_font t) (_fg t) (_bg t) (_outline_thick t)
    (_outline_color t) (canvas_bg t) (canvas_height t) v.

Definition with_tl (v : TextLine) (w : Widget) : Widget :=
  mkWidget v (manager w) (pady w) (button1 w) (b1_motion w).

Definition with_manager (v : bool) (w : Widget) : Widget :=
  mkWidget (tl w) v (pady w) (button1 w) (b1_motion w).

Definition with_pady (v : Z * Z) (w : Widget) : Widget :=
  mkWidget (tl w) (manager w) v (button1 w) (b1_motion w).

Definition with_button1 (v : option Handler) (w : Widget) : Widget :=
  mkWidget (tl w) (manager w) (pady w) v (b1_motion w).

Definition with_b1_motion (v : option Handler) (w : Widget) : Widget :=
  mkWidget (tl w) (manager w) (pady w) (button1 w) v.

Definition with_frame_bg (v : string) (f : Frame) : Frame :=
  mkFrame v (fill f) (expand f) (frame_button1 f) (frame_b1_motion f).

Definition with_fill (v : string) (f : Frame) : Frame :=
  mkFrame (frame_bg f) v (expand f) (frame_button1 f) (frame_b1_motion f).

Definition with_expand (v : bool) (f : Frame) : Frame :=
  mkFrame (frame_bg f) (fill f) v (frame_button1 f) (frame_b1_motion f).

Definition with_frame_button1 (v : option Handler) (f : Frame) : Frame :=
  mkFrame (frame_bg f) (fill f) (expand f) v (frame_b1_motion f).

Definition with_frame_b1_motion (v : option Handler) (f : Frame) : Frame :=
  mkFrame (frame_bg f) (fill f) (expand f) (frame_button1 f) v.

Definition with_top_bg (v : string) (r : Toplevel) : Toplevel :=
  mkToplevel v (topmost r) (overrideredirect r) (alpha r) (transparentcolor
    r) (geometry r).

Definition with_topmost (v : bool) (r : Toplevel) : Toplevel :=
  mkToplevel (top_bg r) v (overrideredirect r) (alpha r) (transparentcolor
    r) (geometry r).

Definition with_overrideredirect (v : bool) (r : Toplevel) : Toplevel :=
  mkToplevel (top_bg r) (topmost r) v (alpha r) (transparentcolor r)
    (geometry r).

Definition with_alpha (v : Q) (r : Toplevel) : Toplevel :=
  mkToplevel (top_bg r) (topmost r) (overrideredirect r) v (transparentcolor
    r) (geometry r).

Definition with_transparentcolor (v : string) (r : Toplevel) : Toplevel :=
  mkToplevel (top_bg r) (topmost r) (overrideredirect r) (alpha r) v
    (geometry r).

Definition with_geometry (v : option string) (r : Toplevel) : Toplevel :=
  mkToplevel (top_bg r) (topmost r) (overrideredirect r) (alpha r)
    (transparentcolor r) v.

Definition with_float_on (v : bool) (g : Gui) : Gui :=
  mkGui v (show_time g) (setting_open g) (bold_on g) (italic_on g)
    (underline_on g) (color_var g) (size_var g) (current_size g) (current_fg
    g) (lbl_status g) (lbl_bottom g) (lbl_now g) (settings_packed g) (wrap g)
    (display g) (root g) (_drag_origin g).

Definition with_show_time (v : bool) (g : Gui) : Gui :=
  mkGui (float_on g) v (setting_open g) (bold_on g) (italic_on g)
    (underline_on g) (color_var g) (size_var g) (current_size g) (current_fg
    g) (lbl_status g) (lbl_bottom g) (lbl_now g) (settings_packed g) (wrap g)
    (display g) (root g) (_drag_origin g).

Definition with_setting_open (v : bool) (g : Gui) : Gui :=
  mkGui (float_on g) (show_time g) v (bold_on g) (italic_on g) (underline_on
    g) (color_var g) (size_var g) (current_size g) (current_fg g) (lbl_status
    g) (lbl_bottom g) (lbl_now g) (settings_packed g) (wrap g) (display g)
    (root g) (_drag_origin g).

Definition with_bold_on (v : bool) (g : Gui) : Gui :=
  mkGui (float_on g) (show_time g) (setting_open g) v (italic_on g)
    (underline_on g) (color_var g) (size_var g) (current_size g) (current_fg
    g) (lbl_status g) (lbl_bottom g) (lbl_now g) (settings_packed g) (wrap g)
    (display g) (root g) (_drag_origin g).

Definition with_italic_on (v : bool) (g : Gui) : Gui :=
  mkGui (float_on g) (show_time g) (setting_open g) (bold_on g) v
    (underline_on g) (color_var g) (size_var g) (current_size g) (current_fg
    g) (lbl_status g) (lbl_bottom g) (lbl_now g) (settings_packed g) (wrap g)
    (display g) (root g) (_drag_origin g).

Definition with_underline_on (v : bool) (g : Gui) : Gui :=
  mkGui (float_on g) (show_time g) (setting_open g) (bold_on g) (italic_on
    g) v (color_var g) (size_var g) (current_size g) (current_fg g)
    (lbl_status g) (lbl_bottom g) (lbl_now g) (settings_packed g) (wrap g)
    (display g) (root g) (_drag_origin g).

Definition with_color_var (v : string) (g : Gui) : Gui :=
  mkGui (float_on g) (show_time g) (setting_open g) (bold_on g) (italic_on
    g) (underline_on g) v (size_var g) (current_size g) (current_fg g)
    (lbl_status g) (lbl_bottom g) (lbl_now g) (settings_packed g) (wrap g)
    (display g) (root g) (_drag_origin g).

Definition with_size_var (v : string) (g : Gui) : Gui :=
  mkGui (float_on g) (show_time g) (setting_open g) (bold_on g) (italic_on
    g) (underline_on g) (color_var g) v (current_size g) (current_fg g)
    (lbl_status g) (lbl_bottom g) (lbl_now g) (settings_packed g) (wrap g)
    (display g) (root g) (_drag_origin g).

Definition with_current_size (v : string) (g : Gui) : Gui :=
  mkGui (float_on g) (show_time g) (setting_open g) (bold_on g) (italic_on
    g) (underline_on g) (color_var g) (size_var g) v (current_fg g)
    (lbl_status g) (lbl_bottom g) (lbl_now g) (settings_packed g) (wrap g)
    (display g) (root g) (_drag_origin g).

Definition with_current_fg (v : string) (g : Gui) : Gui :=
  mkGui (float_on g) (show_time g) (setting_open g) (bold_on g) (italic_on
    g) (underline_on g) (color_var g) (size_var g) (current_size g) v
    (lbl_status g) (lbl_bottom g) (lbl_now g) (settings_packed g) (wrap g)
    (display g) (root g) (_drag_origin g).

Definition with_lbl_status (v : Widget) (g : Gui) : Gui :=
  mkGui (float_on g) (show_time g) (setting_open g) (bold_on g) (italic_on
    g) (underline_on g) (color_var g) (size_var g) (current_size g)
    (current_fg g) v (lbl_bottom g) (lbl_now g) (settings_packed g) (wrap g)
    (display g) (root g) (_drag_origin g).

Definition with_lbl_bottom (v : Widget) (g : Gui) : Gui :=
  mkGui (float_on g) (show_time g) (setting_open g) (bold_on g) (italic_on
    g) (underline_on g) (color_var g) (size_var g) (current_size g)
    (current_fg g) (lbl_status g) v (lbl_now g) (settings_packed g) (wrap g)
    (display g) (root g) (_drag_origin g).

Definition with_lbl_now (v : Widget) (g : Gui) : Gui :=
  mkGui (float_on g) (show_time g) (setting_open g) (bold_on g) (italic_on
    g) (underline_on g) (color_var g) (size_var g) (current_size g)
    (current_fg g) (lbl_status g) (lbl_bottom g) v (settings_packed g) (wrap
    g) (display g) (root g) (_drag_origin g).

Definition with_settings_packed (v : bool) (g : Gui) : Gui :=
  mkGui (float_on g) (show_time g) (setting_open g) (bold_on g) (italic_on
    g) (underline_on g) (color_var g) (size_var g) (current_size g)
    (current_fg g) (lbl_status g) (lbl_bottom g) (lbl_now g) v (wrap g)
    (display g) (root g) (_drag_origin g).

Definition with_wrap (v : Frame) (g : Gui) : Gui :=
  mkGui (float_on g) (show_time g) (setting_open g) (bold_on g) (italic_on
    g) (underline_on g) (color_var g) (size_var g) (current_size g)
    (current_fg g) (lbl_status g) (lbl_bottom g) (lbl_now g) (settings_packed
    g) v (display g) (root g) (_drag_origin g).

Definition with_display (v : Frame) (g : Gui) : Gui :=
  mkGui (float_on g) (show_time g) (setting_open g) (bold_on g) (italic_on
    g) (underline_on g) (color_var g) (size_var g) (current_size g)
    (current_fg g) (lbl_status g) (lbl_bottom g) (lbl_now g) (settings_packed
    g) (wrap g) v (root g) (_drag_origin g).

Definition with_root (v : Toplevel) (g : Gui) : Gui :=
  mkGui (float_on g) (show_time g) (setting_open g) (bold_on g) (italic_on
    g) (underline_on g) (color_var g) (size_var g) (current_size g)
    (current_fg g) (lbl_status g) (lbl_bottom g) (lbl_now g) (settings_packed
    g) (wrap g) (display g) v (_drag_origin g).

Definition with_drag_origin (v : option (Z * Z * Z * Z)) (g : Gui) : Gui :=
  mkGui (float_on g) (show_time g) (setting_open g) (bold_on g) (italic_on
    g) (underline_on g) (color_var g) (size_var g) (current_size g)
    (current_fg g) (lbl_status g) (lbl_bottom g) (lbl_now g) (settings_packed
    g) (wrap g) (display g) (root g) v.

(** *** The class [TextLine] *)

Definition is_empty (s : string) : bool :=
  match s with
  | EmptyString => true
  | _ => false
  end.

Definition _redraw (e : Env) (t : TextLine) : TextLine :=
  let h := linespace e (_font t) in
  let t := with_canvas_height (h + 6) (with_canvas_items [] t) in
  let x := 0 in
  let y := h / 2 + 3 in
  let outline :=
    if (0 <? _outline_thick t) && negb (is_empty (_text t)) then
      let th := _outline_thick t in
      map (fun d => create_text (x + fst d) (y + snd d) (_text t) (_font t)
                      (_outline_color t))
        [(- th, - th); (th, - th); (- th, th); (th, th)]
    else [] in
  let main :=
    if negb (is_empty (_text t)) then
      [create_text x y (_text t) (_font t) (_fg t)]
    else [] in
  with_canvas_items (outline ++ main)%list t.

(** [TextLine(master, text, font, fg, bg)]; [master_bg] is
    [master.cget("bg")]. *)
Definition TextLine_init (e : Env) (master_bg : string) (text : string)
  (font : option Font) (fg : string) (bg : option string) : TextLine :=
  let font :=
    match font with
    | Some f => f
    | None => ("Segoe UI", 36, ["bold"])
    end in
  let bg :=
    match bg with
    | Some b => if is_empty b then master_bg else b
    | None => master_bg
    end in
  _redraw e (mkTextLine text font fg bg 0 fg bg 0 []).

(** The keyword arguments of [configure] that the class handles itself. *)
Record Kw : Type := mkKw {
  kw_text : option string;
  kw_font : option Font;
  kw_fg : option string;
  kw_bg : option string
}.

Definition configure (e : Env) (kw : Kw) (t : TextLine) : TextLine :=
  let t := match kw_text kw with Some v => with_text v t | None => t end in
  let t := match kw_font kw with Some v => with_font v t | None => t end in
  let t := match kw_fg kw with Some v => with_fg v t | None => t end in
  let t :=
    match kw_bg kw with
    | Some v => with_canvas_bg v (with_bg v t)
    | None => t
    end in
  _redraw e t.

Definition config_text (e : Env) (v : string) : TextLine -> TextLine :=
  configure e (mkKw (Some v) None None None).
Definition config_font (e : Env) (v : Font) : TextLine -> TextLine :=
  configure e (mkKw None (Some v) None None).
Definition config_fg (e : Env) (v : string) : TextLine -> TextLine :=
  configure e (mkKw None None (Some v) None).
Definition config_bg (e : Env) (v : string) : TextLine -> TextLine :=
  configure e (mkKw None None None (Some v)).

Definition set_outline (e : Env) (thickness : Z) (color : option string)
  (t : TextLine) : TextLine :=
  let t := with_outline_thick (Z.max 0 thickness) t in
  let t :=
    match color with
    | Some c => with_outline_color c t
    | None => t
    end in
  _redraw e t.

(** The values [cget] can return. *)
Inductive Value : Type :=
| VStr (s : string)
| VFont (f : Font).

(** [cget(key)].  The default handed to [dict.get] is [super().cget(key)],
    which Python evaluates before the lookup; [super_cget key] is its
    outcome, [None] when the canvas raises for an option it does not
    have. *)
Definition cget (super_cget : string -> option Value) (key : string)
  (t : TextLine) : option Value :=
  match super_cget key with
  | None => None
  | Some default =>
      Some (if String.eqb key "text" then VStr (_text t)
            else if String.eqb key "font" then VFont (_font t)
            else if String.eqb key "fg" then VStr (_fg t)
            else if String.eqb key "bg" then VStr (_bg t)
            else default)
  end.

(** *** Sizes and styles *)

Record Preset : Type := mkPreset {
  large : Z;
  mid : Z;
  pad_status : Z * Z;
  pad_bottom : Z * Z;
  pad_time : Z * Z
}.

(** [self.size_presets[name]]; [None] stands for the [KeyError]. *)
Definition size_presets (name : string) : option Preset :=
  if String.eqb name "Large" then Some (mkPreset 57 36 (6, 2) (0, 6) (0, 6))
  else if String.eqb name "Mid" then Some (mkPreset 38 24 (4, 2) (0, 4) (0, 4))
  else if String.eqb name "Small" then Some (mkPreset 28 18 (3, 1) (0, 3) (0, 3))
  else None.

Definition _styles (g : Gui) : list string :=
  ((if bold_on g then ["bold"] else []) ++
   (if italic_on g then ["italic"] else []) ++
   (if underline_on g then ["underline"] else []))%list.

Definition _font_big (e : Env) (g : Gui) : option Font :=
  match size_presets (current_size g) with
  | Some p => Some (base_family e, large p, _styles g)
  | None => None
  end.

Definition _font_mid (e : Env) (g : Gui) : option Font :=
  match size_presets (current_size g) with
  | Some p => Some (base_family e, mid p, _styles g)
  | None => None
  end.

Definition on_tl (f : TextLine -> TextLine) (w : Widget) : Widget :=
  with_tl (f (tl w)) w.

Definition apply_text_style (e : Env) (g : Gui) : option Gui :=
  match _font_big e g with
  | None => None
  | Some f1 =>
      let g := with_lbl_status (on_tl (config_font e f1) (lbl_status g)) g in
      match _font_big e g with
      | None => None
      | Some f2 =>
          let g := with_lbl_bottom (on_tl (config_font e f2) (lbl_bottom g)) g in
          match _font_mid e g with
          | None => None
          | Some f3 =>
              Some (with_lbl_now (on_tl (config_font e f3) (lbl_now g)) g)
          end
      end
  end.

Definition on_size_change (e : Env) (g : Gui) : option Gui :=
  let g := with_current_size (size_var g) g in
  match size_presets (current_size g) with
  | None => None
  | Some pad =>
      match apply_text_style e g with
      | None => None
      | Some g =>
          let g := with_lbl_status (with_pady (pad_status pad) (lbl_status g)) g in
          let g := with_lbl_bottom (with_pady (pad_bottom pad) (lbl_bottom g)) g in
          Some (if manager (lbl_now g)
                then with_lbl_now (with_pady (pad_time pad) (lbl_now g)) g
                else g)
      end
  end.

(** *** The settings panel *)

Definition toggle_settings (g : Gui) : Gui :=
  if setting_open g then
    let g := if settings_packed g then with_settings_packed false g else g in
    with_setting_open false g
  else
    let g := with_settings_packed true g in
    with_setting_open true g.

Definition _toggle_settings_key (g : Gui) : Gui := toggle_settings g.

Definition _on_status_click (g : Gui) : Gui := toggle_settings g.

(** *** Colour *)

(** [mapping.get(name, "#000000")]. *)
Definition colour_of (name : string) : string :=
  if String.eqb name "Black" then "#000000"
  else if String.eqb name "Red" then "#FF0000"
  else if String.eqb name "Yellow" then "#FFD400"
  else if String.eqb name "Blue" then "#2060FF"
  else if String.eqb name "Green" then "#19A95A"
  else "#000000".

Definition apply_color (e : Env) (name : string) (g : Gui) : Gui :=
  let g := with_current_fg (colour_of name) g in
  let g := with_lbl_status (on_tl (config_fg e (current_fg g)) (lbl_status g)) g in
  let g := with_lbl_now (on_tl (config_fg e (current_fg g)) (lbl_now g)) g in
  let g := with_lbl_bottom (on_tl (config_fg e (current_fg g)) (lbl_bottom g)) g in
  if float_on g then
    let o := set_outline e float_outline_px (Some (current_fg g)) in
    let g := with_lbl_status (on_tl o (lbl_status g)) g in
    let g := with_lbl_now (on_tl o (lbl_now g)) g in
    with_lbl_bottom (on_tl o (lbl_bottom g)) g
  else g.

Definition on_color_change (e : Env) (g : Gui) : Gui :=
  apply_color e (color_var g) g.

(** *** Floating mode *)

Definition bind_drag (w : Widget) : Widget :=
  with_b1_motion (Some drag_move_h) (with_button1 (Some drag_start_h) w).

Definition unbind_drag (w : Widget) : Widget :=
  with_b1_motion None (with_button1 None w).

Definition apply_floating (e : Env) (g : Gui) : Gui :=
  if float_on g then
    let g := if settings_packed g then with_settings_packed false g else g in
    let g := with_setting_open false g in
    let g := with_root (with_topmost true (root g)) g in
    let g := with_root (with_overrideredirect true (root g)) g in
    let g :=
      if os_nt e then
        let g := with_root (with_top_bg chroma (root g)) g in
        let g := with_wrap (with_frame_bg chroma (wrap g)) g in
        let g := with_display (with_frame_bg chroma (display g)) g in
        let g := with_lbl_status (on_tl (config_bg e chroma) (lbl_status g)) g in
        let g := with_lbl_bottom (on_tl (config_bg e chroma) (lbl_bottom g)) g in
        let g := with_lbl_now (on_tl (config_bg e chroma) (lbl_now g)) g in
        let g :=
          if transparent_ok e
          then with_root (with_transparentcolor chroma (root g)) g
          else g in
        let g := with_wrap (with_expand true (with_fill "both" (wrap g))) g in
        with_display (with_expand true (with_fill "both" (display g))) g
      else with_root (with_alpha (17 # 20) (root g)) g in
    let o := set_outline e float_outline_px (Some (current_fg g)) in
    let g := with_lbl_status (on_tl o (lbl_status g)) g in
    let g := with_lbl_bottom (on_tl o (lbl_bottom g)) g in
    let g := with_lbl_now (on_tl o (lbl_now g)) g in
    let g :=
      with_display
        (with_frame_b1_motion (Some drag_move_h)
           (with_frame_button1 (Some drag_start_h) (display g))) g in
    let g := with_lbl_bottom (bind_drag (lbl_bottom g)) g in
    let g := with_lbl_now (bind_drag (lbl_now g)) g in
    with_lbl_status (with_button1 (Some on_status_click_h) (lbl_status g)) g
  else
    let g := with_root (with_overrideredirect false (root g)) g in
    let g := with_root (with_topmost false (root g)) g in
    let g :=
      if os_nt e then
        let g :=
          if transparent_ok e
          then with_root (with_transparentcolor "" (root g)) g
          else g in
        let g := with_root (with_top_bg (_root_bg0 e) (root g)) g in
        let g := with_wrap (with_frame_bg (wrap_default_bg e) (wrap g)) g in
        let g := with_display (with_frame_bg (display_default_bg e) (display g)) g in
        let g :=
          with_lbl_status
            (on_tl (config_bg e (display_default_bg e)) (lbl_status g)) g in
        let g :=
          with_lbl_bottom
            (on_tl (config_bg e (display_default_bg e)) (lbl_bottom g)) g in
        let g :=
          with_lbl_now
            (on_tl (config_bg e (display_default_bg e)) (lbl_now g)) g in
        let g := with_wrap (with_fill "x" (wrap g)) g in
        with_display (with_fill "x" (display g)) g
      else with_root (with_alpha 1 (root g)) g in
    let o := set_outline e 0 None in
    let g := with_lbl_status (on_tl o (lbl_status g)) g in
    let g := with_lbl_bottom (on_tl o (lbl_bottom g)) g in
    let g := with_lbl_now (on_tl o (lbl_now g)) g in
    let g :=
      with_display
        (with_frame_b1_motion None (with_frame_button1 None (display g))) g in
    let g := with_lbl_bottom (unbind_drag (lbl_bottom g)) g in
    let g := with_lbl_now (unbind_drag (lbl_now g)) g in
    with_lbl_status (with_button1 (Some on_status_click_h) (lbl_status g)) g.

Definition _toggle_floating_evt (e : Env) (g : Gui) : Gui :=
  apply_floating e (with_float_on (negb (float_on g)) g).

(** *** Dragging *)

(** [_drag_start(e)]; the arguments are [e.x_root], [e.y_root],
    [self.winfo_x()] and [self.winfo_y()]. *)
Definition _drag_start (x_root y_root winfo_x winfo_y : Z) (g : Gui) : Gui :=
  with_drag_origin (Some (x_root, y_root, winfo_x, winfo_y)) g.

Definition _drag_move (x_root y_root : Z) (g : Gui) : option Gui :=
  match _drag_origin g with
  | None => None
  | Some (x0, y0, gx, gy) =>
      Some (with_root
              (with_geometry
                 (Some ("+" ++ str_int (gx + (x_root - x0)) ++
                        "+" ++ str_int (gy + (y_root - y0))))
                 (root g)) g)
  end.

(** *** The date line *)

Definition apply_show_time (e : Env) (g : Gui) : option Gui :=
  if show_time g then
    let packed :=
      if negb (manager (lbl_now g)) then
        match size_presets (current_size g) with
        | Some p =>
            Some (with_lbl_now
                    (with_pady (pad_time p) (with_manager true (lbl_now g))) g)
        | None => None
        end
      else Some g in
    match packed with
    | None => None
    | Some g =>
        Some (if float_on g && os_nt e then
                let g := with_lbl_now (on_tl (config_bg e chroma) (lbl_now g)) g in
                with_lbl_now
                  (on_tl (set_outline e float_outline_px (Some (current_fg g)))
                     (lbl_now g)) g
              else g)
    end
  else
    Some (if manager (lbl_now g)
          then with_lbl_now (with_manager false (lbl_now g)) g
          else g).

Definition _update_clock (e : Env) (now : datetime) (g : Gui) : Gui :=
  if show_time g
  then with_lbl_now (on_tl (config_text e (fmt_clock now)) (lbl_now g)) g
  else g.

(** *** The window as [__init__] leaves it

    [dt0] and [dt1] are the two readings of [datetime.now()], for the text
    the date line is created with and for the first [_update_clock]. *)
Definition init_look (e : Env) (dt0 dt1 : datetime) : Gui :=
  let big := Some (base_family e, 57, ["bold"]) in
  let middle := Some (base_family e, 36, ["bold"]) in
  let status :=
    mkWidget (TextLine_init e (display_default_bg e) "READY" big "#000" None)
      true (6, 2) (Some on_status_click_h) None in
  let bottom :=
    mkWidget
      (TextLine_init e (display_default_bg e)
         (fmt_progress 0 0 ++ "    00:00") big "#000" None)
      true (0, 6) None None in
  let now :=
    mkWidget
      (TextLine_init e (display_default_bg e) (fmt_clock dt0) middle "#000" None)
      true (0, 6) None None in
  let g :=
    mkGui false true true true false false "Black" "Large" "Large" "#000000"
      status bottom now true
      (mkFrame (wrap_default_bg e) "x" false None None)
      (mkFrame (display_default_bg e) "x" false None None)
      (mkToplevel (_root_bg0 e) false false 1 "" None)
      None in
  _update_clock e dt1 (apply_color e "Black" g).

(** *** What the user and the timer do to the window *)

Inductive Target : Type := on_status | on_bottom | on_now | on_display.

Inductive Ev : Type :=
| StatusClick                       (* <Button-1> on the status line *)
| StatusDoubleClick                 (* <Double-Button-1> on the status line *)
| KeyS                              (* key S or s *)
| KeyF                              (* key F or f *)
| CheckFloating                     (* the Floating check box *)
| CheckDate                         (* the Date check box *)
| CheckBold
| CheckItalic
| CheckUnderline
| SelectColor (name : string)       (* the colour box *)
| SelectSize (name : string)        (* the size box *)
| Press1 (w : Target) (x_root y_root winfo_x winfo_y : Z)
| Motion1 (w : Target) (x_root y_root : Z)
| ClockTick (now : datetime)        (* [_update_clock] from the heartbeat *)
| CoreStatus (text : string)        (* the timer sets the status text *)
| CoreBottom (text : string).       (* the timer sets the second line *)

Definition binding1 (w : Target) (g : Gui) : option Handler :=
  match w with
  | on_status => button1 (lbl_status g)
  | on_bottom => button1 (lbl_bottom g)
  | on_now => button1 (lbl_now g)
  | on_display => frame_button1 (display g)
  end.

Definition binding_motion (w : Target) (g : Gui) : option Handler :=
  match w with
  | on_status => b1_motion (lbl_status g)
  | on_bottom => b1_motion (lbl_bottom g)
  | on_now => b1_motion (lbl_now g)
  | on_display => frame_b1_motion (display g)
  end.

(** A bound method called for a mouse event. *)
Definition call (h : option Handler) (x_root y_root winfo_x winfo_y : Z)
  (g : Gui) : option Gui :=
  match h with
  | None => Some g
  | Some on_status_click_h => Some (_on_status_click g)
  | Some drag_start_h => Some (_drag_start x_root y_root winfo_x winfo_y g)
  | Some drag_move_h => _drag_move x_root y_root g
  end.

(** A check box inverts its variable and then calls its command; a box
    with a list stores the chosen name and then calls its handler. *)
Definition fire (e : Env) (ev : Ev) (g : Gui) : option Gui :=
  match ev with
  | StatusClick => call (button1 (lbl_status g)) 0 0 0 0 g
  | StatusDoubleClick => Some (_toggle_floating_evt e g)
  | KeyS => Some (_toggle_settings_key g)
  | KeyF => Some (_toggle_floating_evt e g)
  | CheckFloating =>
      Some (apply_floating e (with_float_on (negb (float_on g)) g))
  | CheckDate => apply_show_time e (with_show_time (negb (show_time g)) g)
  | CheckBold => apply_text_style e (with_bold_on (negb (bold_on g)) g)
  | CheckItalic => apply_text_style e (with_italic_on (negb (italic_on g)) g)
  | CheckUnderline =>
      apply_text_style e (with_underline_on (negb (underline_on g)) g)
  | SelectColor name => Some (on_color_change e (with_color_var name g))
  | SelectSize name => on_size_change e (with_size_var name g)
  | Press1 w x y wx wy => call (binding1 w g) x y wx wy g
  | Motion1 w x y => call (binding_motion w g) x y 0 0 g
  | ClockTick now => Some (_update_clock e now g)
  | CoreStatus text =>
      Some (with_lbl_status (on_tl (config_text e text) (lbl_status g)) g)
  | CoreBottom text =>
      Some (with_lbl_bottom (on_tl (config_text e text) (lbl_bottom g)) g)
  end.

Inductive reachable_look (e : Env) : Gui -> Prop :=
| look_init (dt0 dt1 : datetime) : reachable_look e (init_look e dt0 dt1)
| look_fire (ev : Ev) (g g' : Gui) :
    reachable_look e g -> fire e ev g = Some g' -> reachable_look e g'.

(** What [_redraw] puts on the canvas of a line. *)
Definition drawn (e : Env) (t : TextLine) : list Item :=
  canvas_items (_redraw e t).

(** *** What holds of every window the program can show *)

(** The background of the root window, of the frames and of the lines. *)
Definition floating_nt (e : Env) (g : Gui) : bool := float_on g && os_nt e.

Definition line_bg (e : Env) (g : Gui) : string :=
  if floating_nt e g then chroma else display_default_bg e.

Definition drag_binding (g : Gui) (h : Handler) : option Handler :=
  if float_on g then Some h else None.

(** One line: no outline, the canvas shows what [_redraw] draws, the
    colour is the current one, the background is the one of the mode. *)
Record LineInv (e : Env) (g : Gui) (w : Widget) : Prop := mkLineInv {
  line_thick : _outline_thick (tl w) = 0;
  line_items : canvas_items (tl w) = drawn e (tl w);
  line_height : canvas_height (tl w) = linespace e (_font (tl w)) + 6;
  line_fg : _fg (tl w) = current_fg g;
  line_outline : float_on g = true -> _outline_color (tl w) = current_fg g;
  line_bg_ok : _bg (tl w) = line_bg e g;
  line_canvas_bg : canvas_bg (tl w) = line_bg e g
}.

Record LookInv (e : Env) (g : Gui) : Prop := mkLookInv {
  look_settings : setting_open g = settings_packed g;
  look_topmost : topmost (root g) = float_on g;
  look_override : overrideredirect (root g) = float_on g;
  look_display_b1 : frame_button1 (display g) = drag_binding g drag_start_h;
  look_display_bm : frame_b1_motion (display g) = drag_binding g drag_move_h;
  look_bottom_b1 : button1 (lbl_bottom g) = drag_binding g drag_start_h;
  look_bottom_bm : b1_motion (lbl_bottom g) = drag_binding g drag_move_h;
  look_now_b1 : button1 (lbl_now g) = drag_binding g drag_start_h;
  look_now_bm : b1_motion (lbl_now g) = drag_binding g drag_move_h;
  look_status_b1 : button1 (lbl_status g) = Some on_status_click_h;
  look_status_bm : b1_motion (lbl_status g) = None;
  look_top_bg :
    top_bg (root g) = (if floating_nt e g then chroma else _root_bg0 e);
  look_wrap_bg :
    frame_bg (wrap g) = (if floating_nt e g then chroma else wrap_default_bg e);
  look_display_bg : frame_bg (display g) = line_bg e g;
  look_wrap_fill : fill (wrap g) = (if floating_nt e g then "both" else "x");
  look_display_fill :
    fill (display g) = (if floating_nt e g then "both" else "x");
  look_wrap_expand : floating_nt e g = true -> expand (wrap g) = true;
  look_display_expand : floating_nt e g = true -> expand (display g) = true;
  look_alpha :
    alpha (root g) = (if float_on g && negb (os_nt e) then 17 # 20 else 1)%Q;
  look_transparent :
    transparentcolor (root g) =
    (if floating_nt e g && transparent_ok e then chroma else "");
  look_colour : current_fg g = colour_of (color_var g);
  look_status : LineInv e g (lbl_status g);
  look_bottom : LineInv e g (lbl_bottom g);
  look_now : LineInv e g (lbl_now g);
  look_size : current_size g = size_var g;
  look_fonts :
    exists p,
      size_presets (current_size g) = Some p /\
      _font (tl (lbl_status g)) = (base_family e, large p, _styles g) /\
      _font (tl (lbl_bottom g)) = (base_family e, large p, _styles g) /\
      _font (tl (lbl_now g)) = (base_family e, mid p, _styles g) /\
      pady (lbl_status g) = pad_status p /\
      pady (lbl_bottom g) = pad_bottom p /\
      (manager (lbl_now g) = true -> pady (lbl_now g) = pad_time p);
  look_date : manager (lbl_now g) = show_time g;
  look_packed_status : manager (lbl_status g) = true;
  look_packed_bottom : manager (lbl_bottom g) = true
}.

(** *** Notions used in the statements about the window *)

(** A run of [_drag_move] calls, one for each pointer position. *)
Fixpoint drag_moves (ps : list (Z * Z)) (g : Gui) : option Gui :=
  match ps with
  | [] => Some g
  | (x, y) :: ps' =>
      match _drag_move x y g with
      | Some g' => drag_moves ps' g'
      | None => None
      end
  end.

(** The one item of a line that has no outline. *)
Definition plain_items (e : Env) (t : TextLine) : list Item :=
  if is_empty (_text t) then []
  else [create_text 0 (linespace e (_font t) / 2 + 3) (_text t) (_font t)
          (_fg t)].

(** An environment and a time of day for concrete windows. *)
Definition demo_env : Env :=
  mkEnv true true (fun f => 2 * snd (fst f)) "SystemButtonFace"
    "SystemButtonFace" "SystemButtonFace" "Segoe UI".

Definition demo_time : datetime := mkDatetime 2025 3 9 7 5 0.

Definition demo_look : Gui := init_look demo_env demo_time demo_time.

(** A canvas that has the options bg and height and no others. *)
Definition demo_canvas (key : string) : option Value :=
  if String.eqb key "bg" then Some (VStr "white")
  else if String.eqb key "height" then Some (VStr "120")
  else None.

End Gui.

(** ** The timer on doubles

    The same handlers with the floats of the program: the deadline is a
    double or an infinity, the clock arithmetic rounds, and it raises where
    Python raises.  A reading of [time.monotonic()] is a finite double; the
    handlers take any rational for it, every double being one. *)

Module Fp.

(** *** Doubles *)

(** [2 ^ k] for any integer [k]. *)
Definition pow2 (k : Z) : Q := (2 ^ k)%Q.

(** For [0 < x]: the exponent [e] with [2^e <= x < 2^(e+1)]. *)
Definition binade (x : Q) : Z :=
  let k := Z.log2 (Qnum x) - Z.log2 (Zpos (Qden x)) in
  if Qle_bool (pow2 k) x then k else k - 1.

(** The distance between neighbouring doubles around [x]: 53 bits of
    precision, exponents from -1022 on (below that the subnormal grid). *)
Definition ulp (x : Q) : Q := pow2 (Z.max (binade (Qabs x)) (-1022) - 52).

(** A Python [float] that is not a NaN: a finite double, given by its exact
    value, or an infinity. *)
Inductive pyfloat : Type :=
| Fin (q : Q)
| PInf
| NInf.

(** Rounding of an exact result to the nearest double, ties to the even
    mantissa, overflowing to an infinity from [2^1024] on. *)
Definition rnd (x : Q) : pyfloat :=
  if Qeq_bool x 0 then Fin 0
  else
    let q := ulp x in
    let r := Qred (q * inject_Z (py_round (x / q))) in
    if Qle_bool (pow2 1024) r then PInf
    else if Qle_bool r (- pow2 1024) then NInf
    else Fin r.

(** The order of floats. *)
Definition fle (x y : pyfloat) : Prop :=
  match x, y with
  | NInf, _ => True
  | _, PInf => True
  | Fin a, Fin b => (a <= b)%Q
  | _, _ => False
  end.

Definition fneg (x : pyfloat) : pyfloat :=
  match x with
  | Fin a => Fin (- a)
  | PInf => NInf
  | NInf => PInf
  end.

(** The exponent of the grid of doubles around [x], and the nearest grid
    point before the test for overflow. *)
Definition grid (x : Q) : Z := Z.max (binade (Qabs x)) (-1022).

Definition raw (x : Q) : Q := (ulp x * inject_Z (py_round (x / ulp x)))%Q.

(** [float(n)] for an integer, as [float + int] computes it before adding:
    the nearest double, [None] where Python raises [OverflowError]
    ("int too large to convert to float"). *)
Definition float_of_int (n : Z) : option Q :=
  match rnd (inject_Z n) with
  | Fin d => Some d
  | _ => None
  end.

(** The sum of two finite doubles. *)
Definition fadd (x y : Q) : pyfloat := rnd (x + y).

(** A float minus a finite double. *)
Definition fsub (x : pyfloat) (y : Q) : pyfloat :=
  match x with
  | Fin q => rnd (q - y)
  | PInf => PInf
  | NInf => NInf
  end.

(** [int(round(x))]: nearest integer, ties to even; [None] where Python
    raises [OverflowError] ("cannot convert float infinity to integer"). *)
Definition round_int (x : pyfloat) : option Z :=
  match x with
  | Fin q => Some (py_round q)
  | _ => None
  end.

(** [time.monotonic() + n] for the clock reading [now] and an integer [n]. *)
Definition clock_plus (now : Q) (n : Z) : option pyfloat :=
  match float_of_int n with
  | Some d => Some (fadd now d)
  | None => None
  end.

(** *** The application object *)

(** The exception that the clock arithmetic can raise. *)
Inductive Exn : Type := OverflowError.

(** The fields of [PomodoroApp] that the timer core reads or writes.
    [hb_pending] says that a call of [_heartbeat] is scheduled with
    [after]. *)
Record PomodoroApp : Type := mkPomodoroApp {
  total_sessions : Z;
  done_pomodoros : Z;
  mode : Mode;
  paused : bool;
  paused_left : Z;
  _status_before_pause : string;
  pomo_min : Z;
  short_min : Z;
  long_min : Z;
  phase_end_monot : pyfloat;
  audio_path : option string;
  lbl_status : string;
  lbl_bottom : string;
  btn_start : string;
  hb_pending : bool
}.

(** What a call of a handler leaves behind: the events, the object, and the
    exception that ended the call, if any. *)
Definition Result : Type := (list Event * PomodoroApp * option Exn)%type.

Definition events_of (r : Result) : list Event := fst (fst r).
Definition state_of (r : Result) : PomodoroApp := snd (fst r).
Definition raised (r : Result) : option Exn := snd r.

(** Field assignments. *)
Definition set_config (s p sb lb : Z) (a : PomodoroApp) : PomodoroApp :=
  mkPomodoroApp
    s (done_pomodoros a) (mode a) (paused a) (paused_left a)
    (_status_before_pause a) p sb lb (phase_end_monot a) (audio_path a)
    (lbl_status a) (lbl_bottom a) (btn_start a) (hb_pending a).

Definition set_done_pomodoros (n : Z) (a : PomodoroApp) : PomodoroApp :=
  mkPomodoroApp
    (total_sessions a) n (mode a) (paused a) (paused_left a)
    (_status_before_pause a) (pomo_min a) (short_min a) (long_min a)
    (phase_end_monot a) (audio_path a) (lbl_status a) (lbl_bottom a)
    (btn_start a) (hb_pending a).

Definition set_mode (m : Mode) (a : PomodoroApp) : PomodoroApp :=
  mkPomodoroApp
    (total_sessions a) (done_pomodoros a) m (paused a) (paused_left a)
    (_status_before_pause a) (pomo_min a) (short_min a) (long_min a)
    (phase_end_monot a) (audio_path a) (lbl_status a) (lbl_bottom a)
    (btn_start a) (hb_pending a).

Definition set_paused (b : bool) (a : PomodoroApp) : PomodoroApp :=
  mkPomodoroApp
    (total_sessions a) (done_pomodoros a) (mode a) b (paused_left a)
    (_status_before_pause a) (pomo_min a) (short_min a) (long_min a)
    (phase_end_monot a) (audio_path a) (lbl_status a) (lbl_bottom a)
    (btn_start a) (hb_pending a).

Definition set_paused_left (n : Z) (a : PomodoroApp) : PomodoroApp :=
  mkPomodoroApp
    (total_sessions a) (done_pomodoros a) (mode a) (paused a) n
    (_status_before_pause a) (pomo_min a) (short_min a) (long_min a)
    (phase_end_monot a) (audio_path a) (lbl_status a) (lbl_bottom a)
    (btn_start a) (hb_pending a).

Definition set_status_before_pause (t : string) (a : PomodoroApp) : PomodoroApp :=
  mkPomodoroApp
    (total_sessions a) (done_pomodoros a) (mode a) (paused a) (paused_left a)
    t (pomo_min a) (short_min a) (long_min a) (phase_end_monot a)
    (audio_path a) (lbl_status a) (lbl_bottom a) (btn_start a) (hb_pending a).

Definition set_phase_end_monot (t : pyfloat) (a : PomodoroApp) : PomodoroApp :=
  mkPomodoroApp
    (total_sessions a) (done_pomodoros a) (mode a) (paused a) (paused_left a)
    (_status_before_pause a) (pomo_min a) (short_min a) (long_min a) t
    (audio_path a) (lbl_status a) (lbl_bottom a) (btn_start a) (hb_pending a).

Definition set_lbl_status (t : string) (a : PomodoroApp) : PomodoroApp :=
  mkPomodoroApp
    (total_sessions a) (done_pomodoros a) (mode a) (paused a) (paused_left a)
    (_status_before_pause a) (pomo_min a) (short_min a) (long_min a)
    (phase_end_monot a) (audio_path a) t (lbl_bottom a) (btn_start a)
    (hb_pending a).

Definition set_lbl_bottom (t : string) (a : PomodoroApp) : PomodoroApp :=
  mkPomodoroApp
    (total_sessions a) (done_pomodoros a) (mode a) (paused a) (paused_left a)
    (_status_before_pause a) (pomo_min a) (short_min a) (long_min a)
    (phase_end_monot a) (audio_path a) (lbl_status a) t (btn_start a)
    (hb_pending a).

Definition set_btn_start (t : string) (a : PomodoroApp) : PomodoroApp :=
  mkPomodoroApp
    (total_sessions a) (done_pomodoros a) (mode a) (paused a) (paused_left a)
    (_status_before_pause a) (pomo_min a) (short_min a) (long_min a)
    (phase_end_monot a) (audio_path a) (lbl_status a) (lbl_bottom a) t
    (hb_pending a).

Definition set_hb_pending (b : bool) (a : PomodoroApp) : PomodoroApp :=
  mkPomodoroApp
    (total_sessions a) (done_pomodoros a) (mode a) (paused a) (paused_left a)
    (_status_before_pause a) (pomo_min a) (short_min a) (long_min a)
    (phase_end_monot a) (audio_path a) (lbl_status a) (lbl_bottom a)
    (btn_start a) b.

(** The object as [__init__] leaves it: its last statement is a first call
    of [_heartbeat], which finds the mode idle and schedules the next one. *)
Definition init (audio : option string) : PomodoroApp :=
  mkPomodoroApp 0 0 idle false 0 "READY" 25 5 15 (Fin 0) audio
    "READY" (fmt_progress 0 0 ++ "    00:00") "Start" true.

(** *** Rendering of the second line *)

Definition _render_bottom_dynamic (numerator total_seconds : Z)
    (a : PomodoroApp) : PomodoroApp :=
  set_lbl_bottom
    (fmt_progress numerator (total_sessions a) ++ "    " ++ fmt_mm_ss total_seconds) a.

Definition _update_bottom_with_left (left_seconds : Z)
    (a : PomodoroApp) : PomodoroApp :=
  let numerator :=
    done_pomodoros a + (if Mode_eqb (mode a) study then 1 else 0) in
  set_lbl_bottom
    (fmt_progress numerator (total_sessions a) ++ "    " ++ fmt_mm_ss left_seconds) a.

Definition _render_bottom_static (mmss : string) (a : PomodoroApp) : PomodoroApp :=
  set_lbl_bottom
    (fmt_progress (done_pomodoros a) (total_sessions a) ++ "    " ++ mmss) a.

(** *** Phase transitions

    The statement [self.phase_end_monot = time.monotonic() + dur] raises
    when [dur] is too large for a float; what was assigned before it stays
    assigned, what follows it is not run. *)

Definition _enter_study (now : Q) (a : PomodoroApp) : PomodoroApp * option Exn :=
  let a := set_lbl_status "STUDY" (set_mode study a) in
  let a := set_status_before_pause "STUDY" a in
  let dur := pomo_min a * 60 in
  match clock_plus now dur with
  | None => (a, Some OverflowError)
  | Some t =>
      let a := set_paused false (set_phase_end_monot t a) in
      (_render_bottom_dynamic (done_pomodoros a + 1) dur a, None)
  end.

Definition _enter_break (now : Q) (a : PomodoroApp) : PomodoroApp * option Exn :=
  let a := set_lbl_status "BREAK" (set_mode break a) in
  let a := set_status_before_pause "BREAK" a in
  let dur :=
    (if done_pomodoros a mod 5 =? 0 then long_min a else short_min a) * 60 in
  match clock_plus now dur with
  | None => (a, Some OverflowError)
  | Some t =>
      let a := set_paused false (set_phase_end_monot t a) in
      (_render_bottom_dynamic (done_pomodoros a) dur a, None)
  end.

Definition _advance_phase (now : Q) (a : PomodoroApp) : PomodoroApp * option Exn :=
  match mode a with
  | study =>
      let a := set_done_pomodoros (done_pomodoros a + 1) a in
      if total_sessions a <=? done_pomodoros a then
        let a := set_lbl_status "READY" (set_mode idle a) in
        let a := set_status_before_pause "READY" a in
        (set_btn_start "Start" (_render_bottom_static "00:00" a), None)
      else _enter_break now a
  | break => _enter_study now a
  | idle => (a, None)
  end.

(** *** The heartbeat *)

(** [int(round(self.phase_end_monot - time.monotonic()))]. *)
Definition left_at (now : Q) (a : PomodoroApp) : option Z :=
  round_int (fsub (phase_end_monot a) now).

(** The last statement of [_heartbeat] schedules the next call; a call that
    raises does not reach it. *)
Definition _heartbeat (now : Q) (a : PomodoroApp) : Result :=
  match mode a with
  | idle => ([], set_hb_pending true a, None)
  | _ =>
      if paused a then
        ([], set_hb_pending true (_update_bottom_with_left (paused_left a) a), None)
      else
        match left_at now a with
        | None => ([], set_hb_pending false a, Some OverflowError)
        | Some l =>
            if l <=? 0 then
              match _advance_phase now a with
              | (a', None) =>
                  ([play_sound_async (audio_path a)], set_hb_pending true a', None)
              | (a', Some e) =>
                  ([play_sound_async (audio_path a)], set_hb_pending false a', Some e)
              end
            else
              ([], set_hb_pending true (_update_bottom_with_left l a), None)
        end
  end.

(** *** Start / Pause / Resume *)

Definition on_start_pause_resume (ui : Settings) (now : Q) (a : PomodoroApp)
  : Result :=
  match mode a with
  | idle =>
      match _read_settings ui with
      | (evs, None) => (evs, a, None)
      | (evs, Some (s, p, sb, lb)) =>
          let a := set_config s p sb lb a in
          let a := set_done_pomodoros 0 a in
          let a := set_paused false a in
          match _enter_study now a with
          | (a', None) => (evs, set_btn_start "Pause" a', None)
          | (a', Some e) => (evs, a', Some e)
          end
      end
  | _ =>
      if negb (paused a) then
        match left_at now a with
        | None => ([], a, Some OverflowError)
        | Some l =>
            let a := set_paused_left (Z.max 0 l) a in
            let a := set_paused true a in
            let a :=
              set_status_before_pause
                (if Mode_eqb (mode a) study then "STUDY" else "BREAK") a in
            ([], set_btn_start "Resume" (set_lbl_status "PAUSE" a), None)
        end
      else
        match clock_plus now (paused_left a) with
        | None => ([], a, Some OverflowError)
        | Some t =>
            let a := set_phase_end_monot t a in
            let a := set_paused false a in
            let a := set_lbl_status (_status_before_pause a) a in
            ([], set_btn_start "Pause" a, None)
        end
  end.

(** *** Reset *)

Definition on_reset (ui : Settings) (a : PomodoroApp) : Result :=
  let '(evs, a) :=
    if total_sessions a <=? 0 then
      match _read_settings ui with
      | (evs, Some (s, p, sb, lb)) => (evs, set_config s p sb lb a)
      | (evs, None) => (evs, a)
      end
    else ([], a) in
  let a := set_done_pomodoros 0 (set_paused false (set_mode idle a)) in
  let a := set_lbl_status "READY" a in
  let a := set_status_before_pause "READY" a in
  let a := _render_bottom_static "00:00" a in
  (evs, set_btn_start "Start" a, None).

Arguments rnd : simpl never.
Arguments left_at : simpl never.
Arguments clock_plus : simpl never.

(** *** Runs *)

Definition step (op : Op) (a : PomodoroApp) : Result :=
  match op with
  | Tick now => _heartbeat now a
  | Press ui now => on_start_pause_resume ui now a
  | Reset ui => on_reset ui a
  end.

Definition exec (ops : list Op) (a : PomodoroApp) : PomodoroApp :=
  fold_left (fun a op => state_of (step op a)) ops a.

(** The states the program can be in.  The heartbeat runs only while a call
    of it is scheduled; the two buttons can be pressed at any time. *)
Inductive reachable : PomodoroApp -> Prop :=
| reach_init (audio : option string) : reachable (init audio)
| reach_tick (now : Q) (a : PomodoroApp) :
    reachable a -> hb_pending a = true ->
    reachable (state_of (_heartbeat now a))
| reach_press (ui : Settings) (now : Q) (a : PomodoroApp) :
    reachable a -> reachable (state_of (on_start_pause_resume ui now a))
| reach_reset (ui : Settings) (a : PomodoroApp) :
    reachable a -> reachable (state_of (on_reset ui a)).

Definition config (a : PomodoroApp) : Z * Z * Z * Z :=
  (total_sessions a, pomo_min a, short_min a, long_min a).

Definition run_state (a : PomodoroApp)
  : Mode * bool * Z * pyfloat * Z * (Z * Z * Z * Z) :=
  (mode a, paused a, done_pomodoros a, phase_end_monot a, paused_left a, config a).

Definition numerator_of (a : PomodoroApp) : Z :=
  done_pomodoros a + (if Mode_eqb (mode a) study then 1 else 0).

(** The heartbeat's test for an elapsed phase. *)
Definition phase_elapsed (now : Q) (a : PomodoroApp) : bool :=
  negb (Mode_eqb (mode a) idle) && negb (paused a) &&
  match left_at now a with
  | Some l => l <=? 0
  | None => false
  end.

Definition status_text (a : PomodoroApp) : string :=
  if paused a then "PAUSE" else mode_label (mode a).

Definition caption (a : PomodoroApp) : string :=
  match mode a with
  | idle => "Start"
  | _ => if paused a then "Resume" else "Pause"
  end.

(** A number of seconds that [float + int] can convert. *)
Definition fits (n : Z) : Prop := float_of_int n <> None.

(** All three phase lengths of the stored configuration can be converted. *)
Definition durations_fit (a : PomodoroApp) : Prop :=
  fits (pomo_min a * 60) /\ fits (short_min a * 60) /\ fits (long_min a * 60).

(** What holds of every state the program can be in, half-entered phases
    included. *)
Record Consistent (a : PomodoroApp) : Prop := mkConsistent {
  ok_total : 0 <= total_sessions a <= 20;
  ok_done : 0 <= done_pomodoros a <= total_sessions a;
  ok_running : mode a <> idle -> done_pomodoros a < total_sessions a;
  ok_idle : mode a = idle -> paused a = false;
  ok_pomo : 0 < pomo_min a;
  ok_short : 0 < short_min a;
  ok_long : 0 < long_min a;
  ok_left : 0 <= paused_left a;
  ok_status : lbl_status a = status_text a;
  ok_before : _status_before_pause a = mode_label (mode a);
  ok_button : btn_start a = caption a \/
               (btn_start a = "Start" /\ paused a = false);
  ok_button_fit : fits (pomo_min a * 60) -> btn_start a = caption a;
  ok_bottom : exists n d t,
      lbl_bottom a = fmt_progress n d ++ "    " ++ t /\
      0 <= n <= d /\ d <= 20 /\
      (durations_fit a -> n = numerator_of a /\ d = total_sessions a)
}.

(** *** Runs used as concrete inputs *)

(** Started at clock reading 0 with three sessions of 25 minutes. *)
Definition started : PomodoroApp := exec [Press demo_settings 0%Q] (init None).

(** Started at 0 and paused at 10. *)
Definition started_paused : PomodoroApp :=
  exec [Press demo_settings 0%Q; Press demo_settings (inject_Z 10)] (init None).

(** One session whose study time of [10^307] minutes [_read_settings]
    accepts and no float can hold. *)
Definition huge_settings : Settings := settings_of 1 (10 ^ 307) 5 15.

(** Two sessions of one minute with a short break of [2^53 + 1] minutes:
    the seconds of that break are not a double. *)
Definition long_break_settings : Settings := settings_of 2 1 (2 ^ 53 + 1) 15.

(** One session of [19215358410114117] minutes, [2^60 + 44] seconds. *)
Definition aeon_settings : Settings := settings_of 1 19215358410114117 5 15.

(** *** Notions used in the statements *)

(** [in_run s p sb lb k a]: the state [a] belongs to a run that was started
    with the accepted settings [s], [p], [sb], [lb] and in which [k] study
    sessions have been completed since the start.  A run goes on through
    presses of Start/Pause/Resume and the scheduled heartbeats for as long
    as the mode is not idle; [k] grows by one at each heartbeat that finds
    a study phase elapsed. *)
Inductive in_run (s p sb lb : Z) : Z -> PomodoroApp -> Prop :=
| run_start (now : Q) (a : PomodoroApp) :
    mode a = idle ->
    valid_config s p sb lb ->
    in_run s p sb lb 0
      (state_of (on_start_pause_resume (settings_of s p sb lb) now a))
| run_press (ui : Settings) (now : Q) (k : Z) (a : PomodoroApp) :
    in_run s p sb lb k a ->
    mode a <> idle ->
    in_run s p sb lb k (state_of (on_start_pause_resume ui now a))
| run_tick (now : Q) (k : Z) (a : PomodoroApp) :
    in_run s p sb lb k a ->
    mode a <> idle ->
    hb_pending a = true ->
    in_run s p sb lb
      (if Mode_eqb (mode a) study && phase_elapsed now a then k + 1 else k)
      (state_of (_heartbeat now a)).



(** Clock readings and phase lengths of everyday size: below [2^50]
    seconds. *)
Definition small_clock (now : Q) : Prop := (0 <= now /\ now < pow2 50)%Q.


(** The run of the specification's example: every phase ended by a
    heartbeat at its deadline.  [phases n a] lists mode, completed sessions
    and length, as read back at its start, of the phase entered by each of
    the next [n] such heartbeats. *)
Fixpoint phases (n : nat) (a : PomodoroApp) : list (Mode * Z * Z) :=
  match n with
  | O => []
  | S n' =>
      match phase_end_monot a with
      | Fin now =>
          let a' := state_of (_heartbeat now a) in
          let len := match left_at now a' with Some l => l | None => 0 end in
          (mode a', done_pomodoros a', len) :: phases n' a'
      | _ => []
      end
  end.

Definition breaks_of (l : list (Mode * Z * Z)) : list (Z * Z) :=
  flat_map (fun x => match x with
                     | (break, k, d) => [(k, d)]
                     | _ => []
                     end) l.

(** *** Notions about the exceptions *)

(** The largest double. *)
Definition dbl_max : Z := 2 ^ 1024 - 2 ^ 971.

(** The states the program can be in while every reading of the clock is
    below [2^50] seconds. *)
Inductive reachable_early : PomodoroApp -> Prop :=
| early_init (audio : option string) : reachable_early (init audio)
| early_tick (now : Q) (a : PomodoroApp) :
    reachable_early a -> hb_pending a = true -> small_clock now ->
    reachable_early (state_of (_heartbeat now a))
| early_press (ui : Settings) (now : Q) (a : PomodoroApp) :
    reachable_early a -> small_clock now ->
    reachable_early (state_of (on_start_pause_resume ui now a))
| early_reset (ui : Settings) (a : PomodoroApp) :
    reachable_early a -> reachable_early (state_of (on_reset ui a)).

(** The length in seconds of the phase that [_advance_phase] enters from
    the state [a]; [None] when it enters none. *)
Definition next_length (a : PomodoroApp) : option Z :=
  match mode a with
  | study =>
      if total_sessions a <=? done_pomodoros a + 1 then None
      else Some ((if (done_pomodoros a + 1) mod 5 =? 0
                  then long_min a else short_min a) * 60)
  | break => Some (pomo_min a * 60)
  | idle => None
  end.

(** A finite deadline and frozen seconds that a float can hold. *)
Definition sane (a : PomodoroApp) : Prop :=
  (exists t, phase_end_monot a = Fin t /\ (0 <= t <= inject_Z dbl_max)%Q) /\
  fits (paused_left a).

(** [later a b]: the program can get from the state [a] to the state [b];
    a heartbeat runs only while one is scheduled. *)
Inductive later (a : PomodoroApp) : PomodoroApp -> Prop :=
| later_now : later a a
| later_tick (now : Q) (b : PomodoroApp) :
    later a b -> hb_pending b = true -> later a (state_of (_heartbeat now b))
| later_press (ui : Settings) (now : Q) (b : PomodoroApp) :
    later a b -> later a (state_of (on_start_pause_resume ui now b))
| later_reset (ui : Settings) (b : PomodoroApp) :
    later a b -> later a (state_of (on_reset ui b)).

(** Two sessions of one minute with a short break of [10^307] minutes. *)
Definition endless_break_settings : Settings := settings_of 2 1 (10 ^ 307) 15.

End Fp.

(** * Proofs *)

(** ** The formatters and the rounding on examples *)

Example fmt_mm_ss_1500 : fmt_mm_ss 1500 = "25:00".
Proof. reflexivity. Qed.

Example fmt_mm_ss_59 : fmt_mm_ss 59 = "00:59".
Proof. reflexivity. Qed.

Example fmt_mm_ss_neg : fmt_mm_ss (-7) = "00:00".
Proof. reflexivity. Qed.

Example fmt_progress_3_12 : fmt_progress 3 12 = "03/12".
Proof. reflexivity. Qed.

Example format_02d_neg : format_02d (-5) = "-5".
Proof. reflexivity. Qed.

Example py_round_half_even :
  py_round (1 # 2) = 0 /\ py_round (3 # 2) = 2 /\ py_round (5 # 2) = 2 /\
  py_round (- (1 # 2)) = 0 /\ py_round (- (3 # 2)) = -2 /\
  py_round (7 # 5) = 1 /\ py_round (- (7 # 5)) = -1.
Proof. repeat split; reflexivity. Qed.

(** ** Facts about rounding *)

Section Rounding.

Lemma py_round_comp (x y : Q) : (x == y)%Q -> py_round x = py_round y.
Proof.
  intros Hxy. unfold py_round.
  assert (Hf : Qfloor x = Qfloor y) by (apply Qfloor_comp; exact Hxy).
  rewrite Hf.
  assert (Hc : Qcompare (x - inject_Z (Qfloor y)) (1 # 2)
               = Qcompare (y - inject_Z (Qfloor y)) (1 # 2)).
  { apply Qcompare_comp; [ rewrite Hxy; reflexivity | reflexivity ]. }
  rewrite Hc. reflexivity.
Qed.

Lemma py_round_inject_Z (z : Z) : py_round (inject_Z z) = z.
Proof.
  unfold py_round. rewrite Qfloor_Z.
  assert (Hc : Qcompare (inject_Z z - inject_Z z) (1 # 2) = Lt).
  { assert (H0 : (inject_Z z - inject_Z z == 0)%Q) by ring.
    rewrite (Qcompare_comp _ _ H0 _ _ (Qeq_refl (1 # 2))). reflexivity. }
  rewrite Hc. reflexivity.
Qed.

End Rounding.

(** ** Facts about decimal formatting *)

Section Decimal.

Lemma string_app_assoc (s1 s2 s3 : string) :
  (s1 ++ s2) ++ s3 = s1 ++ (s2 ++ s3).
Proof.
  induction s1 as [|c s1 IH]; simpl; [reflexivity | now rewrite IH].
Qed.

Lemma string_length_app (s1 s2 : string) :
  String.length (s1 ++ s2) = (String.length s1 + String.length s2)%nat.
Proof.
  induction s1 as [|c s1 IH]; simpl; [reflexivity | now rewrite IH].
Qed.

Lemma digit_value_char (d : Z) :
  0 <= d < 10 -> digit_value (digit_char d) = Some d.
Proof.
  intros H.
  assert (Hd : d = 0 \/ d = 1 \/ d = 2 \/ d = 3 \/ d = 4 \/
               d = 5 \/ d = 6 \/ d = 7 \/ d = 8 \/ d = 9) by lia.
  repeat (destruct Hd as [-> | Hd]; [reflexivity|]).
  subst d. reflexivity.
Qed.

Lemma dec_digits_app (fuel : nat) :
  forall n acc, dec_digits fuel n acc = dec_digits fuel n "" ++ acc.
Proof.
  induction fuel as [|fuel IH]; intros n acc; cbn [dec_digits]; [reflexivity|].
  destruct (n <? 10); [reflexivity|].
  rewrite (IH (n / 10) (String _ acc)), (IH (n / 10) (String _ "")).
  rewrite string_app_assoc. reflexivity.
Qed.

Lemma dec_digits_small (fuel : nat) (n : Z) (acc : string) :
  n < 10 -> dec_digits (S fuel) n acc = String (digit_char (n mod 10)) acc.
Proof.
  intros H. cbn [dec_digits]. destruct (Z.ltb_spec n 10); [reflexivity | lia].
Qed.

Lemma dec_digits_step (fuel : nat) (n : Z) (acc : string) :
  10 <= n ->
  dec_digits (S fuel) n acc =
  dec_digits fuel (n / 10) (String (digit_char (n mod 10)) acc).
Proof.
  intros H. cbn [dec_digits]. destruct (Z.ltb_spec n 10); [lia | reflexivity].
Qed.

Lemma dec_value_from_app (s1 : string) :
  forall v s2,
    dec_value_from v (s1 ++ s2) =
    match dec_value_from v s1 with
    | Some v' => dec_value_from v' s2
    | None => None
    end.
Proof.
  induction s1 as [|c s1 IH]; intros v s2; simpl; [reflexivity|].
  destruct (digit_value c); [apply IH | reflexivity].
Qed.

Lemma dec_fuel_enough (n : Z) : 0 <= n -> n < 2 ^ Z.of_nat (dec_fuel n).
Proof.
  intros Hn. unfold dec_fuel.
  rewrite Nat2Z.inj_succ, Z2Nat.id by apply Z.log2_nonneg.
  destruct (Z.eq_dec n 0) as [-> | Hne]; [reflexivity|].
  apply Z.log2_spec. lia.
Qed.

Lemma fuel_step (fuel : nat) (n : Z) :
  0 <= n < 2 ^ Z.of_nat (S fuel) -> 0 <= n / 10 < 2 ^ Z.of_nat fuel.
Proof.
  intros [H0 H1].
  rewrite Nat2Z.inj_succ, Z.pow_succ_r in H1 by lia.
  split; [apply Z.div_pos; lia|].
  apply Z.div_lt_upper_bound; lia.
Qed.

Lemma dec_digits_value (fuel : nat) :
  forall n, 0 <= n < 2 ^ Z.of_nat fuel ->
            dec_value_from 0 (dec_digits fuel n "") = Some n.
Proof.
  induction fuel as [|fuel IH]; intros n Hn.
  - assert (n = 0) by (simpl in Hn; lia). subst n. reflexivity.
  - cbn [dec_digits]. destruct (Z.ltb_spec n 10) as [Hlt | Hge].
    + cbn [dec_value_from]. rewrite Z.mod_small by lia.
      rewrite digit_value_char by lia. f_equal; lia.
    + rewrite dec_digits_app, dec_value_from_app.
      rewrite (IH (n / 10)) by (apply fuel_step; exact Hn).
      cbn [dec_value_from].
      rewrite digit_value_char by (apply Z.mod_pos_bound; lia).
      f_equal. rewrite (Z.div_mod n 10) at 3 by lia. reflexivity.
Qed.

Lemma dec_digits_length_pos (fuel : nat) (n : Z) :
  (1 <= String.length (dec_digits (S fuel) n ""))%nat.
Proof.
  cbn [dec_digits]. destruct (n <? 10); cbn [String.length]; [lia|].
  rewrite dec_digits_app, string_length_app. cbn [String.length]. lia.
Qed.

Lemma str_int_nonneg (n : Z) :
  0 <= n -> str_int n = dec_digits (dec_fuel n) n "".
Proof.
  intros Hn. unfold str_int.
  destruct (Z.ltb_spec n 0); [lia | reflexivity].
Qed.

(** Below ten: a zero and the digit. *)
Lemma format_02d_one_digit (n : Z) :
  0 <= n < 10 -> format_02d n = String "0" (String (digit_char n) "").
Proof.
  intros Hn. unfold format_02d. rewrite str_int_nonneg by lia.
  unfold dec_fuel. rewrite dec_digits_small by lia.
  rewrite Z.mod_small by lia. reflexivity.
Qed.

(** From ten to ninety-nine: the two digits. *)
Lemma format_02d_two_digits (n : Z) :
  10 <= n < 100 ->
  format_02d n = String (digit_char (n / 10)) (String (digit_char (n mod 10)) "").
Proof.
  intros Hn. unfold format_02d. rewrite str_int_nonneg by lia.
  unfold dec_fuel.
  assert (Hl : 3 <= Z.log2 n) by (apply (Z.log2_le_mono 8 n); lia).
  destruct (Z.to_nat (Z.log2 n)) as [|k] eqn:Hk; [lia|].
  assert (H10 : 0 <= n / 10 < 10)
    by (split; [apply Z.div_pos; lia | apply Z.div_lt_upper_bound; lia]).
  rewrite dec_digits_step by lia.
  rewrite dec_digits_small by lia.
  rewrite (Z.mod_small (n / 10)) by lia.
  reflexivity.
Qed.

(** From a hundred on the field is wider than two characters. *)
Lemma format_02d_wide (n : Z) :
  100 <= n -> (3 <= String.length (format_02d n))%nat.
Proof.
  intros Hn.
  assert (Hs : (3 <= String.length (str_int n))%nat).
  { rewrite str_int_nonneg by lia. unfold dec_fuel.
    assert (Hl : 6 <= Z.log2 n) by (apply (Z.log2_le_mono 64 n); lia).
    destruct (Z.to_nat (Z.log2 n)) as [|[|k]] eqn:Hk; [lia | lia |].
    assert (H10 : 10 <= n / 10) by (apply Z.div_le_lower_bound; lia).
    rewrite dec_digits_step by lia.
    rewrite dec_digits_step by lia.
    rewrite dec_digits_app, string_length_app.
    pose proof (dec_digits_length_pos k (n / 10 / 10)).
    cbn [String.length]. lia. }
  unfold format_02d.
  destruct (Nat.ltb_spec (String.length (str_int n)) 2); [lia | exact Hs].
Qed.

Lemma format_02d_length (n : Z) :
  0 <= n -> (2 <= String.length (format_02d n))%nat.
Proof.
  intros Hn. unfold format_02d.
  destruct (Nat.ltb_spec (String.length (str_int n)) 2) as [Hlt | Hge];
    [|exact Hge].
  rewrite str_int_nonneg in * by lia. unfold dec_fuel in *.
  pose proof (dec_digits_length_pos (Z.to_nat (Z.log2 n)) n).
  cbn [String.length]. lia.
Qed.

Lemma format_02d_length_two (n : Z) :
  0 <= n -> (String.length (format_02d n) = 2%nat <-> n < 100).
Proof.
  intros Hn. split.
  - intros Hl. destruct (Z.lt_ge_cases n 100) as [H | H]; [exact H|].
    pose proof (format_02d_wide n H). lia.
  - intros Hlt. destruct (Z.lt_ge_cases n 10).
    + rewrite format_02d_one_digit by lia. reflexivity.
    + rewrite format_02d_two_digits by lia. reflexivity.
Qed.

(** The field reads back as the number that was formatted. *)
Lemma format_02d_value (n : Z) : 0 <= n -> dec_value (format_02d n) = Some n.
Proof.
  intros Hn. unfold format_02d. rewrite str_int_nonneg by lia.
  pose proof (dec_digits_value (dec_fuel n) n
                (conj Hn (dec_fuel_enough n Hn))) as Hv.
  pose proof (dec_digits_length_pos (Z.to_nat (Z.log2 n)) n) as Hp.
  fold (dec_fuel n) in Hp.
  destruct (Nat.ltb_spec (String.length (dec_digits (dec_fuel n) n "")) 2).
  - unfold dec_value. cbn [dec_value_from].
    change (digit_value "0") with (Some 0).
    replace (10 * 0 + 0) with 0 by lia. exact Hv.
  - unfold dec_value.
    destruct (dec_digits (dec_fuel n) n "") eqn:E; [cbn [String.length] in Hp; lia | exact Hv].
Qed.

End Decimal.

Section ReadSettings.

Lemma read_settings_valid (s p sb lb : Z) :
  valid_config s p sb lb ->
  _read_settings (settings_of s p sb lb) = ([], Some (s, p, sb, lb)).
Proof.
  intros (Hs & Hp & Hsb & Hlb). unfold _read_settings, settings_of. fields.
  destruct (Z.leb_spec 1 s); [|lia].
  destruct (Z.leb_spec s 20); [|lia].
  destruct (Z.leb_spec p 0); [lia|].
  destruct (Z.leb_spec sb 0); [lia|].
  destruct (Z.leb_spec lb 0); [lia|].
  reflexivity.
Qed.

Lemma read_settings_some (ui : Settings) (evs : list Event) (s p sb lb : Z) :
  _read_settings ui = (evs, Some (s, p, sb, lb)) ->
  evs = [] /\ valid_config s p sb lb /\ ui = settings_of s p sb lb.
Proof.
  destruct ui as [[s'|] [p'|] [sb'|] [lb'|]];
    unfold _read_settings; fields; try discriminate.
  destruct (Z.leb_spec 1 s'); destruct (Z.leb_spec s' 20); fields;
    try discriminate.
  destruct (Z.leb_spec p' 0); destruct (Z.leb_spec sb' 0);
    destruct (Z.leb_spec lb' 0); fields; try discriminate.
  intros Heq. inversion Heq; subst.
  unfold valid_config, settings_of. repeat split; try reflexivity; lia.
Qed.

Lemma read_settings_invalid (ui : Settings) :
  invalid_settings ui ->
  exists title, _read_settings ui = ([showerror title], None).
Proof.
  destruct ui as [[s|] [p|] [sb|] [lb|]];
    unfold invalid_settings, _read_settings; fields; intros Hbad;
    try (eexists; reflexivity).
  destruct (Z.leb_spec 1 s); destruct (Z.leb_spec s 20); fields;
    try (eexists; reflexivity).
  destruct (Z.leb_spec p 0); destruct (Z.leb_spec sb 0);
    destruct (Z.leb_spec lb 0); fields; try (eexists; reflexivity).
  exfalso. lia.
Qed.

End ReadSettings.

(** ** The invariant is kept by every handler *)

Section Invariant.

Lemma init_inv (audio : option string) : Inv (init audio).
Proof.
  constructor; cbn; try lia; try congruence.
  exists "00:00". reflexivity.
Qed.

Lemma heartbeat_inv (now : Q) (a : App) : Inv a -> Inv (snd (_heartbeat now a)).
Proof.
  destruct a as [ts dn md pa pl sbp pm sm lm pe au ls lb bs].
  intros [Ht Hd Hr Hi Hp Hs Hl Hpl [t Hb]]. core.
  assert (Hrun : md <> idle -> dn < ts) by exact Hr. clear Hr.
  destruct md; fields.
  - close_inv; eauto.
  - specialize (Hrun ltac:(discriminate)).
    destruct pa; fields; [close_inv|].
    destruct (left_at now _ <=? 0); fields; [|close_inv].
    destruct (Z.leb_spec ts (dn + 1)); fields; close_inv.
  - specialize (Hrun ltac:(discriminate)).
    destruct pa; fields; [close_inv|].
    destruct (left_at now _ <=? 0); fields; close_inv.
Qed.

Lemma press_inv (ui : Settings) (now : Q) (a : App) :
  Inv a -> Inv (snd (on_start_pause_resume ui now a)).
Proof.
  destruct a as [ts dn md pa pl sbp pm sm lm pe au ls lb bs].
  intros [Ht Hd Hr Hi Hp Hs Hl Hpl [t Hb]]. core.
  assert (Hrun : md <> idle -> dn < ts) by exact Hr. clear Hr.
  destruct md; fields.
  - destruct (_read_settings ui) as [evs [[[[s p] sb] l]|]] eqn:E; fields.
    + apply read_settings_some in E. destruct E as (_ & (? & ? & ? & ?) & _).
      close_inv.
    + close_inv; eauto.
  - specialize (Hrun ltac:(discriminate)).
    destruct pa; fields; close_inv; eauto.
  - specialize (Hrun ltac:(discriminate)).
    destruct pa; fields; close_inv; eauto.
Qed.

Lemma reset_inv (ui : Settings) (a : App) : Inv a -> Inv (snd (on_reset ui a)).
Proof.
  destruct a as [ts dn md pa pl sbp pm sm lm pe au ls lb bs].
  intros [Ht Hd Hr Hi Hp Hs Hl Hpl [t Hb]]. core.
  destruct (Z.leb_spec ts 0); fields.
  - destruct (_read_settings ui) as [evs [[[[s p] sb] l]|]] eqn:E; fields.
    + apply read_settings_some in E. destruct E as (_ & (? & ? & ? & ?) & _).
      close_inv.
    + close_inv.
  - close_inv.
Qed.

Lemma step_inv (op : Op) (a : App) : Inv a -> Inv (snd (step op a)).
Proof.
  destruct op; cbn [step];
    [apply heartbeat_inv | apply press_inv | apply reset_inv].
Qed.

Lemma reachable_inv (a : App) : reachable a -> Inv a.
Proof.
  induction 1 as [audio | op a _ IH]; [apply init_inv | now apply step_inv].
Qed.

End Invariant.

Lemma reachable_exec (ops : list Op) :
  forall a, reachable a -> reachable (exec ops a).
Proof.
  induction ops as [|op ops IH]; intros a Ha; [exact Ha|].
  cbn [exec fold_left]. apply IH. now apply reach_step.
Defined.

(** ** The claims *)

(** C4. In every state reachable from the initial idle state by heartbeats,
    presses of Start/Pause/Resume and presses of Reset, the number of
    completed sessions is at most the session count, and when the two are
    equal the mode is idle. *)
Theorem completed_sessions_bounded (a : App) :
  reachable a ->
  done_pomodoros a <= total_sessions a /\
  (done_pomodoros a = total_sessions a -> mode a = idle).
Proof.
  intros Hr. destruct (reachable_inv a Hr) as [_ Hd Hrun _ _ _ _ _ _].
  split; [lia|].
  intros Heq. destruct (mode a) eqn:Hm; [reflexivity | |];
    exfalso; assert (done_pomodoros a < total_sessions a)
      by (apply Hrun; discriminate); lia.
Qed.

Lemma completed_sessions_bounded_witness :
  reachable started /\
  done_pomodoros started <= total_sessions started /\
  (done_pomodoros started = total_sessions started -> mode started = idle).
Proof.
  assert (Hr : reachable started)
    by (apply reachable_exec; apply reach_init).
  split; [exact Hr | exact (completed_sessions_bounded started Hr)].
Defined.

Example started_bottom : lbl_bottom started = "01/03    25:00".
Proof. vm_compute. reflexivity. Qed.

Lemma press_idle_invalid (ui : Settings) (now : Q) (a : App) :
  mode a = idle ->
  invalid_settings ui ->
  exists title, on_start_pause_resume ui now a = ([showerror title], a).
Proof.
  intros Hm Hbad. unfold on_start_pause_resume. rewrite Hm.
  destruct (read_settings_invalid ui Hbad) as [title ->].
  exists title. reflexivity.
Qed.

(** C2. Pressing Start in idle mode with settings that are rejected (a field
    that is not an integer, a session count outside 1..20, a study, short
    break or long break duration that is not positive) reports an error
    through [showerror] and changes nothing: the whole object, hence the
    mode, the completed sessions, the paused flag and the stored
    configuration, is the one before the press. *)
Theorem invalid_start_changes_nothing (ui : Settings) (now : Q) (a : App) :
  mode a = idle ->
  invalid_settings ui ->
  exists title, on_start_pause_resume ui now a = ([showerror title], a).
Proof.
  intros Hm Hbad. destruct (press_idle_invalid ui now a Hm Hbad) as [title E].
  exists title. rewrite E. split.
Qed.

Lemma invalid_start_changes_nothing_witness :
  exists title,
    on_start_pause_resume zero_sessions 0%Q (init None) =
    ([showerror title], init None).
Proof.
  apply (invalid_start_changes_nothing zero_sessions 0%Q (init None)).
  - reflexivity.
  - unfold invalid_settings, zero_sessions, settings_of. fields. lia.
Defined.

Example invalid_start_titles :
  fst (on_start_pause_resume (settings_of 21 25 5 15) 0%Q (init None))
    = [showerror "Invalid Sessions"] /\
  fst (on_start_pause_resume (settings_of 12 25 0 15) 0%Q (init None))
    = [showerror "Invalid minutes"] /\
  fst (on_start_pause_resume (mkSettings (Some 12) None (Some 5) (Some 15))
         0%Q (init None))
    = [showerror "Invalid input"].
Proof. repeat split; reflexivity. Qed.

(** ** The alert *)

Lemma read_settings_no_alert (ui : Settings) :
  alerts (fst (_read_settings ui)) = 0%nat.
Proof.
  destruct ui as [[s|] [p|] [sb|] [lb|]]; unfold _read_settings; fields;
    try reflexivity.
  destruct (negb _); [reflexivity|].
  destruct (_ || _); reflexivity.
Qed.

Lemma press_no_alert (ui : Settings) (now : Q) (a : App) :
  alerts (fst (on_start_pause_resume ui now a)) = 0%nat.
Proof.
  destruct a as [ts dn md pa pl sbp pm sm lm pe au ls lb bs]. core.
  destruct md; fields.
  - pose proof (read_settings_no_alert ui) as Hna.
    destruct (_read_settings ui) as [evs [[[[s p] sb] l]|]]; exact Hna.
  - destruct pa; reflexivity.
  - destruct pa; reflexivity.
Qed.

Lemma reset_no_alert (ui : Settings) (a : App) :
  alerts (fst (on_reset ui a)) = 0%nat.
Proof.
  destruct a as [ts dn md pa pl sbp pm sm lm pe au ls lb bs]. core.
  destruct (ts <=? 0); [|reflexivity].
  pose proof (read_settings_no_alert ui) as Hna.
  destruct (_read_settings ui) as [evs [[[[s p] sb] l]|]]; exact Hna.
Qed.

Lemma heartbeat_events (now : Q) (a : App) :
  fst (_heartbeat now a) =
  if phase_elapsed now a then [play_sound_async (audio_path a)] else [].
Proof.
  destruct a as [ts dn md pa pl sbp pm sm lm pe au ls lb bs]. core.
  set (L := left_at now _).
  destruct md, pa; fields; try reflexivity; destruct (L <=? 0); reflexivity.
Qed.

Lemma phase_elapsed_true (now : Q) (a : App) :
  phase_elapsed now a = true <->
  mode a <> idle /\ paused a = false /\ Z.max 0 (left_at now a) = 0.
Proof.
  unfold phase_elapsed.
  destruct (mode a), (paused a); cbn [Mode_eqb negb andb];
    (split; [intros H | intros (Hm & Hp & Hz)]);
    try discriminate; try congruence.
  - apply Z.leb_le in H. repeat split; [discriminate | lia].
  - apply Z.leb_le. lia.
  - apply Z.leb_le in H. repeat split; [discriminate | lia].
  - apply Z.leb_le. lia.
Qed.

Lemma heartbeat_mode_change (now : Q) (a : App) :
  phase_elapsed now a = true <-> mode (snd (_heartbeat now a)) <> mode a.
Proof.
  destruct a as [ts dn md pa pl sbp pm sm lm pe au ls lb bs]. core.
  set (L := left_at now _).
  destruct md, pa; fields; try (split; [discriminate | congruence]);
    destruct (L <=? 0); fields;
    try (split; [discriminate | congruence]);
    try (destruct (ts <=? dn + 1); fields);
    split; intros; try reflexivity; discriminate.
Qed.

Lemma heartbeat_last_session (now : Q) (a : App) :
  mode a = study -> total_sessions a <= done_pomodoros a + 1 ->
  phase_elapsed now a = true ->
  let a' := snd (_heartbeat now a) in
  mode a' = idle /\ done_pomodoros a' = done_pomodoros a + 1 /\
  paused a' = false /\ config a' = config a /\
  lbl_bottom a' =
    fmt_progress (done_pomodoros a + 1) (total_sessions a) ++ "    00:00".
Proof.
  destruct a as [ts dn md pa pl sbp pm sm lm pe au ls lb bs]. core.
  set (L := left_at now _).
  intros -> Hlast. destruct pa; fields; [discriminate|].
  intros ->. destruct (Z.leb_spec ts (dn + 1)); [|lia].
  fields. repeat split.
Qed.

(** C6. A heartbeat emits the alert exactly when it finds a running phase
    (mode study or break, not paused) with no remaining time, and then it
    emits it once; this is exactly when the heartbeat changes the mode
    (study to break, break to study, or the last study to idle), so the
    completing heartbeat of a run emits it too.  A press of
    Start/Pause/Resume, a press of Reset and a heartbeat that finds time
    remaining emit no alert. *)
Theorem alert_iff_phase_elapsed (a : App) (now : Q) :
  fst (_heartbeat now a) =
    (if phase_elapsed now a then [play_sound_async (audio_path a)] else []) /\
  (phase_elapsed now a = true <->
   mode a <> idle /\ paused a = false /\ Z.max 0 (left_at now a) = 0) /\
  (phase_elapsed now a = true <-> mode (snd (_heartbeat now a)) <> mode a) /\
  (mode a = study -> total_sessions a <= done_pomodoros a + 1 ->
   phase_elapsed now a = true ->
   mode (snd (_heartbeat now a)) = idle /\
   alerts (fst (_heartbeat now a)) = 1%nat) /\
  (forall ui now', alerts (fst (on_start_pause_resume ui now' a)) = 0%nat) /\
  (forall ui, alerts (fst (on_reset ui a)) = 0%nat).
Proof.
  split; [apply heartbeat_events|].
  split; [apply phase_elapsed_true|].
  split; [apply heartbeat_mode_change|].
  split; [|split; [intros; apply press_no_alert | intros; apply reset_no_alert]].
  intros Hm Hlast He. split.
  - apply (heartbeat_last_session now a Hm Hlast He).
  - rewrite heartbeat_events, He. reflexivity.
Qed.

Lemma alert_iff_phase_elapsed_witness :
  mode (snd (_heartbeat (inject_Z 60) started_single)) = idle /\
  alerts (fst (_heartbeat (inject_Z 60) started_single)) = 1%nat.
Proof.
  apply (alert_iff_phase_elapsed started_single (inject_Z 60)).
  - reflexivity.
  - vm_compute. discriminate.
  - vm_compute. reflexivity.
Defined.

(** ** Heartbeats that change nothing *)

Lemma heartbeat_settled (now : Q) (b : App) :
  settled now b -> _heartbeat now b = ([], b).
Proof.
  destruct b as [ts dn md pa pl sbp pm sm lm pe au ls lb bs].
  unfold settled. core.
  intros [Hm | [[Hp Hb] | (Hp & HL & Hb)]].
  - subst md. reflexivity.
  - subst pa. rewrite <- Hb. destruct md; reflexivity.
  - subst pa. rewrite <- Hb.
    destruct (Z.leb_spec (left_at now (mkApp ts dn md false pl sbp pm sm lm
                                         pe au ls lb bs)) 0); [lia|].
    destruct md; reflexivity.
Qed.

(** ** Completion of a run *)

(** C10. The heartbeat that completes the last study session of a run only
    sets the mode to idle: the paused flag stays off, the completed sessions
    become the session count and are not zeroed, deadline, frozen remaining
    seconds and configuration are untouched, and the second line shows the
    session count over the session count.  From there a heartbeat and a
    press of Start with rejected settings change nothing; the completed
    sessions go back to zero by a press of Reset or by a press of Start
    with accepted settings. *)
Theorem completion_keeps_count (a : App) (now : Q) :
  reachable a ->
  mode a = study ->
  total_sessions a <= done_pomodoros a + 1 ->
  phase_elapsed now a = true ->
  let a' := snd (_heartbeat now a) in
  run_state a' =
    (idle, false, total_sessions a, phase_end_monot a, paused_left a, config a) /\
  done_pomodoros a' = total_sessions a' /\
  lbl_bottom a' =
    fmt_progress (total_sessions a) (total_sessions a) ++ "    00:00" /\
  (forall now', _heartbeat now' a' = ([], a')) /\
  (forall ui now', invalid_settings ui ->
                   snd (on_start_pause_resume ui now' a') = a') /\
  (forall s p sb lb now',
      valid_config s p sb lb ->
      done_pomodoros
        (snd (on_start_pause_resume (settings_of s p sb lb) now' a')) = 0) /\
  (forall ui, done_pomodoros (snd (on_reset ui a')) = 0).
Proof.
  intros Hr Hm Hlast He a'.
  pose proof (reachable_inv a Hr) as HI.
  assert (Hdn : done_pomodoros a + 1 = total_sessions a).
  { pose proof (inv_running a HI) as Hrun.
    assert (done_pomodoros a < total_sessions a)
      by (apply Hrun; congruence). lia. }
  destruct (heartbeat_last_session now a Hm Hlast He)
    as (Hm' & Hd' & Hp' & Hc' & Hb').
  fold a' in Hm', Hd', Hp', Hc', Hb'.
  assert (Hrs : run_state a' =
                (idle, false, total_sessions a, phase_end_monot a,
                 paused_left a, config a)).
  { subst a'. clear - Hm Hlast He Hdn.
    destruct a as [ts dn md pa pl sbp pm sm lm pe au ls lb bs]. core.
    set (L := left_at now _) in *. subst md.
    destruct pa; fields; [discriminate|]. rewrite He.
    destruct (Z.leb_spec ts (dn + 1)); [|lia]. fields.
    rewrite Hdn. reflexivity. }
  assert (Hts : total_sessions a' = total_sessions a)
    by (unfold config in Hc'; congruence).
  split; [exact Hrs|].
  split; [lia|].
  split; [rewrite Hb', Hdn; reflexivity|].
  split; [intros now'; apply heartbeat_settled; left; exact Hm'|].
  split; [|split].
  - intros ui now' Hbad.
    destruct (press_idle_invalid ui now' a' Hm' Hbad) as [title ->].
    reflexivity.
  - intros s p sb lb now' Hv.
    unfold on_start_pause_resume. rewrite Hm'.
    rewrite (read_settings_valid s p sb lb Hv).
    destruct a' as [ts dn md pa pl sbp pm sm lm pe au ls lb' bs]. core.
    reflexivity.
  - intros ui. destruct a' as [ts dn md pa pl sbp pm sm lm pe au ls lb' bs].
    core. destruct (ts <=? 0); [|reflexivity].
    destruct (_read_settings ui) as [evs [[[[s p] sb] l]|]]; reflexivity.
Qed.

Lemma completion_keeps_count_witness :
  let a' := snd (_heartbeat (inject_Z 60) started_single) in
  reachable started_single /\
  run_state a' =
    (idle, false, total_sessions started_single,
     phase_end_monot started_single, paused_left started_single,
     config started_single) /\
  done_pomodoros a' = total_sessions a' /\
  lbl_bottom a' =
    fmt_progress (total_sessions started_single)
      (total_sessions started_single) ++ "    00:00".
Proof.
  assert (Hr : reachable started_single)
    by (apply reachable_exec; apply reach_init).
  assert (Hm : mode started_single = study) by reflexivity.
  assert (Hl : total_sessions started_single
               <= done_pomodoros started_single + 1)
    by (vm_compute; discriminate).
  assert (He : phase_elapsed (inject_Z 60) started_single = true)
    by (vm_compute; reflexivity).
  pose proof (completion_keeps_count started_single (inject_Z 60) Hr Hm Hl He)
    as (H1 & H2 & H3 & _).
  intros a'.
  exact (conj Hr (conj H1 (conj H2 H3))).
Defined.

Example completion_display :
  lbl_bottom (snd (_heartbeat (inject_Z 60) started_single)) = "01/01    00:00" /\
  lbl_status (snd (_heartbeat (inject_Z 60) started_single)) = "READY".
Proof. split; vm_compute; reflexivity. Qed.

(** ** Facts about the shape of the formatted texts *)

Section Shape.

Lemma is_digit_char (d : Z) : 0 <= d < 10 -> is_digit (digit_char d) = true.
Proof.
  intros H. unfold is_digit. now rewrite digit_value_char.
Qed.

Lemma format_02d_two_chars (n : Z) :
  0 <= n < 100 ->
  exists d1 d2,
    0 <= d1 < 10 /\ 0 <= d2 < 10 /\
    format_02d n = String (digit_char d1) (String (digit_char d2) "").
Proof.
  intros Hn. destruct (Z.lt_ge_cases n 10).
  - exists 0, n. rewrite format_02d_one_digit by lia.
    repeat split; lia.
  - exists (n / 10), (n mod 10). rewrite format_02d_two_digits by lia.
    pose proof (Z.mod_pos_bound n 10 ltac:(lia)).
    assert (0 <= n / 10 < 10)
      by (split; [apply Z.div_pos; lia | apply Z.div_lt_upper_bound; lia]).
    repeat split; lia.
Qed.

Lemma two_by_two_fields (sep : ascii) (n d : Z) :
  0 <= n < 100 -> 0 <= d < 100 ->
  two_by_two sep (format_02d n ++ String sep (format_02d d)) = true.
Proof.
  intros Hn Hd.
  destruct (format_02d_two_chars n Hn) as (a & b & Ha & Hb & ->).
  destruct (format_02d_two_chars d Hd) as (c & e & Hc & He & ->).
  cbn [append two_by_two].
  rewrite !is_digit_char by assumption.
  rewrite Ascii.eqb_refl. reflexivity.
Qed.

Lemma two_by_two_length (sep : ascii) (s : string) :
  two_by_two sep s = true -> String.length s = 5%nat.
Proof.
  destruct s as [|a [|b [|c [|d [|e [|f s]]]]]]; cbn [two_by_two];
    try discriminate. reflexivity.
Qed.

End Shape.

(** C9, as stated, fails: a countdown of a hundred minutes has a minutes
    field of three digits, and so has any numerator from a hundred on.  A
    study duration of 100 minutes is accepted by [_read_settings] and puts
    such a text on the second line. *)
Lemma fmt_mm_ss_three_digit_minutes :
  fmt_mm_ss 6000 = "100:00" /\
  is_mm_ss (fmt_mm_ss 6000) = false /\
  fmt_progress 100 5 = "100/05" /\
  is_nn_dd (fmt_progress 100 5) = false /\
  lbl_bottom (exec [Press (settings_of 1 100 5 15) 0%Q] (init None))
    = "01/01    100:00".
Proof. repeat split; vm_compute; reflexivity. Qed.

(** C9, amended.  For every integer [n], with [c] the larger of [n] and
    zero, the countdown formatter returns the minutes [c / 60], a colon and
    the seconds [c mod 60]; both fields are decimal and read back as these
    numbers; the seconds field has exactly two digits and the minutes field
    at least two, exactly two precisely when [c] is below 6000, in which
    case the text has the shape MM:SS; a negative [n] gives 00:00.  The
    progress formatter returns numerator and denominator, each the larger
    of the argument and zero, each with at least two digits and exactly two
    precisely below a hundred, in which case the text has the shape
    NN/DD. *)
Theorem formatters_pad_to_two (n d : Z) :
  let c := Z.max 0 n in
  let n0 := Z.max 0 n in
  let d0 := Z.max 0 d in
  (fmt_mm_ss n = format_02d (c / 60) ++ ":" ++ format_02d (c mod 60) /\
   dec_value (format_02d (c / 60)) = Some (c / 60) /\
   dec_value (format_02d (c mod 60)) = Some (c mod 60) /\
   String.length (format_02d (c mod 60)) = 2%nat /\
   (2 <= String.length (format_02d (c / 60)))%nat /\
   (String.length (format_02d (c / 60)) = 2%nat <-> c < 6000) /\
   (is_mm_ss (fmt_mm_ss n) = true <-> c < 6000) /\
   (n < 0 -> fmt_mm_ss n = "00:00")) /\
  (fmt_progress n d = format_02d n0 ++ "/" ++ format_02d d0 /\
   dec_value (format_02d n0) = Some n0 /\
   dec_value (format_02d d0) = Some d0 /\
   (2 <= String.length (format_02d n0))%nat /\
   (2 <= String.length (format_02d d0))%nat /\
   (String.length (format_02d n0) = 2%nat <-> n0 < 100) /\
   (String.length (format_02d d0) = 2%nat <-> d0 < 100) /\
   (is_nn_dd (fmt_progress n d) = true <-> n0 < 100 /\ d0 < 100)).
Proof.
  intros c n0 d0.
  assert (Hc : 0 <= c) by (subst c; lia).
  assert (Hm : 0 <= c / 60) by (apply Z.div_pos; lia).
  assert (Hs : 0 <= c mod 60 < 60) by (apply Z.mod_pos_bound; lia).
  assert (Hn0 : 0 <= n0) by (subst n0; lia).
  assert (Hd0 : 0 <= d0) by (subst d0; lia).
  assert (Hq : c / 60 < 100 <-> c < 6000).
  { split; intros H.
    - destruct (Z.lt_ge_cases c 6000) as [Hlt | Hge]; [exact Hlt|].
      assert (100 <= c / 60) by (apply Z.div_le_lower_bound; lia). lia.
    - apply Z.div_lt_upper_bound; lia. }
  assert (Hf : fmt_mm_ss n = format_02d (c / 60) ++ ":" ++ format_02d (c mod 60)).
  { unfold fmt_mm_ss. subst c.
    destruct (Z.ltb_spec n 0).
    - rewrite Z.max_l by lia. reflexivity.
    - rewrite Z.max_r by lia. reflexivity. }
  assert (Hlen : forall x y, String.length (format_02d x ++ ":" ++ format_02d y)
                 = (String.length (format_02d x) + S (String.length (format_02d y)))%nat).
  { intros x y. rewrite string_length_app. reflexivity. }
  assert (Hlen' : forall x y, String.length (format_02d x ++ "/" ++ format_02d y)
                 = (String.length (format_02d x) + S (String.length (format_02d y)))%nat).
  { intros x y. rewrite string_length_app. reflexivity. }
  split.
  - split; [exact Hf|].
    split; [apply format_02d_value; exact Hm|].
    split; [apply format_02d_value; lia|].
    split; [apply format_02d_length_two; lia|].
    split; [apply format_02d_length; exact Hm|].
    split; [rewrite (format_02d_length_two (c / 60) Hm); exact Hq|].
    split.
    + rewrite Hf. unfold is_mm_ss. split.
      * intros H. apply two_by_two_length in H. rewrite Hlen in H.
        pose proof (format_02d_length (c mod 60) ltac:(lia)).
        pose proof (format_02d_length (c / 60) Hm).
        apply Hq. apply (format_02d_length_two (c / 60) Hm). lia.
      * intros H. apply (two_by_two_fields ":"); lia.
    + intros Hneg. rewrite Hf. subst c. rewrite Z.max_l by lia. reflexivity.
  - split; [reflexivity|].
    split; [apply format_02d_value; exact Hn0|].
    split; [apply format_02d_value; exact Hd0|].
    split; [apply format_02d_length; exact Hn0|].
    split; [apply format_02d_length; exact Hd0|].
    split; [apply format_02d_length_two; exact Hn0|].
    split; [apply format_02d_length_two; exact Hd0|].
    unfold is_nn_dd, fmt_progress. fold n0 d0. split.
    + intros H. apply two_by_two_length in H. rewrite Hlen' in H.
      pose proof (format_02d_length n0 Hn0).
      pose proof (format_02d_length d0 Hd0).
      split; [apply (format_02d_length_two n0 Hn0) |
              apply (format_02d_length_two d0 Hd0)]; lia.
    + intros [H1 H2]. apply (two_by_two_fields "/"); lia.
Qed.

(** * Further properties of the timer *)

(** ** Rounding *)

Section RoundingBounds.

Lemma py_round_cases (x : Q) :
  (inject_Z (Qfloor x) <= x)%Q /\ (x < inject_Z (Qfloor x) + 1)%Q /\
  ((x - inject_Z (Qfloor x) < 1 # 2)%Q /\ py_round x = Qfloor x \/
   ((1 # 2) < x - inject_Z (Qfloor x))%Q /\ py_round x = Qfloor x + 1 \/
   (x - inject_Z (Qfloor x) == 1 # 2)%Q /\
   py_round x = (if Z.even (Qfloor x) then Qfloor x else Qfloor x + 1)).
Proof.
  split; [apply Qfloor_le|].
  split.
  { pose proof (Qlt_floor x) as H. rewrite inject_Z_plus in H. exact H. }
  unfold py_round.
  destruct (Qcompare (x - inject_Z (Qfloor x)) (1 # 2)) eqn:E.
  - right; right. split; [apply Qeq_alt; exact E | reflexivity].
  - left. split; [apply Qlt_alt; exact E | reflexivity].
  - right; left. split; [apply Qgt_alt; exact E | reflexivity].
Qed.

(** The rounded value is within half a unit of the argument. *)
Lemma py_round_near (x : Q) :
  (x - (1 # 2) <= inject_Z (py_round x))%Q /\
  (inject_Z (py_round x) <= x + (1 # 2))%Q.
Proof.
  destruct (py_round_cases x) as (Hlo & Hhi & [[H ->] | [[H ->] | [H ->]]]).
  - split; lra.
  - rewrite inject_Z_plus. change (inject_Z 1) with 1%Q. split; lra.
  - destruct (Z.even (Qfloor x)).
    + split; lra.
    + rewrite inject_Z_plus. change (inject_Z 1) with 1%Q. split; lra.
Qed.

Lemma inject_Z_lt_succ (a b : Z) :
  (inject_Z a < inject_Z b + 1)%Q -> a <= b.
Proof.
  intros H. assert (Hlt : a < b + 1); [|lia].
  rewrite Zlt_Qlt, inject_Z_plus. exact H.
Qed.

(** Rounding is monotone. *)
Lemma py_round_mono (x y : Q) : (x <= y)%Q -> py_round x <= py_round y.
Proof.
  intros Hxy.
  pose proof (Qfloor_resp_le x y Hxy) as Hf.
  destruct (py_round_cases x) as (Hxl & Hxh & Hx).
  destruct (py_round_cases y) as (Hyl & Hyh & Hy).
  assert (Hrx : py_round x <= Qfloor x + 1).
  { destruct Hx as [[_ ->] | [[_ ->] | [_ ->]]]; try lia.
    destruct (Z.even (Qfloor x)); lia. }
  assert (Hry : Qfloor y <= py_round y).
  { destruct Hy as [[_ ->] | [[_ ->] | [_ ->]]]; try lia.
    destruct (Z.even (Qfloor y)); lia. }
  destruct (Z.eq_dec (Qfloor x) (Qfloor y)) as [Heq | Hne]; [|lia].
  rewrite Heq in *.
  destruct Hx as [[Hx ->] | [[Hx ->] | [Hx ->]]];
    destruct Hy as [[Hy ->] | [[Hy ->] | [Hy ->]]];
    try destruct (Z.even (Qfloor y)); try lia; exfalso; lra.
Qed.

(** The rounded value is at most zero exactly up to one half. *)
Lemma py_round_nonpos (x : Q) : py_round x <= 0 <-> (x <= 1 # 2)%Q.
Proof.
  destruct (py_round_cases x) as (Hlo & Hhi & Hc). split.
  - intros Hr.
    destruct Hc as [[H E] | [[H E] | [H E]]]; rewrite E in Hr.
    + assert (Hq : (inject_Z (Qfloor x) <= inject_Z 0)%Q)
        by (rewrite <- Zle_Qle; exact Hr).
      change (inject_Z 0) with 0%Q in Hq. lra.
    + assert (Hq : (inject_Z (Qfloor x + 1) <= inject_Z 0)%Q)
        by (rewrite <- Zle_Qle; exact Hr).
      rewrite inject_Z_plus in Hq.
      change (inject_Z 0) with 0%Q in Hq. change (inject_Z 1) with 1%Q in Hq.
      lra.
    + assert (Hf : Qfloor x <= 0) by (destruct (Z.even (Qfloor x)); lia).
      assert (Hq : (inject_Z (Qfloor x) <= inject_Z 0)%Q)
        by (rewrite <- Zle_Qle; exact Hf).
      change (inject_Z 0) with 0%Q in Hq. lra.
  - intros Hx.
    assert (Hf : Qfloor x <= 0).
    { apply inject_Z_lt_succ. change (inject_Z 0) with 0%Q. lra. }
    destruct (Z.eq_dec (Qfloor x) 0) as [H0 | Hn0].
    + rewrite H0 in *. change (inject_Z 0) with 0%Q in *.
      destruct Hc as [[H ->] | [[H ->] | [H ->]]]; try lia.
      * exfalso. lra.
      * reflexivity.
    + destruct Hc as [[H ->] | [[H ->] | [H ->]]]; try lia.
      destruct (Z.even (Qfloor x)); lia.
Qed.

End RoundingBounds.

(** ** The configuration during a run *)

(** X3. While a run is in progress (mode study or break, in a reachable
    state) no heartbeat, press of the button or press of Reset changes the
    stored configuration or the sound file, and a press of Reset neither
    reads the entry fields nor shows a dialog. *)
Theorem config_fixed_during_run (op : Op) (a : App) :
  reachable a ->
  mode a <> idle ->
  config (snd (step op a)) = config a /\
  audio_path (snd (step op a)) = audio_path a /\
  (forall ui, fst (on_reset ui a) = []).
Proof.
  intros Hr Hm. pose proof (reachable_inv a Hr) as HI.
  pose proof (inv_running a HI Hm) as Hlt. pose proof (inv_done a HI) as Hd.
  destruct a as [ts dn md pa pl sbp pm sm lm pe au ls lb bs]. core.
  assert (Hts : (ts <=? 0) = false) by (apply Z.leb_gt; lia).
  split; [|split].
  - destruct op as [now | ui now | ui]; core.
    + set (L := left_at now _).
      destruct md; [congruence | |]; destruct pa; fields; try reflexivity;
        destruct (L <=? 0); fields; try reflexivity.
      destruct (ts <=? dn + 1); reflexivity.
    + destruct md; [congruence | |]; destruct pa; reflexivity.
    + rewrite Hts. reflexivity.
  - destruct op as [now | ui now | ui]; core.
    + set (L := left_at now _).
      destruct md; [congruence | |]; destruct pa; fields; try reflexivity;
        destruct (L <=? 0); fields; try reflexivity.
      destruct (ts <=? dn + 1); reflexivity.
    + destruct md; [congruence | |]; destruct pa; reflexivity.
    + rewrite Hts. reflexivity.
  - intros ui. rewrite Hts. reflexivity.
Qed.

Lemma config_fixed_during_run_witness :
  config (snd (step (Reset zero_sessions) started)) = config started /\
  audio_path (snd (step (Reset zero_sessions) started)) = audio_path started /\
  (forall ui, fst (on_reset ui started) = []).
Proof.
  apply (config_fixed_during_run (Reset zero_sessions) started).
  - apply reachable_exec. apply reach_init.
  - vm_compute. discriminate.
Defined.

(** ** Reset *)

(** X4. A press of Reset, in any state, leaves the controller idle, not
    paused, with no completed session, READY on the status line, Start on
    the button and zero of the session count with 00:00 on the second line;
    deadline and frozen remaining seconds are left as they are.  When a
    session count is stored the configuration is kept and nothing is
    reported.  A second press with the same entry fields changes nothing
    more. *)
Theorem reset_returns_to_idle (ui : Settings) (a : App) :
  let a' := snd (on_reset ui a) in
  mode a' = idle /\ paused a' = false /\ done_pomodoros a' = 0 /\
  lbl_status a' = "READY" /\ btn_start a' = "Start" /\
  lbl_bottom a' = fmt_progress 0 (total_sessions a') ++ "    00:00" /\
  phase_end_monot a' = phase_end_monot a /\
  paused_left a' = paused_left a /\
  (0 < total_sessions a -> config a' = config a /\ fst (on_reset ui a) = []) /\
  snd (on_reset ui a') = a'.
Proof.
  destruct a as [ts dn md pa pl sbp pm sm lm pe au ls lb bs]. core.
  destruct (Z.leb_spec ts 0) as [Hle | Hgt]; fields.
  - destruct (_read_settings ui) as [evs [[[[s p] sb] l]|]] eqn:E; fields.
    + apply read_settings_some in E. destruct E as (_ & (Hs & _) & _).
      destruct (Z.leb_spec s 0); [lia|]. fields.
      repeat split; exfalso; lia.
    + destruct (Z.leb_spec ts 0); [|lia]. fields.
      repeat split; exfalso; lia.
  - destruct (Z.leb_spec ts 0); [lia|]. fields. repeat split.
Qed.

(** ** A run that is left alone *)

Section Undisturbed.







End Undisturbed.



(** ** Rounding of the remaining time *)

(** X6. The heartbeat treats a phase as elapsed exactly when the phase is
    running (mode study or break, not paused) and at most half a second is
    left to its deadline: the remaining time is rounded to whole seconds
    before it is compared with zero, and a half rounds down to zero. *)
Theorem elapsed_within_half_second (now : Q) (a : App) :
  phase_elapsed now a = true <->
  mode a <> idle /\ paused a = false /\
  (phase_end_monot a - now <= 1 # 2)%Q.
Proof.
  unfold phase_elapsed, left_at.
  pose proof (py_round_nonpos (phase_end_monot a - now)) as Hr.
  destruct (mode a), (paused a); cbn [Mode_eqb negb andb];
    (split; [intros H | intros (Hm & Hp & Hz)]);
    try discriminate; try congruence.
  - apply Z.leb_le in H. repeat split; [discriminate | apply Hr; exact H].
  - apply Z.leb_le. apply Hr. exact Hz.
  - apply Z.leb_le in H. repeat split; [discriminate | apply Hr; exact H].
  - apply Z.leb_le. apply Hr. exact Hz.
Qed.

Example elapsed_half_second_early :
  phase_elapsed (1499 # 1) started = false /\
  phase_elapsed (2999 # 2) started = true /\
  phase_elapsed (1500 # 1) started = true.
Proof. repeat split; vm_compute; reflexivity. Qed.

(** * The other module level functions *)

(** ** The clock text *)

Lemma format_02d_digits (n : Z) : 0 <= n < 100 -> format_02d n = two_digits n.
Proof.
  intros Hn. unfold two_digits. destruct (Z.lt_ge_cases n 10).
  - rewrite format_02d_one_digit by lia.
    rewrite Z.div_small, Z.mod_small by lia. reflexivity.
  - apply format_02d_two_digits. lia.
Qed.

(** X10. For every date and time the clock text has seventeen characters:
    year without century, month and day separated by slashes, a space, and
    hour, minute and second separated by colons, each as two decimal
    digits; so dates a whole number of centuries apart give the same
    text. *)
Theorem fmt_clock_shape (dt : datetime) :
  valid_datetime dt ->
  fmt_clock dt =
    two_digits (year dt mod 100) ++ "/" ++ two_digits (month dt) ++ "/" ++
    two_digits (day dt) ++ " " ++ two_digits (hour dt) ++ ":" ++
    two_digits (minute dt) ++ ":" ++ two_digits (second dt) /\
  String.length (fmt_clock dt) = 17%nat /\
  (forall c, 1 <= year dt + 100 * c <= 9999 ->
     fmt_clock (mkDatetime (year dt + 100 * c) (month dt) (day dt)
                  (hour dt) (minute dt) (second dt)) = fmt_clock dt).
Proof.
  intros (Hy & Hmo & Hd & Hh & Hmi & Hs).
  assert (Hy' : 0 <= year dt mod 100 < 100) by (apply Z.mod_pos_bound; lia).
  assert (E : fmt_clock dt =
    two_digits (year dt mod 100) ++ "/" ++ two_digits (month dt) ++ "/" ++
    two_digits (day dt) ++ " " ++ two_digits (hour dt) ++ ":" ++
    two_digits (minute dt) ++ ":" ++ two_digits (second dt)).
  { unfold fmt_clock. rewrite !format_02d_digits by lia. reflexivity. }
  split; [exact E|]. split.
  - rewrite E. reflexivity.
  - intros c _. unfold fmt_clock. cbn [year month day hour minute second].
    replace ((year dt + 100 * c) mod 100) with (year dt mod 100); [reflexivity|].
    rewrite Z.mul_comm, Z.mod_add by lia. reflexivity.
Qed.

Lemma fmt_clock_shape_witness :
  String.length (fmt_clock (mkDatetime 2025 3 9 7 5 0)) = 17%nat.
Proof.
  apply (fmt_clock_shape (mkDatetime 2025 3 9 7 5 0)).
  unfold valid_datetime. cbn. lia.
Defined.

Example fmt_clock_2025 :
  fmt_clock (mkDatetime 2025 3 9 7 5 0) = "25/03/09 07:05:00" /\
  fmt_clock (mkDatetime 1925 3 9 7 5 0) = "25/03/09 07:05:00".
Proof. split; vm_compute; reflexivity. Qed.

(** ** The sound file *)

Lemma first_listed_none (listing : string -> list string) (pats : list string) :
  first_listed listing pats = None <-> forall pat, In pat pats -> listing pat = [].
Proof.
  induction pats as [|pat pats IH]; cbn [first_listed].
  - split; [intros _ pat [] | reflexivity].
  - destruct (listing pat) as [|f l] eqn:E.
    + rewrite IH. split.
      * intros H q [<- | Hq]; [exact E | apply H; exact Hq].
      * intros H q Hq. apply H. right. exact Hq.
    + split; [discriminate|]. intros H.
      specialize (H pat (or_introl eq_refl)). congruence.
Qed.

Lemma first_listed_some (listing : string -> list string) (pats : list string)
  (f : string) :
  first_listed listing pats = Some f ->
  exists before pat after,
    pats = (before ++ pat :: after)%list /\
    (forall q, In q before -> listing q = []) /\
    hd_error (listing pat) = Some f.
Proof.
  induction pats as [|pat pats IH]; cbn [first_listed]; [discriminate|].
  destruct (listing pat) as [|f' l] eqn:E.
  - intros H. destruct (IH H) as (b & q & r & -> & Hb & Hq).
    exists (pat :: b), q, r. split; [reflexivity|]. split; [|exact Hq].
    intros q' [<- | Hq']; [exact E | apply Hb; exact Hq'].
  - intros H. inversion H; subst. exists [], pat, pats.
    split; [reflexivity|]. split; [intros q []|]. rewrite E. reflexivity.
Qed.

(** X11. [find_audio_file] returns nothing exactly when none of the four
    patterns lists a file; otherwise it returns the first file listed for
    the first pattern, in the order [*.wav], [*.mp3], [*.WAV], [*.MP3],
    that lists any, so a wave file wins over an mp3 file. *)
Theorem find_audio_file_first (listing : string -> list string) :
  (find_audio_file listing = None <->
   forall pat, In pat audio_patterns -> listing pat = []) /\
  (forall f, find_audio_file listing = Some f ->
     exists before pat after,
       audio_patterns = (before ++ pat :: after)%list /\
       (forall q, In q before -> listing q = []) /\
       hd_error (listing pat) = Some f) /\
  (forall f l, listing "*.wav" = f :: l -> find_audio_file listing = Some f).
Proof.
  split; [apply first_listed_none|]. split; [apply first_listed_some|].
  intros f l H. unfold find_audio_file, audio_patterns. cbn [first_listed].
  rewrite H. reflexivity.
Qed.

Example find_audio_file_prefers_wav :
  find_audio_file
    (fun pat => if String.eqb pat "*.mp3" then ["a.mp3"]
                else if String.eqb pat "*.wav" then ["z.wav"; "b.wav"]
                else []) = Some "z.wav" /\
  find_audio_file (fun _ => []) = None.
Proof. split; reflexivity. Qed.

(** ** The font file *)

Section Sorting.

Lemma ascii_compare_trans (a b c : ascii) (r : comparison) :
  Ascii.compare a b = r -> Ascii.compare b c = r -> Ascii.compare a c = r.
Proof.
  unfold Ascii.compare. intros H1 H2. destruct r.
  - apply N.compare_eq_iff in H1, H2. apply N.compare_eq_iff. congruence.
  - exact (N.lt_trans _ _ _ H1 H2).
  - apply N.compare_gt_iff. apply N.compare_gt_iff in H1.
    apply N.compare_gt_iff in H2. exact (N.lt_trans _ _ _ H2 H1).
Qed.

Lemma ascii_compare_eq (a b : ascii) : Ascii.compare a b = Eq -> a = b.
Proof.
  unfold Ascii.compare. intros H. apply N.compare_eq_iff in H.
  rewrite <- (ascii_N_embedding a), <- (ascii_N_embedding b). now rewrite H.
Qed.

Lemma string_leb_trans (s1 : string) :
  forall s2 s3, String.leb s1 s2 = true -> String.leb s2 s3 = true ->
                String.leb s1 s3 = true.
Proof.
  unfold String.leb.
  induction s1 as [|a s1 IH]; intros [|b s2] [|c s3]; cbn [String.compare];
    try reflexivity; try discriminate.
  destruct (Ascii.compare a b) eqn:Eab; try discriminate;
    destruct (Ascii.compare b c) eqn:Ebc; try discriminate; intros H1 H2.
  - rewrite (ascii_compare_trans a b c Eq Eab Ebc). apply (IH s2 s3 H1 H2).
  - apply ascii_compare_eq in Eab. subst b. rewrite Ebc. reflexivity.
  - apply ascii_compare_eq in Ebc. subst c. rewrite Eab. reflexivity.
  - rewrite (ascii_compare_trans a b c Lt Eab Ebc). reflexivity.
Qed.

Lemma string_leb_refl (s : string) : String.leb s s = true.
Proof. destruct (String.leb_total s s); assumption. Qed.

Lemma insert_sorted_head (x : string) (l : list string) :
  (forall f r, l = f :: r -> forall g, In g l -> String.leb f g = true) ->
  exists f r,
    insert_sorted x l = f :: r /\ In f (x :: l) /\
    (forall g, In g (x :: l) -> String.leb f g = true) /\
    (forall g, In g (f :: r) <-> In g (x :: l)).
Proof.
  intros Hl. destruct l as [|y l']; cbn [insert_sorted].
  - exists x, []. split; [reflexivity|]. split; [left; reflexivity|].
    split; [|tauto]. intros g [<- | []]. apply string_leb_refl.
  - destruct (String.leb x y) eqn:E.
    + exists x, (y :: l'). split; [reflexivity|]. split; [left; reflexivity|].
      split; [|tauto]. intros g [<- | Hg]; [apply string_leb_refl|].
      apply (string_leb_trans x y g E). apply (Hl y l' eq_refl g Hg).
    + exists y, (insert_sorted x l'). split; [reflexivity|].
      split; [right; left; reflexivity|]. split.
      * intros g [<- | Hg].
        -- destruct (String.leb_total x y) as [H | H]; [congruence | exact H].
        -- apply (Hl y l' eq_refl g Hg).
      * assert (Hin : forall g, In g (insert_sorted x l') <-> In g (x :: l')).
        { clear. induction l' as [|z l IH]; cbn [insert_sorted]; intros g.
          - tauto.
          - destruct (String.leb x z); [tauto|].
            cbn [In]. rewrite IH. cbn [In]. tauto. }
        intros g. cbn [In]. rewrite Hin. cbn [In]. tauto.
Qed.

(** The head of a sorted list is an element below all the others. *)
Lemma py_sorted_head (l : list string) :
  (l = [] -> py_sorted l = []) /\
  (forall f r, py_sorted l = f :: r ->
     In f l /\ (forall g, In g l -> String.leb f g = true)) /\
  (forall g, In g (py_sorted l) <-> In g l).
Proof.
  induction l as [|x l IH].
  - split; [reflexivity|]. split; [discriminate | tauto].
  - split; [discriminate|]. cbn [py_sorted].
    destruct IH as (_ & IHh & IHin).
    destruct (insert_sorted_head x (py_sorted l)) as (f & r & E & Hf & Hmin & Hin).
    { intros f r E g Hg. destruct (IHh f r E) as [_ Hm].
      apply Hm. apply IHin. exact Hg. }
    rewrite E. split.
    + intros f' r' H. inversion H; subst f' r'. split.
      * destruct Hf as [<- | Hf]; [left; reflexivity | right; apply IHin; exact Hf].
      * intros g [<- | Hg]; apply Hmin; [left; reflexivity|].
        right. apply IHin. exact Hg.
    + intros g. rewrite Hin. cbn [In]. rewrite IHin. tauto.
Qed.

Lemma new_families_in (after before : list string) (f : string) :
  In f (new_families after before) <-> In f after /\ ~ In f before.
Proof.
  unfold new_families. rewrite nodup_In, filter_In. split.
  - intros [Ha Hb]. split; [exact Ha|]. intros Hin.
    apply negb_true_iff in Hb.
    assert (existsb (String.eqb f) before = true); [|congruence].
    apply existsb_exists. exists f. split; [exact Hin | apply String.eqb_refl].
  - intros [Ha Hb]. split; [exact Ha|]. apply negb_true_iff.
    destruct (existsb (String.eqb f) before) eqn:E; [|reflexivity].
    apply existsb_exists in E. destruct E as (g & Hg & Heq).
    apply String.eqb_eq in Heq. subst g. contradiction.
Qed.

End Sorting.

(** X12. [load_first_ttf_and_get_family] reports a family only on Windows,
    only when a font file exists and adding the alphabetically first one
    does not raise; the family it reports was not installed before, is
    installed after, and is the alphabetically first such family.  In
    every other case it returns [False, None], and the family the program
    uses is then Segoe UI; the family used is never the empty string. *)
Theorem load_first_ttf_result
  (ttf_listing : list string) (os_nt : bool) (before : list string)
  (add_font : string -> option (list string)) :
  let r := load_first_ttf_and_get_family ttf_listing os_nt before add_font in
  (forall f, snd r = Some f ->
     fst r = true /\ os_nt = true /\
     exists ttf after,
       In ttf ttf_listing /\
       (forall g, In g ttf_listing -> String.leb ttf g = true) /\
       add_font ttf = Some after /\
       In f after /\ ~ In f before /\
       (forall g, In g after -> ~ In g before -> String.leb f g = true)) /\
  (snd r = None -> fst r = false /\ base_family_of (snd r) = "Segoe UI") /\
  (os_nt = false \/ ttf_listing = [] -> r = (false, None)) /\
  base_family_of (snd r) <> "".
Proof.
  intros r. subst r. unfold load_first_ttf_and_get_family.
  destruct (py_sorted_head ttf_listing) as (Hnil & Hhd & _).
  destruct (py_sorted ttf_listing) as [|ttf rest] eqn:Es.
  - cbn [fst snd base_family_of]. repeat split; discriminate.
  - destruct (Hhd ttf rest eq_refl) as [Hin Hmin].
    assert (Hne : ttf_listing <> []) by (intros ->; discriminate (Hnil eq_refl)).
    destruct os_nt.
    + destruct (add_font ttf) as [after|] eqn:Ea.
      * destruct (py_sorted_head (new_families after before)) as (_ & Hh2 & _).
        destruct (py_sorted (new_families after before)) as [|f rest2] eqn:En.
        -- cbn [fst snd base_family_of].
           repeat split; discriminate.
        -- destruct (Hh2 f rest2 eq_refl) as [Hf Hfmin].
           apply new_families_in in Hf. destruct Hf as [Hfa Hfb].
           cbn [fst snd]. split; [|split; [discriminate|split]].
           ++ intros f' H. inversion H; subst f'.
              split; [reflexivity|]. split; [reflexivity|].
              exists ttf, after. repeat split; try assumption.
              intros g Hga Hgb. apply Hfmin. apply new_families_in. tauto.
           ++ intros [H | H]; congruence.
           ++ unfold base_family_of. destruct (String.eqb f "") eqn:E.
              ** discriminate.
              ** intros ->. rewrite String.eqb_refl in E. discriminate.
      * cbn [fst snd base_family_of].
        repeat split; discriminate.
    + cbn [fst snd base_family_of]. repeat split; discriminate.
Qed.

Example load_first_ttf_example :
  load_first_ttf_and_get_family ["b.ttf"; "a.ttf"] true ["Arial"; "Segoe UI"]
    (fun ttf => if String.eqb ttf "a.ttf"
                then Some ["Segoe UI"; "Zeta"; "Arial"; "Digital"; "Zeta"]
                else None)
  = (true, Some "Digital") /\
  load_first_ttf_and_get_family ["b.ttf"; "a.ttf"] false ["Arial"]
    (fun _ => Some ["Arial"; "Digital"]) = (false, None).
Proof. split; vm_compute; reflexivity. Qed.

(** * The look of the window *)

Module GuiFacts.
Import Gui.

(** Evaluation of the handlers on a window given by its fields. *)
Ltac look :=
  cbv beta iota zeta delta
    [fire call binding1 binding_motion init_look
     _toggle_floating_evt apply_floating apply_show_time _update_clock
     apply_color on_color_change toggle_settings _toggle_settings_key
     _on_status_click on_size_change apply_text_style _font_big _font_mid
     _styles _drag_start _drag_move bind_drag unbind_drag on_tl
     floating_nt line_bg drag_binding float_outline_px
     with_float_on with_show_time with_setting_open with_bold_on
     with_italic_on with_underline_on with_color_var with_size_var
     with_current_size with_current_fg with_lbl_status with_lbl_bottom
     with_lbl_now with_settings_packed with_wrap with_display with_root
     with_drag_origin
     float_on show_time setting_open bold_on italic_on underline_on
     color_var size_var current_size current_fg lbl_status lbl_bottom
     lbl_now settings_packed wrap display root _drag_origin
     with_tl with_manager with_pady with_button1 with_b1_motion
     tl manager pady button1 b1_motion
     with_frame_bg with_fill with_expand with_frame_button1
     with_frame_b1_motion frame_bg fill expand frame_button1 frame_b1_motion
     with_top_bg with_topmost with_overrideredirect with_alpha
     with_transparentcolor with_geometry
     top_bg topmost overrideredirect alpha transparentcolor geometry
     os_nt transparent_ok linespace _root_bg0 wrap_default_bg
     display_default_bg base_family
     TextLine_init configure config_text config_font config_fg config_bg
     set_outline _redraw drawn
     kw_text kw_font kw_fg kw_bg
     with_text with_font with_fg with_bg with_outline_thick
     with_outline_color with_canvas_bg with_canvas_height with_canvas_items
     _text _font _fg _bg _outline_thick _outline_color canvas_bg
     canvas_height canvas_items
     Z.max Z.ltb Z.compare Z.opp Z.add
     negb andb orb fst snd] in *.

(** The same on the conclusion alone. *)
Ltac look_goal :=
  cbv beta iota zeta delta
    [fire call binding1 binding_motion init_look
     _toggle_floating_evt apply_floating apply_show_time _update_clock
     apply_color on_color_change toggle_settings _toggle_settings_key
     _on_status_click on_size_change apply_text_style _font_big _font_mid
     _styles _drag_start _drag_move bind_drag unbind_drag on_tl
     floating_nt line_bg drag_binding float_outline_px
     with_float_on with_show_time with_setting_open with_bold_on
     with_italic_on with_underline_on with_color_var with_size_var
     with_current_size with_current_fg with_lbl_status with_lbl_bottom
     with_lbl_now with_settings_packed with_wrap with_display with_root
     with_drag_origin
     float_on show_time setting_open bold_on italic_on underline_on
     color_var size_var current_size current_fg lbl_status lbl_bottom
     lbl_now settings_packed wrap display root _drag_origin
     with_tl with_manager with_pady with_button1 with_b1_motion
     tl manager pady button1 b1_motion
     with_frame_bg with_fill with_expand with_frame_button1
     with_frame_b1_motion frame_bg fill expand frame_button1 frame_b1_motion
     with_top_bg with_topmost with_overrideredirect with_alpha
     with_transparentcolor with_geometry
     top_bg topmost overrideredirect alpha transparentcolor geometry
     os_nt transparent_ok linespace _root_bg0 wrap_default_bg
     display_default_bg base_family
     TextLine_init configure config_text config_font config_fg config_bg
     set_outline _redraw drawn
     kw_text kw_font kw_fg kw_bg
     with_text with_font with_fg with_bg with_outline_thick
     with_outline_color with_canvas_bg with_canvas_height with_canvas_items
     _text _font _fg _bg _outline_thick _outline_color canvas_bg
     canvas_height canvas_items
     Z.max Z.ltb Z.compare Z.opp Z.add
     negb andb orb fst snd].

(** Case analysis on what a handler tests. *)
Ltac cases :=
  repeat match goal with
    | H : Some _ = Some _ |- _ => inversion H; subst; clear H
    | H : None = Some _ |- _ => discriminate H
    | H : context [match size_presets ?s with _ => _ end] |- _ =>
        destruct (size_presets s) eqn:?
    | H : context [match ?x with Some _ => _ | None => _ end] |- _ =>
        is_var x; destruct x
    | H : context [match ?x with on_status_click_h => _ | _ => _ end] |- _ =>
        is_var x; destruct x
    | H : context [let (_, _) := ?x in _] |- _ => is_var x; destruct x
    end.

(** A window and an environment given by their fields; the flags that the
    handlers of an event test are split first, so that evaluation never
    meets an undecided test. *)
Ltac open_gui e g ev :=
  destruct g as
    [fo st so bo io uo cv sv cs cf
     [[txs fts fgs bgs ots ocs cbs chs cis] mgs pys b1s bms]
     [[txb ftb fgb bgb otb ocb cbb chb cib] mgb pyb b1b bmb]
     [[txn ftn fgn bgn otn ocn cbn chn cin] mgn pyn b1n bmn]
     sp [wbg wfi wex wb1 wbm] [dbg dfi dex db1 dbm]
     [rbg rtm ror ral rtc rge] dor];
  destruct e as [nt ok ls rb0 wb0 db0 fam];
  destruct ev as
    [ | | | | | | | |
    | name | name | w px py wx wy | w px py | now | text | text];
  [ destruct so, sp
  | destruct fo, sp, nt, ok
  | destruct so, sp
  | destruct fo, sp, nt, ok
  | destruct fo, sp, nt, ok
  | destruct st, mgn, fo, nt
  | idtac | idtac | idtac
  | destruct fo
  | destruct mgn
  | destruct w, so, sp, fo
  | destruct w, so, sp, fo
  | destruct st
  | idtac | idtac ].

Ltac open_state e g :=
  destruct g as
    [fo st so bo io uo cv sv cs cf
     [[txs fts fgs bgs ots ocs cbs chs cis] mgs pys b1s bms]
     [[txb ftb fgb bgb otb ocb cbb chb cib] mgb pyb b1b bmb]
     [[txn ftn fgn bgn otn ocn cbn chn cin] mgn pyn b1n bmn]
     sp [wbg wfi wex wb1 wbm] [dbg dfi dex db1 dbm]
     [rbg rtm ror ral rtc rge] dor];
  destruct e as [nt ok ls rb0 wb0 db0 fam].

Ltac close_look :=
  repeat match goal with
    | |- LookInv _ _ => constructor
    | |- LineInv _ _ _ => constructor
    end;
  look_goal; intros;
  try reflexivity; try assumption; try congruence; try discriminate;
  try (eexists; repeat split; look_goal; intros;
       try reflexivity; try eassumption; try congruence);
  auto.

(** ** The invariant *)

Lemma init_look_inv (e : Env) (dt0 dt1 : datetime) :
  LookInv e (init_look e dt0 dt1).
Proof.
  destruct e as [nt ok ls rb0 wb0 db0 fam].
  constructor; try constructor; look; intros;
    try reflexivity; try discriminate.
  exists (mkPreset 57 36 (6, 2) (0, 6) (0, 6)). repeat split.
Qed.

Lemma fire_look_inv (e : Env) (ev : Ev) (g g' : Gui) :
  LookInv e g -> fire e ev g = Some g' -> LookInv e g'.
Proof.
  intros [I1 I2 I3 I4 I5 I6 I7 I8 I9 I10 I11 I12 I13 I14 I15 I16 I17 I18 I19
          I20 I21 [S1 S2 S3 S4 S5 S6 S7] [B1 B2 B3 B4 B5 B6 B7]
          [N1 N2 N3 N4 N5 N6 N7] I22 (p & P1 & P2 & P3 & P4 & P5 & P6 & P7)
          I23 I24 I25] H.
  open_gui e g ev; look; subst; cases; close_look.
Qed.

Lemma reachable_look_inv (e : Env) (g : Gui) : reachable_look e g -> LookInv e g.
Proof.
  induction 1 as [dt0 dt1 | ev g g' _ IH H].
  - apply init_look_inv.
  - exact (fire_look_inv e ev g g' IH H).
Qed.

Lemma demo_look_reachable : reachable_look demo_env demo_look.
Proof. apply look_init. Defined.

(** ** The settings panel *)

(** X13. In every window the program can show, the flag [setting_open]
    says whether the settings panel is packed.  [toggle_settings] inverts
    both and two calls in a row leave the window as it was.  Entering
    floating mode closes the panel; leaving floating mode leaves the panel
    as it is and does not open it again. *)
Theorem settings_panel_follows_flag (e : Env) (g : Gui) :
  reachable_look e g ->
  setting_open g = settings_packed g /\
  setting_open (toggle_settings g) = negb (setting_open g) /\
  settings_packed (toggle_settings g) = negb (settings_packed g) /\
  toggle_settings (toggle_settings g) = g /\
  setting_open (_toggle_floating_evt e g) =
    (if float_on g then setting_open g else false) /\
  settings_packed (_toggle_floating_evt e g) =
    (if float_on g then settings_packed g else false).
Proof.
  intros Hr. pose proof (look_settings e g (reachable_look_inv e g Hr)) as Hs.
  open_state e g. cbn [setting_open settings_packed] in Hs. subst sp.
  destruct so, fo, nt, ok; look; repeat split.
Qed.

Lemma settings_panel_follows_flag_witness :
  setting_open demo_look = settings_packed demo_look /\
  setting_open (toggle_settings demo_look) = negb (setting_open demo_look) /\
  settings_packed (toggle_settings demo_look)
    = negb (settings_packed demo_look) /\
  toggle_settings (toggle_settings demo_look) = demo_look /\
  setting_open (_toggle_floating_evt demo_env demo_look) =
    (if float_on demo_look then setting_open demo_look else false) /\
  settings_packed (_toggle_floating_evt demo_env demo_look) =
    (if float_on demo_look then settings_packed demo_look else false).
Proof.
  exact (settings_panel_follows_flag demo_env demo_look demo_look_reachable).
Defined.

(** ** Floating mode *)

(** X14. In every window the program can show, the window attributes
    follow the floating flag: it is topmost and without decoration exactly
    in floating mode; on Windows the root window, the two frames and the
    three lines have the chroma colour as background in floating mode and
    their first backgrounds otherwise, the frames fill both directions in
    floating mode and the width otherwise, and the transparent colour is
    set exactly in floating mode (when the window manager takes it);
    elsewhere the window is 85 percent opaque in floating mode and opaque
    otherwise.  Leaving floating mode on Windows gives the frames their
    fill "x" back but leaves their [expand] option on. *)
Theorem look_follows_floating (e : Env) (g : Gui) :
  reachable_look e g ->
  topmost (root g) = float_on g /\
  overrideredirect (root g) = float_on g /\
  top_bg (root g) = (if floating_nt e g then chroma else _root_bg0 e) /\
  frame_bg (wrap g) = (if floating_nt e g then chroma else wrap_default_bg e) /\
  frame_bg (display g) = line_bg e g /\
  _bg (tl (lbl_status g)) = line_bg e g /\
  _bg (tl (lbl_bottom g)) = line_bg e g /\
  _bg (tl (lbl_now g)) = line_bg e g /\
  fill (wrap g) = (if floating_nt e g then "both" else "x") /\
  fill (display g) = (if floating_nt e g then "both" else "x") /\
  alpha (root g) = (if float_on g && negb (os_nt e) then 17 # 20 else 1)%Q /\
  transparentcolor (root g) =
    (if floating_nt e g && transparent_ok e then chroma else "") /\
  (floating_nt e g = true ->
   expand (wrap g) = true /\ expand (display g) = true /\
   expand (wrap (_toggle_floating_evt e g)) = true /\
   expand (display (_toggle_floating_evt e g)) = true /\
   fill (wrap (_toggle_floating_evt e g)) = "x" /\
   fill (display (_toggle_floating_evt e g)) = "x").
Proof.
  intros Hr. pose proof (reachable_look_inv e g Hr) as HI.
  split; [exact (look_topmost e g HI)|].
  split; [exact (look_override e g HI)|].
  split; [exact (look_top_bg e g HI)|].
  split; [exact (look_wrap_bg e g HI)|].
  split; [exact (look_display_bg e g HI)|].
  split; [exact (line_bg_ok e g _ (look_status e g HI))|].
  split; [exact (line_bg_ok e g _ (look_bottom e g HI))|].
  split; [exact (line_bg_ok e g _ (look_now e g HI))|].
  split; [exact (look_wrap_fill e g HI)|].
  split; [exact (look_display_fill e g HI)|].
  split; [exact (look_alpha e g HI)|].
  split; [exact (look_transparent e g HI)|].
  intros Hf. split; [exact (look_wrap_expand e g HI Hf)|].
  split; [exact (look_display_expand e g HI Hf)|].
  pose proof (look_wrap_expand e g HI Hf) as Hw.
  pose proof (look_display_expand e g HI Hf) as Hd.
  clear - Hf Hw Hd. open_state e g.
  unfold floating_nt in Hf. cbn [float_on os_nt] in Hf.
  cbn [expand wrap display] in Hw, Hd. subst wex dex.
  destruct fo; [|discriminate]. destruct nt; [|discriminate].
  destruct sp, ok; look; repeat split.
Qed.

Lemma look_follows_floating_witness :
  topmost (root demo_look) = float_on demo_look /\
  overrideredirect (root demo_look) = float_on demo_look.
Proof.
  pose proof (look_follows_floating demo_env demo_look demo_look_reachable)
    as (H1 & H2 & _).
  exact (conj H1 H2).
Defined.

(** X15. In every window the program can show, the display frame, the
    second line and the date line carry the drag handlers exactly in
    floating mode, and the status line always carries the click handler
    and never a motion handler: outside floating mode a press or a motion
    on the frame or on the two lower lines changes nothing, and a press on
    the status line toggles the settings panel in both modes. *)
Theorem drag_bound_only_when_floating (e : Env) (g : Gui) :
  reachable_look e g ->
  (forall w, w <> on_status ->
     binding1 w g = (if float_on g then Some drag_start_h else None) /\
     binding_motion w g = (if float_on g then Some drag_move_h else None)) /\
  binding1 on_status g = Some on_status_click_h /\
  binding_motion on_status g = None /\
  (float_on g = false ->
   forall w x y wx wy,
     w <> on_status ->
     fire e (Press1 w x y wx wy) g = Some g /\
     fire e (Motion1 w x y) g = Some g) /\
  (forall x y wx wy,
     fire e (Press1 on_status x y wx wy) g = Some (toggle_settings g) /\
     fire e StatusClick g = Some (toggle_settings g) /\
     fire e (Motion1 on_status x y) g = Some g).
Proof.
  intros Hr. pose proof (reachable_look_inv e g Hr) as HI.
  pose proof (look_display_b1 e g HI) as I4.
  pose proof (look_display_bm e g HI) as I5.
  pose proof (look_bottom_b1 e g HI) as I6.
  pose proof (look_bottom_bm e g HI) as I7.
  pose proof (look_now_b1 e g HI) as I8.
  pose proof (look_now_bm e g HI) as I9.
  pose proof (look_status_b1 e g HI) as I10.
  pose proof (look_status_bm e g HI) as I11.
  unfold drag_binding in *.
  assert (Hb : forall w, w <> on_status ->
     binding1 w g = (if float_on g then Some drag_start_h else None) /\
     binding_motion w g = (if float_on g then Some drag_move_h else None)).
  { intros w Hw. destruct w; [congruence | | |];
      cbn [binding1 binding_motion]; split; assumption. }
  split; [exact Hb|].
  split; [exact I10|]. split; [exact I11|]. split.
  - intros Hf w x y wx wy Hw. destruct (Hb w Hw) as [H1 H2].
    cbn [fire]. rewrite H1, H2, Hf. split; reflexivity.
  - intros x y wx wy. cbn [fire binding1 binding_motion].
    rewrite I10, I11. repeat split.
Qed.

Lemma drag_bound_only_when_floating_witness :
  binding1 on_status demo_look = Some on_status_click_h /\
  binding_motion on_status demo_look = None.
Proof.
  pose proof (drag_bound_only_when_floating demo_env demo_look
                demo_look_reachable) as (_ & H1 & H2 & _).
  exact (conj H1 H2).
Defined.

(** ** Colour *)

Lemma colour_of_values (name : string) :
  In (colour_of name) ["#000000"; "#FF0000"; "#FFD400"; "#2060FF"; "#19A95A"].
Proof.
  unfold colour_of.
  repeat match goal with
    | |- context [if ?b then _ else _] => destruct b
    end; cbn [In]; tauto.
Qed.

Lemma colour_of_unknown (name : string) :
  ~ In name ["Black"; "Red"; "Yellow"; "Blue"; "Green"] ->
  colour_of name = "#000000".
Proof.
  intros H. unfold colour_of.
  repeat match goal with
    | |- context [if String.eqb name ?s then _ else _] =>
        destruct (String.eqb_spec name s);
        [exfalso; apply H; subst name; cbn [In]; tauto|]
    end.
  reflexivity.
Qed.

(** X16. In every window the program can show, the three lines have the
    same text colour, it is the colour of the name in the colour box, and
    it is one of the five colours of the table; a name that is not in the
    table gives black.  In floating mode the outline colour of the three
    lines is that colour too. *)
Theorem lines_share_colour (e : Env) (g : Gui) :
  reachable_look e g ->
  current_fg g = colour_of (color_var g) /\
  _fg (tl (lbl_status g)) = current_fg g /\
  _fg (tl (lbl_bottom g)) = current_fg g /\
  _fg (tl (lbl_now g)) = current_fg g /\
  In (current_fg g) ["#000000"; "#FF0000"; "#FFD400"; "#2060FF"; "#19A95A"] /\
  (forall name, ~ In name ["Black"; "Red"; "Yellow"; "Blue"; "Green"] ->
                current_fg (apply_color e name g) = "#000000") /\
  (float_on g = true ->
   _outline_color (tl (lbl_status g)) = current_fg g /\
   _outline_color (tl (lbl_bottom g)) = current_fg g /\
   _outline_color (tl (lbl_now g)) = current_fg g).
Proof.
  intros Hr. pose proof (reachable_look_inv e g Hr) as HI.
  pose proof (look_colour e g HI) as I21.
  destruct (look_status e g HI) as [_ _ _ S4 S5 _ _].
  destruct (look_bottom e g HI) as [_ _ _ B4 B5 _ _].
  destruct (look_now e g HI) as [_ _ _ N4 N5 _ _].
  split; [exact I21|]. split; [exact S4|]. split; [exact B4|].
  split; [exact N4|]. split; [rewrite I21; apply colour_of_values|].
  split.
  - intros name Hn. rewrite <- (colour_of_unknown name Hn).
    clear. open_state e g. destruct fo; look; reflexivity.
  - intros Hf. split; [exact (S5 Hf)|]. split; [exact (B5 Hf) | exact (N5 Hf)].
Qed.

Lemma lines_share_colour_witness :
  current_fg demo_look = colour_of (color_var demo_look) /\
  _fg (tl (lbl_status demo_look)) = current_fg demo_look.
Proof.
  pose proof (lines_share_colour demo_env demo_look demo_look_reachable)
    as (H1 & H2 & _).
  exact (conj H1 H2).
Defined.

(** ** The date line *)

(** X17. In every window the program can show, the date line is packed
    exactly when the Date box is checked, and the two upper lines are
    always packed.  [_update_clock] leaves a window with a hidden date line
    as it is, and writes the clock text on a shown one. *)
Theorem date_line_follows_flag (e : Env) (g : Gui) :
  reachable_look e g ->
  manager (lbl_now g) = show_time g /\
  manager (lbl_status g) = true /\
  manager (lbl_bottom g) = true /\
  (forall now, show_time g = false -> _update_clock e now g = g) /\
  (forall now, show_time g = true ->
     _text (tl (lbl_now (_update_clock e now g))) = fmt_clock now).
Proof.
  intros Hr. pose proof (reachable_look_inv e g Hr) as HI.
  split; [exact (look_date e g HI)|].
  split; [exact (look_packed_status e g HI)|].
  split; [exact (look_packed_bottom e g HI)|].
  clear. split; intros now Hs; open_state e g; cbn [show_time] in Hs;
    subst st; look; reflexivity.
Qed.

Lemma date_line_follows_flag_witness :
  manager (lbl_now demo_look) = show_time demo_look /\
  manager (lbl_status demo_look) = true /\
  manager (lbl_bottom demo_look) = true.
Proof.
  pose proof (date_line_follows_flag demo_env demo_look demo_look_reachable)
    as (H1 & H2 & H3 & _).
  exact (conj H1 (conj H2 H3)).
Defined.

(** ** Fonts *)

Lemma size_presets_names (name : string) (p : Preset) :
  size_presets name = Some p ->
  In name ["Large"; "Mid"; "Small"] /\ mid p < large p /\
  In (large p, mid p) [(57, 36); (38, 24); (28, 18)].
Proof.
  unfold size_presets.
  destruct (String.eqb_spec name "Large");
    [intros H; inversion H; subst; cbn; repeat split; try lia; tauto|].
  destruct (String.eqb_spec name "Mid");
    [intros H; inversion H; subst; cbn; repeat split; try lia; tauto|].
  destruct (String.eqb_spec name "Small");
    [intros H; inversion H; subst; cbn; repeat split; try lia; tauto|].
  discriminate.
Qed.

(** X18. In every window the program can show, the current size is one of
    Large, Mid and Small; the status line and the second line have the same
    font, the family found at start in the large size of the current size
    with the style words of the checked boxes in the order bold, italic,
    underline; the date line has the same family and styles in the
    smaller size; and the vertical paddings are the ones of the current
    size. *)
Theorem fonts_follow_size_and_style (e : Env) (g : Gui) :
  reachable_look e g ->
  exists p,
    size_presets (current_size g) = Some p /\
    In (current_size g) ["Large"; "Mid"; "Small"] /\
    _font (tl (lbl_status g)) = (base_family e, large p, _styles g) /\
    _font (tl (lbl_bottom g)) = (base_family e, large p, _styles g) /\
    _font (tl (lbl_now g)) = (base_family e, mid p, _styles g) /\
    mid p < large p /\
    pady (lbl_status g) = pad_status p /\
    pady (lbl_bottom g) = pad_bottom p /\
    (manager (lbl_now g) = true -> pady (lbl_now g) = pad_time p).
Proof.
  intros Hr. pose proof (reachable_look_inv e g Hr) as HI.
  destruct (look_fonts e g HI) as (p & P1 & P2 & P3 & P4 & P5 & P6 & P7).
  destruct (size_presets_names _ p P1) as (Hn & Hlt & _).
  exists p. repeat split; assumption.
Qed.

Lemma fonts_follow_size_and_style_witness :
  exists p,
    size_presets (current_size demo_look) = Some p /\
    In (current_size demo_look) ["Large"; "Mid"; "Small"] /\
    _font (tl (lbl_status demo_look))
      = (base_family demo_env, large p, _styles demo_look) /\
    _font (tl (lbl_bottom demo_look))
      = (base_family demo_env, large p, _styles demo_look) /\
    _font (tl (lbl_now demo_look))
      = (base_family demo_env, mid p, _styles demo_look) /\
    mid p < large p /\
    pady (lbl_status demo_look) = pad_status p /\
    pady (lbl_bottom demo_look) = pad_bottom p /\
    (manager (lbl_now demo_look) = true -> pady (lbl_now demo_look) = pad_time p).
Proof.
  exact (fonts_follow_size_and_style demo_env demo_look demo_look_reachable).
Defined.

(** ** What is drawn *)

Lemma plain_when_thin (e : Env) (t : TextLine) :
  _outline_thick t = 0 -> drawn e t = plain_items e t.
Proof.
  destruct e as [nt ok ls rb0 wb0 db0 fam].
  destruct t as [tx ft fg bg ot oc cb ch ci].
  unfold plain_items, is_empty. look. intros ->. destruct tx; reflexivity.
Qed.

(** X19. In every window the program can show, none of the three lines has
    an outline: the canvas of a line holds its text once, in the text
    colour, at the left edge and vertically centred in a canvas that is
    six pixels higher than a line of its font, and holds nothing when the
    text is empty. *)
Theorem lines_drawn_once (e : Env) (g : Gui) (w : Widget) :
  reachable_look e g ->
  w = lbl_status g \/ w = lbl_bottom g \/ w = lbl_now g ->
  _outline_thick (tl w) = 0 /\
  canvas_height (tl w) = linespace e (_font (tl w)) + 6 /\
  canvas_items (tl w) = plain_items e (tl w) /\
  _fg (tl w) = current_fg g.
Proof.
  intros Hr Hw. pose proof (reachable_look_inv e g Hr) as HI.
  assert (HL : LineInv e g w).
  { destruct Hw as [-> | [-> | ->]];
      [apply (look_status e g HI) | apply (look_bottom e g HI)
      | apply (look_now e g HI)]. }
  destruct HL as [L1 L2 L3 L4 _ _ _].
  split; [exact L1|]. split; [exact L3|]. split; [|exact L4].
  rewrite L2. apply plain_when_thin. exact L1.
Qed.

Lemma lines_drawn_once_witness :
  _outline_thick (tl (lbl_status demo_look)) = 0 /\
  canvas_height (tl (lbl_status demo_look))
    = linespace demo_env (_font (tl (lbl_status demo_look))) + 6 /\
  canvas_items (tl (lbl_status demo_look))
    = plain_items demo_env (tl (lbl_status demo_look)) /\
  _fg (tl (lbl_status demo_look)) = current_fg demo_look.
Proof.
  apply (lines_drawn_once demo_env demo_look (lbl_status demo_look)
           demo_look_reachable).
  left. reflexivity.
Defined.

Example status_line_items :
  canvas_items (tl (lbl_status demo_look))
  = [create_text 0 60 "READY" ("Segoe UI", 57, ["bold"]) "#000000"] /\
  canvas_height (tl (lbl_status demo_look)) = 120.
Proof. split; vm_compute; reflexivity. Qed.
(** ** Dragging *)

Lemma drag_moves_last (ps : list (Z * Z)) :
  forall (x y x0 y0 gx gy : Z) (g : Gui),
    _drag_origin g = Some (x0, y0, gx, gy) ->
    drag_moves (ps ++ [(x, y)])%list g =
    Some (with_root
            (with_geometry
               (Some ("+" ++ str_int (gx + (x - x0)) ++
                      "+" ++ str_int (gy + (y - y0))))
               (root g)) g).
Proof.
  induction ps as [|[px py] ps IH]; intros x y x0 y0 gx gy g Ho.
  - cbn [app drag_moves]. unfold _drag_move. rewrite Ho. reflexivity.
  - cbn [app drag_moves]. unfold _drag_move at 1. rewrite Ho.
    rewrite (IH x y x0 y0 gx gy); [|destruct g; exact Ho].
    destruct g as [fo st so bo io uo cv sv cs cf ws wb wn sp fw fd
                   [rbg rtm ror ral rtc rge] dor].
    reflexivity.
Qed.

(** X20. During a drag the position asked for depends only on where the
    drag began and where the pointer is now: after [_drag_start] at pointer
    [(x0, y0)] with the window at [(gx, gy)], any run of [_drag_move] calls
    that ends with the pointer at [(x, y)] asks for
    [+(gx + x - x0)+(gy + y - y0)] and changes nothing else, so a pointer
    back at its start asks for the first position again.  [_drag_move]
    raises exactly when no [_drag_start] has set the origin, as in the
    window [__init__] makes. *)
Theorem drag_follows_pointer
  (x0 y0 gx gy x y : Z) (ps : list (Z * Z)) (g : Gui) :
  let g1 := _drag_start x0 y0 gx gy g in
  drag_moves (ps ++ [(x, y)])%list g1 =
    Some (with_root
            (with_geometry
               (Some ("+" ++ str_int (gx + (x - x0)) ++
                      "+" ++ str_int (gy + (y - y0))))
               (root g1)) g1) /\
  (exists g2,
     drag_moves (ps ++ [(x0, y0)])%list g1 = Some g2 /\
     geometry (root g2) = Some ("+" ++ str_int gx ++ "+" ++ str_int gy)) /\
  (_drag_move x y g = None <-> _drag_origin g = None) /\
  (forall e dt0 dt1, _drag_move x y (init_look e dt0 dt1) = None).
Proof.
  intros g1.
  assert (Ho : _drag_origin g1 = Some (x0, y0, gx, gy))
    by (destruct g; reflexivity).
  split; [apply drag_moves_last; exact Ho|]. split; [|split].
  - eexists. split; [apply drag_moves_last; exact Ho|].
    cbn [root with_root geometry with_geometry].
    replace (gx + (x0 - x0)) with gx by lia.
    replace (gy + (y0 - y0)) with gy by lia. reflexivity.
  - unfold _drag_move. destruct (_drag_origin g) as [[[[a b] c] d]|].
    + split; discriminate.
    + split; reflexivity.
  - intros e dt0 dt1. destruct e as [nt ok ls rb0 wb0 db0 fam].
    unfold _drag_move, init_look. look. reflexivity.
Qed.

Example drag_example :
  match drag_moves [(110, 210); (90, 30); (105, 195)]
          (_drag_start 100 200 40 50 demo_look) with
  | Some g => geometry (root g)
  | None => None
  end = Some "+45+45" /\
  match drag_moves [(40, 100)] (_drag_start 100 200 40 50 demo_look) with
  | Some g => geometry (root g)
  | None => None
  end = Some "+-20+-50".
Proof. split; vm_compute; reflexivity. Qed.

(** ** The class [TextLine] *)

(** X21. [set_outline] never stores a negative thickness and keeps the
    outline colour when none is given; text, font, colours and background
    are left alone.  The canvas then holds nothing for an empty text, the
    text once for a thickness of zero or less, and otherwise four copies in
    the outline colour, moved by the thickness along both diagonals, below
    the text itself, which is drawn last. *)
Theorem set_outline_clamps
  (e : Env) (thickness : Z) (color : option string) (t : TextLine) :
  let t' := set_outline e thickness color t in
  let h := linespace e (_font t) in
  let th := Z.max 0 thickness in
  let oc := match color with Some c => c | None => _outline_color t end in
  0 <= _outline_thick t' /\
  _outline_thick t' = th /\
  _outline_color t' = oc /\
  (_text t', _font t', _fg t', _bg t', canvas_bg t')
    = (_text t, _font t, _fg t, _bg t, canvas_bg t) /\
  canvas_height t' = h + 6 /\
  (is_empty (_text t) = true -> canvas_items t' = []) /\
  (is_empty (_text t) = false -> thickness <= 0 ->
   canvas_items t' = [create_text 0 (h / 2 + 3) (_text t) (_font t) (_fg t)]) /\
  (is_empty (_text t) = false -> 0 < thickness ->
   canvas_items t' =
     [create_text (- th) (h / 2 + 3 - th) (_text t) (_font t) oc;
      create_text th (h / 2 + 3 - th) (_text t) (_font t) oc;
      create_text (- th) (h / 2 + 3 + th) (_text t) (_font t) oc;
      create_text th (h / 2 + 3 + th) (_text t) (_font t) oc;
      create_text 0 (h / 2 + 3) (_text t) (_font t) (_fg t)]).
Proof.
  destruct e as [nt ok ls rb0 wb0 db0 fam].
  destruct t as [tx ft fg bg ot oc cb ch ci].
  unfold set_outline, _redraw.
  destruct color as [c|];
    cbn [with_outline_thick with_outline_color with_canvas_height
         with_canvas_items _text _font _fg _bg _outline_thick _outline_color
         canvas_bg canvas_height canvas_items linespace fst snd map];
    (split; [lia|]); (split; [reflexivity|]); (split; [reflexivity|]);
    (split; [reflexivity|]); (split; [reflexivity|]);
    (split; [intros ->; cbn [negb andb]; rewrite Bool.andb_false_r; reflexivity|]);
    (split; intros -> Hth; cbn [negb];
     [ destruct (Z.ltb_spec 0 (Z.max 0 thickness)); [lia | reflexivity]
     | destruct (Z.ltb_spec 0 (Z.max 0 thickness)); [|lia]; cbn [andb app];
       rewrite !Z.add_0_l; reflexivity ]).
Qed.

Example outline_of_two :
  canvas_items
    (set_outline demo_env 2 (Some "#FF0000") (tl (lbl_status demo_look)))
  = [create_text (-2) 58 "READY" ("Segoe UI", 57, ["bold"]) "#FF0000";
     create_text 2 58 "READY" ("Segoe UI", 57, ["bold"]) "#FF0000";
     create_text (-2) 62 "READY" ("Segoe UI", 57, ["bold"]) "#FF0000";
     create_text 2 62 "READY" ("Segoe UI", 57, ["bold"]) "#FF0000";
     create_text 0 60 "READY" ("Segoe UI", 57, ["bold"]) "#000000"] /\
  canvas_items (set_outline demo_env (-3) None (tl (lbl_status demo_look)))
  = [create_text 0 60 "READY" ("Segoe UI", 57, ["bold"]) "#000000"].
Proof. split; vm_compute; reflexivity. Qed.

(** X22. [cget] asks the canvas for the option before it looks at the
    values the class keeps, so it returns a value exactly for the options
    the canvas has: for such an option among text, font, fg and bg it
    returns the value the class keeps, and for text on a canvas without
    that option it raises although the text is kept. *)
Theorem cget_needs_canvas_option
  (super_cget : string -> option Value) (key : string) (t : TextLine) :
  (cget super_cget key t = None <-> super_cget key = None) /\
  (forall d, super_cget "bg" = Some d ->
             cget super_cget "bg" t = Some (VStr (_bg t))) /\
  (forall d, super_cget "text" = Some d ->
             cget super_cget "text" t = Some (VStr (_text t))) /\
  (super_cget "text" = None -> cget super_cget "text" t = None) /\
  (forall d, super_cget key = Some d ->
             ~ In key ["text"; "font"; "fg"; "bg"] ->
             cget super_cget key t = Some d).
Proof.
  unfold cget. split; [|split; [|split; [|split]]].
  - destruct (super_cget key); split; congruence.
  - intros d ->. reflexivity.
  - intros d ->. reflexivity.
  - intros ->. reflexivity.
  - intros d -> Hk.
    repeat match goal with
      | |- context [if String.eqb key ?s then _ else _] =>
          destruct (String.eqb_spec key s);
          [exfalso; apply Hk; subst key; cbn [In]; tauto|]
      end.
    reflexivity.
Qed.

Example cget_on_plain_canvas :
  cget demo_canvas "text" (tl (lbl_status demo_look)) = None /\
  cget demo_canvas "bg" (tl (lbl_status demo_look))
    = Some (VStr "SystemButtonFace") /\
  cget demo_canvas "height" (tl (lbl_status demo_look)) = Some (VStr "120").
Proof. repeat split; vm_compute; reflexivity. Qed.

(** ** Handlers that raise *)

(** X23. In a window the program can show, a handler raises only in two
    cases: the size box handing over a name that is not in the table of
    sizes, and a motion with the button held, in floating mode, on the
    frame or on one of the two lower lines before any press has set the
    origin of the drag.  Every other event is handled. *)
Theorem handlers_raise_only (e : Env) (ev : Ev) (g : Gui) :
  reachable_look e g ->
  fire e ev g = None ->
  (exists name, ev = SelectSize name /\ size_presets name = None) \/
  (exists w x y,
     ev = Motion1 w x y /\ w <> on_status /\ float_on g = true /\
     _drag_origin g = None).
Proof.
  intros Hr H. pose proof (reachable_look_inv e g Hr) as HI.
  destruct (look_fonts e g HI) as (p & P1 & _).
  pose proof (look_display_b1 e g HI) as I4.
  pose proof (look_display_bm e g HI) as I5.
  pose proof (look_bottom_b1 e g HI) as I6.
  pose proof (look_bottom_bm e g HI) as I7.
  pose proof (look_now_b1 e g HI) as I8.
  pose proof (look_now_bm e g HI) as I9.
  pose proof (look_status_b1 e g HI) as I10.
  pose proof (look_status_bm e g HI) as I11.
  clear HI Hr.
  open_gui e g ev; look; subst;
    repeat (rewrite P1 in H; look);
    try discriminate;
    try (destruct (size_presets name) eqn:En;
         [discriminate | left; exists name; split; reflexivity || assumption]);
    try (destruct dor as [[[[a b] c] d]|];
         [discriminate
         | right; eexists; eexists; eexists;
           repeat split; discriminate]).
Qed.

Lemma handlers_raise_only_witness :
  (exists name, SelectSize "Huge" = SelectSize name /\ size_presets name = None) \/
  (exists w x y,
     SelectSize "Huge" = Motion1 w x y /\ w <> on_status /\
     float_on demo_look = true /\ _drag_origin demo_look = None).
Proof.
  apply (handlers_raise_only demo_env (SelectSize "Huge") demo_look).
  - exact demo_look_reachable.
  - vm_compute. reflexivity.
Defined.

Example motion_before_press :
  fire demo_env (Motion1 on_display 5 5)
    (_toggle_floating_evt demo_env demo_look) = None.
Proof. vm_compute. reflexivity. Qed.

(** ** The canvas of a line *)

Lemma redraw_fixed (e : Env) (t : TextLine) : _redraw e (_redraw e t) = _redraw e t.
Proof.
  destruct e as [nt ok ls rb0 wb0 db0 fam].
  destruct t as [tx ft fg bg ot oc cb ch ci]. look. reflexivity.
Qed.

(** X24. Every method of [TextLine] that changes an attribute ends with the
    canvas redrawn: after the constructor, after [configure] with any
    options and after [set_outline], the canvas holds exactly what
    [_redraw] draws for the attributes now stored, so a further [_redraw]
    changes nothing; and [configure] changes the attributes it is given
    and no others. *)
Theorem textline_canvas_in_sync
  (e : Env) (kw : Kw) (thickness : Z) (color : option string)
  (master_bg text fg : string) (font : option Font) (bg : option string)
  (t : TextLine) :
  _redraw e (configure e kw t) = configure e kw t /\
  _redraw e (set_outline e thickness color t) = set_outline e thickness color t /\
  _redraw e (TextLine_init e master_bg text font fg bg)
    = TextLine_init e master_bg text font fg bg /\
  _text (configure e kw t)
    = match kw_text kw with Some v => v | None => _text t end /\
  _font (configure e kw t)
    = match kw_font kw with Some v => v | None => _font t end /\
  _fg (configure e kw t)
    = match kw_fg kw with Some v => v | None => _fg t end /\
  _bg (configure e kw t)
    = match kw_bg kw with Some v => v | None => _bg t end /\
  canvas_bg (configure e kw t)
    = match kw_bg kw with Some v => v | None => canvas_bg t end /\
  _outline_thick (configure e kw t) = _outline_thick t /\
  _outline_color (configure e kw t) = _outline_color t.
Proof.
  split; [apply redraw_fixed|]. split; [apply redraw_fixed|].
  split; [apply redraw_fixed|].
  destruct e as [nt ok ls rb0 wb0 db0 fam].
  destruct t as [tx ft fg0 bg0 ot oc cb ch ci].
  destruct kw as [[v1|] [v2|] [v3|] [v4|]]; look; repeat split.
Qed.

End GuiFacts.

(** * The timer on doubles *)

(** ** Facts about rounding to a double *)

Section Doubles.
Import Fp.
Local Open Scope Q_scope.

Lemma pow2_pos (k : Z) : 0 < pow2 k.
Proof. apply Qpower_0_lt. reflexivity. Qed.

Lemma pow2_le (a b : Z) : (a <= b)%Z -> pow2 a <= pow2 b.
Proof. intros H. apply Qpower_le_compat_l; [exact H | discriminate]. Qed.

Lemma pow2_lt_inv (a b : Z) : pow2 a < pow2 b -> (a < b)%Z.
Proof. intros H. apply (Qpower_lt_compat_l_inv 2); [exact H | reflexivity]. Qed.

Lemma pow2_plus (a b : Z) : pow2 (a + b) == pow2 a * pow2 b.
Proof. apply Qpower_plus. discriminate. Qed.

Lemma pow2_Z (k : Z) : (0 <= k)%Z -> pow2 k == inject_Z (2 ^ k).
Proof. intros H. unfold pow2. rewrite Zpower_Qpower by exact H. reflexivity. Qed.

Lemma pow2_split (a b c : Z) : (a + b = c)%Z -> pow2 a * pow2 b == pow2 c.
Proof. intros <-. symmetry. apply pow2_plus. Qed.

(** The exponent found by [binade] is the right one. *)
Lemma binade_spec (x : Q) :
  0 < x -> pow2 (binade x) <= x /\ x < pow2 (binade x + 1).
Proof.
  intros Hx. destruct x as [n d].
  assert (Hn : (0 < n)%Z).
  { unfold Qlt in Hx. simpl in Hx. lia. }
  unfold binade. cbn [Qnum Qden].
  set (a := Z.log2 n). set (b := Z.log2 (Zpos d)).
  destruct (Z.log2_spec n Hn) as [Ha1 Ha2]. fold a in Ha1, Ha2.
  destruct (Z.log2_spec (Zpos d) eq_refl) as [Hb1 Hb2]. fold b in Hb1, Hb2.
  assert (Ha0 : (0 <= a)%Z) by apply Z.log2_nonneg.
  assert (Hb0 : (0 <= b)%Z) by apply Z.log2_nonneg.
  assert (Hd : 0 < inject_Z (Zpos d)) by reflexivity.
  assert (HA1 : pow2 a <= inject_Z n).
  { rewrite pow2_Z by exact Ha0. rewrite <- Zle_Qle. exact Ha1. }
  assert (HA2 : inject_Z n < pow2 (a + 1)).
  { rewrite pow2_Z by lia. rewrite <- Zlt_Qlt. exact Ha2. }
  assert (HB1 : pow2 b <= inject_Z (Zpos d)).
  { rewrite pow2_Z by exact Hb0. rewrite <- Zle_Qle. exact Hb1. }
  assert (HB2 : inject_Z (Zpos d) < pow2 (b + 1)).
  { rewrite pow2_Z by lia. rewrite <- Zlt_Qlt. exact Hb2. }
  assert (Hmul : (n # d) * inject_Z (Zpos d) == inject_Z n).
  { rewrite (Qmake_Qdiv n d). field. intros E. rewrite E in Hd. discriminate. }
  pose proof (pow2_split (a - b - 1) (b + 1) a ltac:(ring)) as E1.
  pose proof (pow2_split (a - b + 1) b (a + 1) ltac:(ring)) as E2.
  pose proof (pow2_pos (a - b - 1)) as P1.
  pose proof (pow2_pos (a - b + 1)) as P2.
  pose proof (pow2_pos b) as P3.
  assert (lower : pow2 (a - b - 1) <= n # d).
  { apply Qnot_lt_le. intros C.
    assert (H1 : (n # d) * inject_Z (Zpos d) < pow2 (a - b - 1) * inject_Z (Zpos d))
      by (apply Qmult_lt_r; assumption).
    assert (H2 : pow2 (a - b - 1) * inject_Z (Zpos d) < pow2 (a - b - 1) * pow2 (b + 1))
      by (apply Qmult_lt_l; assumption).
    lra. }
  assert (upper : n # d < pow2 (a - b + 1)).
  { apply Qnot_le_lt. intros C.
    assert (H1 : pow2 (a - b + 1) * pow2 b <= (n # d) * pow2 b)
      by (apply Qmult_le_r; assumption).
    assert (H2 : (n # d) * pow2 b <= (n # d) * inject_Z (Zpos d))
      by (apply Qmult_le_l; assumption).
    lra. }
  destruct (Qle_bool (pow2 (a - b)) (n # d)) eqn:T.
  - apply Qle_bool_iff in T. split; [exact T | exact upper].
  - assert (T' : n # d < pow2 (a - b)).
    { apply Qnot_le_lt. intros C. apply Qle_bool_iff in C. congruence. }
    split; [exact lower|].
    replace (a - b - 1 + 1)%Z with (a - b)%Z by ring. exact T'.
Qed.

Lemma binade_lt (x : Q) (k : Z) : 0 < x -> x < pow2 k -> (binade x < k)%Z.
Proof.
  intros Hx Hk. destruct (binade_spec x Hx) as [H1 _].
  apply pow2_lt_inv. lra.
Qed.

Lemma binade_ge (x : Q) (k : Z) : pow2 k <= x -> (k <= binade x)%Z.
Proof.
  intros Hk. pose proof (pow2_pos k) as Pk.
  destruct (binade_spec x ltac:(lra)) as [_ H2].
  assert (H : (k < binade x + 1)%Z) by (apply pow2_lt_inv; lra). lia.
Qed.

Lemma Qabs_nonzero (x : Q) : ~ x == 0 -> 0 < Qabs x.
Proof.
  intros Hx. apply Qabs_case; intros H.
  - apply Qlt_leneq. split; [exact H|]. intros E. apply Hx. symmetry. exact E.
  - assert (x < 0); [|lra].
    apply Qlt_leneq. split; [exact H | exact Hx].
Qed.

Lemma ulp_pos (x : Q) : 0 < ulp x.
Proof. apply pow2_pos. Qed.

(** Below [2^k] the doubles are at most [2^(k-53)] apart. *)
Lemma ulp_le (x : Q) (k : Z) :
  ~ x == 0 -> Qabs x < pow2 k -> (-1022 < k)%Z -> ulp x <= pow2 (k - 53).
Proof.
  intros Hx Hk Hlow. unfold ulp. apply pow2_le.
  pose proof (binade_lt (Qabs x) k (Qabs_nonzero x Hx) Hk). lia.
Qed.

(** What [rnd] computes for an argument other than zero. *)
Lemma rnd_nonzero (x : Q) :
  ~ x == 0 ->
  rnd x =
  let r := Qred (ulp x * inject_Z (py_round (x / ulp x))) in
  if Qle_bool (pow2 1024) r then PInf
  else if Qle_bool r (- pow2 1024) then NInf
  else Fin r.
Proof.
  intros Hx. unfold rnd.
  destruct (Qeq_bool x 0) eqn:E; [|reflexivity].
  apply Qeq_bool_iff in E. contradiction.
Qed.

Lemma rnd_zero (x : Q) : x == 0 -> rnd x = Fin 0.
Proof.
  intros Hx. unfold rnd.
  destruct (Qeq_bool x 0) eqn:E; [reflexivity|].
  apply Qeq_bool_iff in Hx. congruence.
Qed.

(** The nearest multiple of [q] is within [q/2]. *)
Lemma nearest_multiple (x q : Q) :
  0 < q ->
  x - (1 # 2) * q <= q * inject_Z (py_round (x / q)) <= x + (1 # 2) * q.
Proof.
  intros Hq.
  destruct (py_round_near (x / q)) as [H1 H2].
  assert (E : x == q * (x / q)) by (field; lra).
  set (y := x / q) in *. set (m := inject_Z (py_round y)) in *.
  clearbody m. clearbody y.
  assert (A : q * (y - (1 # 2)) <= q * m) by (apply Qmult_le_l; assumption).
  assert (B : q * m <= q * (y + (1 # 2))) by (apply Qmult_le_l; assumption).
  split.
  - setoid_replace (x - (1 # 2) * q) with (q * (y - (1 # 2))); [exact A|].
    rewrite E. field.
  - setoid_replace (x + (1 # 2) * q) with (q * (y + (1 # 2))); [exact B|].
    rewrite E. field.
Qed.

Lemma Fin_inj (a b : Q) : Fin a = Fin b -> a = b.
Proof. intros H. injection H as H. exact H. Qed.

(** A finite result of [rnd] is within half a unit in the last place. *)
Lemma rnd_near (x r : Q) :
  rnd x = Fin r -> x - (1 # 2) * ulp x <= r <= x + (1 # 2) * ulp x.
Proof.
  intros H. pose proof (ulp_pos x) as Hq.
  destruct (Qeq_dec x 0) as [Hx | Hx].
  - rewrite (rnd_zero x Hx) in H. apply Fin_inj in H. subst r. lra.
  - rewrite (rnd_nonzero x Hx) in H. cbv zeta in H.
    destruct (Qle_bool _ _); [discriminate|].
    destruct (Qle_bool _ _); [discriminate|].
    apply Fin_inj in H.
    pose proof (nearest_multiple x (ulp x) Hq) as Hn.
    pose proof (Qred_correct (ulp x * inject_Z (py_round (x / ulp x)))) as Hr.
    rewrite H in Hr.
    set (p := ulp x * inject_Z (py_round (x / ulp x))) in *.
    clearbody p. lra.
Qed.

Lemma pow2_51 : pow2 51 == 2251799813685248.
Proof. reflexivity. Qed.

Lemma pow2_m2 : pow2 (-2) == 1 # 4.
Proof. reflexivity. Qed.

Lemma pow2_1024_large : 1152921504606846976 <= pow2 1024.
Proof.
  assert (H : pow2 60 == 1152921504606846976) by reflexivity.
  rewrite <- H. apply pow2_le. lia.
Qed.

(** Below [2^51] in size a result is rounded by at most an eighth and never
    overflows. *)
Lemma rnd_small (x : Q) :
  - pow2 51 < x < pow2 51 ->
  exists r : Q, rnd x = Fin r /\ x - (1 # 8) <= r <= x + (1 # 8).
Proof.
  intros [Hlo Hhi].
  destruct (Qeq_dec x 0) as [Hx | Hx].
  - exists 0. rewrite (rnd_zero x Hx). split; [reflexivity | lra].
  - assert (Habs : Qabs x < pow2 51).
    { apply Qabs_case; intros; lra. }
    pose proof (ulp_le x 51 Hx Habs ltac:(lia)) as Hu.
    change (51 - 53)%Z with (-2)%Z in Hu. rewrite pow2_m2 in Hu.
    pose proof (ulp_pos x) as Hq.
    pose proof (nearest_multiple x (ulp x) Hq) as Hn.
    pose proof pow2_51 as P51. pose proof pow2_1024_large as PL.
    rewrite (rnd_nonzero x Hx). cbv zeta.
    set (r := Qred (ulp x * inject_Z (py_round (x / ulp x)))).
    assert (Hr : r == ulp x * inject_Z (py_round (x / ulp x)))
      by apply Qred_correct.
    assert (Hb : x - (1 # 8) <= r <= x + (1 # 8)).
    { set (p := ulp x * inject_Z (py_round (x / ulp x))) in *.
      clearbody r. clearbody p. lra. }
    destruct (Qle_bool (pow2 1024) r) eqn:T1.
    { apply Qle_bool_iff in T1. exfalso. lra. }
    destruct (Qle_bool r (- pow2 1024)) eqn:T2.
    { apply Qle_bool_iff in T2. exfalso. lra. }
    exists r. split; [reflexivity | exact Hb].
Qed.

Lemma Qred_inject_Z (n : Z) : Qred (inject_Z n) = inject_Z n.
Proof. apply Qcanon.Qred_identity. simpl. apply Z.gcd_1_r. Qed.

(** Integers below [2^53] in size are doubles. *)
Lemma rnd_inject_Z (n : Z) :
  (- 2 ^ 53 < n < 2 ^ 53)%Z -> rnd (inject_Z n) = Fin (inject_Z n).
Proof.
  intros Hn.
  destruct (Z.eq_dec n 0) as [-> | Hn0]; [reflexivity|].
  assert (Hx : ~ inject_Z n == 0).
  { intros E. apply Hn0. apply (eq_sym) in E. 
    change 0 with (inject_Z 0) in E. symmetry. apply inject_Z_injective. exact E. }
  assert (Habs : Qabs (inject_Z n) == inject_Z (Z.abs n)).
  { unfold Qabs, inject_Z. reflexivity. }
  assert (H1 : pow2 0 <= Qabs (inject_Z n)).
  { rewrite Habs. change (pow2 0) with (inject_Z 1). rewrite <- Zle_Qle. lia. }
  assert (H2 : Qabs (inject_Z n) < pow2 53).
  { rewrite Habs, (pow2_Z 53) by lia. rewrite <- Zlt_Qlt. lia. }
  pose proof (binade_ge _ _ H1) as E1.
  pose proof (binade_lt _ _ (Qabs_nonzero _ Hx) H2) as E2.
  rewrite (rnd_nonzero _ Hx). cbv zeta.
  unfold ulp.
  set (e := binade (Qabs (inject_Z n))) in *.
  replace (Z.max e (-1022)) with e by lia.
  set (j := (52 - e)%Z).
  assert (Hj : (0 <= j)%Z) by (unfold j; lia).
  assert (Hq : pow2 (e - 52) * inject_Z (2 ^ j) == 1).
  { rewrite <- pow2_Z by exact Hj.
    rewrite (pow2_split (e - 52) j 0) by (unfold j; ring). reflexivity. }
  pose proof (pow2_pos (e - 52)) as Pq.
  assert (Hdiv : inject_Z n / pow2 (e - 52) == inject_Z (n * 2 ^ j)).
  { rewrite inject_Z_mult.
    set (q := pow2 (e - 52)) in *. set (t := inject_Z (2 ^ j)) in *.
    set (x := inject_Z n) in *. clearbody q t x.
    apply (Qmult_inj_r _ _ q); [lra|].
    transitivity x; [field; lra|].
    transitivity (x * (q * t)); [|ring].
    rewrite Hq. ring. }
  rewrite (py_round_comp _ _ Hdiv), py_round_inject_Z.
  assert (Hr : pow2 (e - 52) * inject_Z (n * 2 ^ j) == inject_Z n).
  { rewrite inject_Z_mult.
    setoid_replace (pow2 (e - 52) * (inject_Z n * inject_Z (2 ^ j)))
      with (inject_Z n * (pow2 (e - 52) * inject_Z (2 ^ j))) by ring.
    rewrite Hq. ring. }
  rewrite (Qred_complete _ _ Hr), Qred_inject_Z.
  assert (B1 : inject_Z n < 9007199254740992).
  { change 9007199254740992 with (inject_Z (2 ^ 53)). rewrite <- Zlt_Qlt. lia. }
  assert (B2 : - (9007199254740992) < inject_Z n).
  { change (- (9007199254740992)) with (inject_Z (- 2 ^ 53)). rewrite <- Zlt_Qlt. lia. }
  pose proof pow2_1024_large as PL.
  destruct (Qle_bool (pow2 1024) (inject_Z n)) eqn:T1.
  { apply Qle_bool_iff in T1. exfalso. lra. }
  destruct (Qle_bool (inject_Z n) (- pow2 1024)) eqn:T2.
  { apply Qle_bool_iff in T2. exfalso. lra. }
  reflexivity.
Qed.

End Doubles.

(** ** Rounding to a double is monotone *)

Section DoublesOrder.
Import Fp.
Local Open Scope Q_scope.

Lemma py_round_close (x : Q) (n : Z) :
  inject_Z n - (1 # 2) < x -> x < inject_Z n + (1 # 2) -> py_round x = n.
Proof.
  intros H1 H2. destruct (py_round_near x) as [A B].
  assert (L : (n <= py_round x)%Z) by (apply inject_Z_lt_succ; lra).
  assert (U : (py_round x <= n)%Z) by (apply inject_Z_lt_succ; lra).
  lia.
Qed.

Lemma Qfloor_unique (x : Q) (f : Z) :
  inject_Z f <= x -> x < inject_Z f + 1 -> Qfloor x = f.
Proof.
  intros H1 H2.
  pose proof (Qfloor_le x) as A.
  pose proof (Qlt_floor x) as B. rewrite inject_Z_plus in B.
  change (inject_Z 1) with 1 in B.
  assert (L : (Qfloor x <= f)%Z) by (apply inject_Z_lt_succ; lra).
  assert (U : (f <= Qfloor x)%Z) by (apply inject_Z_lt_succ; lra).
  lia.
Qed.

Lemma py_round_tie (x : Q) (f : Z) :
  x == inject_Z f + (1 # 2) ->
  py_round x = if Z.even f then f else (f + 1)%Z.
Proof.
  intros Hx.
  assert (Hf : Qfloor x = f) by (apply Qfloor_unique; lra).
  destruct (py_round_cases x) as (_ & _ & [[H E] | [[H E] | [H E]]]);
    rewrite Hf in *.
  - exfalso. lra.
  - exfalso. lra.
  - exact E.
Qed.

Lemma py_round_opp (x : Q) : py_round (- x) = (- py_round x)%Z.
Proof.
  destruct (py_round_cases x) as (Hlo & Hhi & [[H E] | [[H E] | [H E]]]).
  - rewrite E. apply py_round_close; rewrite inject_Z_opp; lra.
  - rewrite E. apply py_round_close;
      rewrite inject_Z_opp, inject_Z_plus; change (inject_Z 1) with 1; lra.
  - rewrite E.
    assert (Ho : - x == inject_Z (- (Qfloor x + 1)) + (1 # 2)).
    { rewrite inject_Z_opp, inject_Z_plus. change (inject_Z 1) with 1. lra. }
    rewrite (py_round_tie _ _ Ho).
    rewrite Z.even_opp, Z.even_add. cbn [Z.even].
    destruct (Z.even (Qfloor x)); cbn [Bool.eqb]; ring.
Qed.

Lemma Qabs_opp_eq (x : Q) : Qabs (- x) = Qabs x.
Proof. destruct x as [n d]. unfold Qabs, Qopp. cbn. rewrite Z.abs_opp. reflexivity. Qed.

Lemma Qabs_pos_eq (x : Q) : 0 <= x -> Qabs x = x.
Proof.
  destruct x as [n d]. unfold Qle, Qabs. cbn. intros H.
  rewrite Z.abs_eq by lia. reflexivity.
Qed.

Lemma ulp_opp (x : Q) : ulp (- x) = ulp x.
Proof. unfold ulp. rewrite Qabs_opp_eq. reflexivity. Qed.

Lemma rnd_opp (x : Q) : rnd (- x) = fneg (rnd x).
Proof.
  destruct (Qeq_dec x 0) as [Hx | Hx].
  - rewrite (rnd_zero x Hx), (rnd_zero (- x)) by (rewrite Hx; reflexivity).
    reflexivity.
  - assert (Hx' : ~ - x == 0) by (intros E; apply Hx; lra).
    rewrite (rnd_nonzero x Hx), (rnd_nonzero (- x) Hx'). cbv zeta.
    rewrite ulp_opp.
    assert (E : ulp x * inject_Z (py_round (- x / ulp x))
                == - (ulp x * inject_Z (py_round (x / ulp x)))).
    { assert (Ed : - x / ulp x == - (x / ulp x)).
      { unfold Qdiv. ring. }
      rewrite (py_round_comp _ _ Ed), py_round_opp, inject_Z_opp. ring. }
    rewrite (Qred_complete _ _ E), Qred_opp.
    set (r := Qred (ulp x * inject_Z (py_round (x / ulp x)))).
    pose proof (pow2_pos 1024) as P.
    destruct (Qle_bool (pow2 1024) (- r)) eqn:T1;
      destruct (Qle_bool (- r) (- pow2 1024)) eqn:T2;
      destruct (Qle_bool (pow2 1024) r) eqn:T3;
      destruct (Qle_bool r (- pow2 1024)) eqn:T4;
      try reflexivity;
      repeat match goal with
      | H : Qle_bool _ _ = true |- _ => apply Qle_bool_iff in H
      | H : Qle_bool ?a ?b = false |- _ =>
          assert (b < a)
            by (apply Qnot_le_lt; intros C; apply Qle_bool_iff in C; congruence);
          clear H
      end; exfalso; lra.
Qed.

Lemma ulp_grid (x : Q) : ulp x = pow2 (grid x - 52).
Proof. reflexivity. Qed.

Lemma binade_mono (x y : Q) : 0 < x -> x <= y -> (binade x <= binade y)%Z.
Proof.
  intros Hx Hxy.
  destruct (binade_spec x Hx) as [A _].
  destruct (binade_spec y ltac:(lra)) as [_ B].
  assert (H : (binade x < binade y + 1)%Z) by (apply pow2_lt_inv; lra).
  lia.
Qed.

Lemma grid_mono (x y : Q) : 0 < x -> x <= y -> (grid x <= grid y)%Z.
Proof.
  intros Hx Hxy. unfold grid.
  rewrite !Qabs_pos_eq by lra.
  pose proof (binade_mono x y Hx Hxy). lia.
Qed.

(** Multiples of the grid step are kept by the rounding of the quotient. *)
Lemma raw_le_multiple (x : Q) (n : Z) :
  x <= ulp x * inject_Z n -> raw x <= ulp x * inject_Z n.
Proof.
  intros H. pose proof (ulp_pos x) as Hq. unfold raw.
  apply Qmult_le_l; [exact Hq|]. rewrite <- Zle_Qle.
  rewrite <- (py_round_inject_Z n). apply py_round_mono.
  apply Qle_shift_div_r; [exact Hq|]. lra.
Qed.

Lemma raw_ge_multiple (x : Q) (n : Z) :
  ulp x * inject_Z n <= x -> ulp x * inject_Z n <= raw x.
Proof.
  intros H. pose proof (ulp_pos x) as Hq. unfold raw.
  apply Qmult_le_l; [exact Hq|]. rewrite <- Zle_Qle.
  rewrite <- (py_round_inject_Z n) at 1. apply py_round_mono.
  apply Qle_shift_div_l; [exact Hq|]. lra.
Qed.

Lemma ulp_times (x : Q) (k : Z) :
  (0 <= k)%Z -> ulp x * inject_Z (2 ^ k) == pow2 (grid x - 52 + k).
Proof.
  intros Hk. rewrite ulp_grid, <- pow2_Z by exact Hk.
  symmetry. apply pow2_plus.
Qed.

Lemma raw_upper (x : Q) : 0 < x -> raw x <= pow2 (grid x + 1).
Proof.
  intros Hx.
  assert (E : ulp x * inject_Z (2 ^ 53) == pow2 (grid x + 1)).
  { rewrite ulp_times by lia. replace (grid x - 52 + 53)%Z with (grid x + 1)%Z by ring.
    reflexivity. }
  rewrite <- E. apply raw_le_multiple. rewrite E.
  destruct (binade_spec x Hx) as [_ B].
  assert (L : pow2 (binade x + 1) <= pow2 (grid x + 1)).
  { apply pow2_le. unfold grid. rewrite Qabs_pos_eq by lra. lia. }
  lra.
Qed.

Lemma raw_lower (x : Q) :
  0 < x -> (-1022 <= binade x)%Z -> pow2 (grid x) <= raw x.
Proof.
  intros Hx Hb.
  assert (E : ulp x * inject_Z (2 ^ 52) == pow2 (grid x)).
  { rewrite ulp_times by lia. replace (grid x - 52 + 52)%Z with (grid x) by ring.
    reflexivity. }
  rewrite <- E. apply raw_ge_multiple. rewrite E.
  destruct (binade_spec x Hx) as [A _].
  assert (G : grid x = binade x).
  { unfold grid. rewrite Qabs_pos_eq by lra. lia. }
  rewrite G. exact A.
Qed.

Lemma raw_mono (x y : Q) : 0 < x -> x <= y -> raw x <= raw y.
Proof.
  intros Hx Hxy.
  pose proof (grid_mono x y Hx Hxy) as Hg.
  destruct (Z.eq_dec (grid x) (grid y)) as [E | N].
  - assert (Eu : ulp y = ulp x) by (rewrite !ulp_grid, E; reflexivity).
    unfold raw. rewrite Eu. pose proof (ulp_pos x) as Hq.
    apply Qmult_le_l; [exact Hq|]. rewrite <- Zle_Qle.
    apply py_round_mono. apply Qmult_le_r; [apply Qinv_lt_0_compat; exact Hq|].
    exact Hxy.
  - assert (Hy : (-1022 <= binade y)%Z /\ grid y = binade y).
    { assert (Ax : Qabs x = x) by (apply Qabs_pos_eq; lra).
      assert (Ay : Qabs y = y) by (apply Qabs_pos_eq; lra).
      unfold grid in *. rewrite Ax, Ay in *. lia. }
    destruct Hy as [Hy Gy].
    pose proof (raw_upper x Hx) as U.
    pose proof (raw_lower y ltac:(lra) Hy) as L.
    assert (M : pow2 (grid x + 1) <= pow2 (grid y)) by (apply pow2_le; lia).
    lra.
Qed.

Lemma raw_nonneg (x : Q) : 0 <= x -> 0 <= raw x.
Proof.
  intros Hx.
  assert (E : ulp x * inject_Z 0 == 0) by ring.
  rewrite <- E. apply raw_ge_multiple. rewrite E. exact Hx.
Qed.

(** [rnd] in terms of [raw]. *)
Lemma rnd_raw (x : Q) :
  rnd x =
  if Qle_bool (pow2 1024) (raw x) then PInf
  else if Qle_bool (raw x) (- pow2 1024) then NInf
  else Fin (Qred (raw x)).
Proof.
  assert (T : forall a b c : Q, a == b -> Qle_bool c a = Qle_bool c b).
  { intros a b c E. destruct (Qle_bool c a) eqn:A, (Qle_bool c b) eqn:B;
      try reflexivity.
    - apply Qle_bool_iff in A. rewrite E in A. apply Qle_bool_iff in A. congruence.
    - apply Qle_bool_iff in B. rewrite <- E in B. apply Qle_bool_iff in B. congruence. }
  assert (T' : forall a b c : Q, a == b -> Qle_bool a c = Qle_bool b c).
  { intros a b c E. destruct (Qle_bool a c) eqn:A, (Qle_bool b c) eqn:B;
      try reflexivity.
    - apply Qle_bool_iff in A. rewrite E in A. apply Qle_bool_iff in A. congruence.
    - apply Qle_bool_iff in B. rewrite <- E in B. apply Qle_bool_iff in B. congruence. }
  pose proof (pow2_pos 1024) as P.
  destruct (Qeq_dec x 0) as [Hx | Hx].
  - rewrite (rnd_zero x Hx).
    assert (R : raw x == 0).
    { unfold raw. assert (Ed : x / ulp x == inject_Z 0).
      { unfold Qdiv.
        transitivity (0 * / ulp x); [|change (inject_Z 0) with 0; ring].
        apply Qmult_comp; [exact Hx | reflexivity]. }
      rewrite (py_round_comp _ _ Ed), py_round_inject_Z. ring. }
    rewrite (T _ _ _ R), (T' _ _ _ R), (Qred_complete _ _ R).
    destruct (Qle_bool (pow2 1024) 0) eqn:A.
    { apply Qle_bool_iff in A. exfalso. lra. }
    destruct (Qle_bool 0 (- pow2 1024)) eqn:B.
    { apply Qle_bool_iff in B. exfalso. lra. }
    reflexivity.
  - rewrite (rnd_nonzero x Hx). cbv zeta. fold (raw x).
    rewrite (T _ _ _ (Qred_correct (raw x))),
            (T' _ _ _ (Qred_correct (raw x))).
    reflexivity.
Qed.

Lemma rnd_of_raw_mono (x y : Q) : raw x <= raw y -> fle (rnd x) (rnd y).
Proof.
  intros H. rewrite (rnd_raw x), (rnd_raw y).
  destruct (Qle_bool (pow2 1024) (raw x)) eqn:T1;
    destruct (Qle_bool (raw x) (- pow2 1024)) eqn:T2;
    destruct (Qle_bool (pow2 1024) (raw y)) eqn:T3;
    destruct (Qle_bool (raw y) (- pow2 1024)) eqn:T4;
    cbn [fle]; try exact I;
    repeat match goal with
    | H : Qle_bool _ _ = true |- _ => apply Qle_bool_iff in H
    | H : Qle_bool ?a ?b = false |- _ =>
        assert (b < a)
          by (apply Qnot_le_lt; intros C; apply Qle_bool_iff in C; congruence);
        clear H
    end; pose proof (pow2_pos 1024); try lra.
  rewrite !Qred_correct. exact H.
Qed.

Lemma fle_neg (x y : pyfloat) : fle (fneg y) (fneg x) -> fle x y.
Proof.
  destruct x, y; cbn [fle fneg]; try tauto. intros H. lra.
Qed.

Lemma fle_trans (x : pyfloat) (m : Q) (y : pyfloat) :
  fle x (Fin m) -> fle (Fin m) y -> fle x y.
Proof.
  destruct x, y; cbn [fle]; try tauto. intros A B. lra.
Qed.

Lemma rnd_nonneg (x : Q) : 0 <= x -> fle (Fin 0) (rnd x).
Proof.
  intros Hx. rewrite <- (rnd_zero 0) by reflexivity.
  apply rnd_of_raw_mono.
  assert (R : raw 0 == 0) by reflexivity.
  rewrite R. apply raw_nonneg. exact Hx.
Qed.

(** Rounding to a double is monotone. *)
Lemma rnd_mono (x y : Q) : x <= y -> fle (rnd x) (rnd y).
Proof.
  intros Hxy.
  destruct (Qlt_le_dec 0 x) as [Hx | Hx].
  - apply rnd_of_raw_mono. apply raw_mono; assumption.
  - destruct (Qlt_le_dec y 0) as [Hy | Hy].
    + apply fle_neg. rewrite <- !rnd_opp.
      apply rnd_of_raw_mono. apply raw_mono; lra.
    + apply (fle_trans _ 0).
      * apply fle_neg. rewrite <- rnd_opp. cbn [fneg].
        change (- 0) with 0. apply rnd_nonneg. lra.
      * apply rnd_nonneg. exact Hy.
Qed.

End DoublesOrder.
(** ** The largest double *)

Section Largest.
Import Fp.
Local Open Scope Q_scope.

Lemma raw_nonpos (x : Q) : x <= 0 -> raw x <= 0.
Proof.
  intros Hx.
  assert (E : ulp x * inject_Z 0 == 0) by ring.
  rewrite <- E. apply raw_le_multiple. rewrite E. exact Hx.
Qed.

Lemma dbl_max_grid : pow2 971 * inject_Z (2 ^ 53 - 1) == inject_Z dbl_max.
Proof.
  rewrite (pow2_Z 971) by lia. rewrite <- inject_Z_mult.
  apply inject_Z_injective. vm_compute. reflexivity.
Qed.

Lemma pow2_1023_below : pow2 1023 <= inject_Z dbl_max.
Proof.
  rewrite (pow2_Z 1023) by lia. rewrite <- Zle_Qle.
  apply Z.leb_le. vm_compute. reflexivity.
Qed.

(** A finite result of [rnd] is at most the largest double. *)
Lemma raw_le_max (x : Q) : raw x < pow2 1024 -> raw x <= inject_Z dbl_max.
Proof.
  intros Hr.
  destruct (Qlt_le_dec 0 x) as [Hx | Hx].
  - pose proof (raw_upper x Hx) as U.
    destruct (Z_lt_le_dec (grid x) 1023) as [G | G].
    + assert (M : pow2 (grid x + 1) <= pow2 1023) by (apply pow2_le; lia).
      pose proof pow2_1023_below. lra.
    + assert (B : (-1022 <= binade x)%Z /\ grid x = binade x).
      { unfold grid in *. rewrite (Qabs_pos_eq x) in * by lra. lia. }
      destruct B as [B Gb].
      pose proof (raw_lower x Hx B) as L.
      destruct (Z.eq_dec (grid x) 1023) as [E | N].
      * rewrite <- dbl_max_grid.
        assert (Eu : ulp x = pow2 971) by (rewrite ulp_grid, E; reflexivity).
        unfold raw in *. rewrite Eu in *.
        apply Qmult_le_l; [apply pow2_pos|]. rewrite <- Zle_Qle.
        assert (Hm : (py_round (x / pow2 971) < 2 ^ 53)%Z).
        { rewrite Zlt_Qlt.
          apply (Qmult_lt_l _ _ (pow2 971)); [apply pow2_pos|].
          rewrite <- (pow2_Z 53) by lia.
          rewrite (pow2_split 971 53 1024) by reflexivity. exact Hr. }
        lia.
      * assert (M : pow2 1024 <= pow2 (grid x)) by (apply pow2_le; lia).
        exfalso. lra.
  - pose proof (raw_nonpos x Hx) as N.
    assert (P : 0 <= inject_Z dbl_max).
    { change 0 with (inject_Z 0). rewrite <- Zle_Qle. apply Z.leb_le.
      vm_compute. reflexivity. }
    lra.
Qed.

Lemma rnd_le_max (x r : Q) : rnd x = Fin r -> r <= inject_Z dbl_max.
Proof.
  rewrite rnd_raw.
  destruct (Qle_bool (pow2 1024) (raw x)) eqn:T1; [discriminate|].
  destruct (Qle_bool (raw x) (- pow2 1024)) eqn:T2; [discriminate|].
  intros H. apply Fin_inj in H. subst r. rewrite Qred_correct.
  apply raw_le_max. apply Qnot_le_lt. intros C.
  apply Qle_bool_iff in C. congruence.
Qed.

Lemma rnd_dbl_max : rnd (inject_Z dbl_max) = Fin (inject_Z dbl_max).
Proof. vm_compute. reflexivity. Qed.

Lemma rnd_late_max :
  rnd (inject_Z dbl_max + pow2 50) = Fin (inject_Z dbl_max).
Proof. vm_compute. reflexivity. Qed.

(** An integer between zero and the largest double has a float. *)
Lemma fits_up_to_max (n : Z) : (0 <= n <= dbl_max)%Z -> fits n.
Proof.
  intros [H0 H1]. unfold fits, float_of_int.
  assert (A : fle (Fin 0) (rnd (inject_Z n))).
  { apply rnd_nonneg. change 0 with (inject_Z 0). rewrite <- Zle_Qle. exact H0. }
  assert (B : fle (rnd (inject_Z n)) (rnd (inject_Z dbl_max))).
  { apply rnd_mono. rewrite <- Zle_Qle. exact H1. }
  rewrite rnd_dbl_max in B.
  destruct (rnd (inject_Z n)); cbn [fle] in *; try contradiction.
  discriminate.
Qed.

(** The seconds that a pause freezes have a float. *)
Lemma frozen_fits (x r : Q) : rnd x = Fin r -> fits (Z.max 0 (py_round r)).
Proof.
  intros H. apply fits_up_to_max. split; [lia|].
  apply Z.max_lub.
  - apply Z.leb_le. vm_compute. reflexivity.
  - pose proof (rnd_le_max x r H) as M.
    rewrite <- (py_round_inject_Z dbl_max). apply py_round_mono. exact M.
Qed.

(** With the clock below [2^50] a deadline is finite. *)
Lemma deadline_finite (now : Q) (n : Z) (d : Q) :
  small_clock now -> (0 <= n)%Z -> float_of_int n = Some d ->
  exists t, fadd now d = Fin t /\ 0 <= t <= inject_Z dbl_max.
Proof.
  intros [Hn0 Hn1] Hn Hd. unfold float_of_int in Hd.
  destruct (rnd (inject_Z n)) as [d'| |] eqn:E; try discriminate.
  injection Hd as ->.
  pose proof (rnd_le_max _ _ E) as Dmax.
  assert (D0 : 0 <= d).
  { pose proof (rnd_nonneg (inject_Z n)) as N. rewrite E in N. apply N.
    change 0 with (inject_Z 0). rewrite <- Zle_Qle. exact Hn. }
  unfold fadd.
  assert (A : fle (Fin 0) (rnd (now + d))) by (apply rnd_nonneg; lra).
  assert (B : fle (rnd (now + d)) (rnd (inject_Z dbl_max + pow2 50)))
    by (apply rnd_mono; lra).
  rewrite rnd_late_max in B.
  destruct (rnd (now + d)) as [t| |]; cbn [fle] in *; try contradiction.
  exists t. split; [reflexivity | split; assumption].
Qed.

Lemma rnd_early_min : rnd (- pow2 50) = Fin (- pow2 50).
Proof. vm_compute. reflexivity. Qed.

(** With the clock below [2^50] the time left to a finite deadline that
    is not negative is finite. *)
Lemma left_defined (now t : Q) :
  small_clock now -> 0 <= t <= inject_Z dbl_max ->
  exists r, rnd (t - now) = Fin r.
Proof.
  intros [Hn0 Hn1] [Ht0 Ht1].
  assert (A : fle (rnd (- pow2 50)) (rnd (t - now))) by (apply rnd_mono; lra).
  assert (B : fle (rnd (t - now)) (rnd (inject_Z dbl_max)))
    by (apply rnd_mono; lra).
  rewrite rnd_early_min in A. rewrite rnd_dbl_max in B.
  destruct (rnd (t - now)) as [r| |]; cbn [fle] in *; try contradiction.
  exists r. reflexivity.
Qed.

End Largest.

Module FpFacts.
Import Fp.

Ltac fp_unfold :=
  cbv beta iota zeta delta
    [step _heartbeat on_start_pause_resume on_reset _advance_phase
     _enter_study _enter_break _render_bottom_dynamic
     _update_bottom_with_left _render_bottom_static numerator_of config
     run_state phase_elapsed left_at events_of state_of raised
     status_text caption mode_label durations_fit
     set_config set_done_pomodoros set_mode set_paused set_paused_left
     set_status_before_pause set_phase_end_monot set_lbl_status
     set_lbl_bottom set_btn_start set_hb_pending
     total_sessions done_pomodoros mode paused paused_left
     _status_before_pause pomo_min short_min long_min phase_end_monot
     audio_path lbl_status lbl_bottom btn_start hb_pending fst snd Mode_eqb
     negb andb orb].

Ltac fp_unfold_all :=
  cbv beta iota zeta delta
    [step _heartbeat on_start_pause_resume on_reset _advance_phase
     _enter_study _enter_break _render_bottom_dynamic
     _update_bottom_with_left _render_bottom_static numerator_of config
     run_state phase_elapsed left_at events_of state_of raised
     status_text caption mode_label durations_fit
     set_config set_done_pomodoros set_mode set_paused set_paused_left
     set_status_before_pause set_phase_end_monot set_lbl_status
     set_lbl_bottom set_btn_start set_hb_pending
     total_sessions done_pomodoros mode paused paused_left
     _status_before_pause pomo_min short_min long_min phase_end_monot
     audio_path lbl_status lbl_bottom btn_start hb_pending fst snd Mode_eqb
     negb andb orb] in *.

(** Case analysis on the clock arithmetic that a handler is stuck on. *)
Ltac split_clock :=
  repeat match goal with
  | |- context [match clock_plus ?n ?d with _ => _ end] =>
      let E := fresh "Eclk" in destruct (clock_plus n d) eqn:E; fp_unfold
  | |- context [match round_int ?x with _ => _ end] =>
      let E := fresh "Eleft" in destruct (round_int x) eqn:E; fp_unfold
  | |- context [if ?l <=? 0 then _ else _] =>
      let E := fresh "Ele" in destruct (l <=? 0) eqn:E; fp_unfold
  | |- context [if ?l <=? ?r then _ else _] =>
      let E := fresh "Ele" in destruct (l <=? r) eqn:E; fp_unfold
  | |- context [if ?l =? 0 then _ else _] =>
      let E := fresh "Emod" in destruct (l =? 0) eqn:E; fp_unfold
  end.

Ltac close_fields :=
  rewrite ?Z.add_0_r in *;
  try lia; try congruence; try discriminate; try reflexivity;
  try (intros; lia); try (intros; discriminate);
  try (left; reflexivity); try (right; split; reflexivity).

Lemma clock_plus_None (now : Q) (n : Z) : clock_plus now n = None -> ~ fits n.
Proof.
  unfold clock_plus, fits. destruct (float_of_int n); [discriminate|].
  intros _ H. apply H. reflexivity.
Qed.

Lemma clock_plus_Some (now : Q) (n : Z) (t : pyfloat) :
  clock_plus now n = Some t ->
  exists d, float_of_int n = Some d /\ t = fadd now d.
Proof.
  unfold clock_plus. destruct (float_of_int n) as [d|]; [|discriminate].
  intros H. exists d. split; [reflexivity | congruence].
Qed.

Ltac zbool :=
  repeat match goal with
  | H : (_ <=? _) = true |- _ => apply Z.leb_le in H
  | H : (_ <=? _) = false |- _ => apply Z.leb_gt in H
  | H : (_ =? _) = true |- _ => apply Z.eqb_eq in H
  | H : (_ =? _) = false |- _ => apply Z.eqb_neq in H
  end.

(** A duration that made the clock arithmetic raise does not fit. *)
Ltac no_fit :=
  match goal with
  | H : clock_plus _ ((if ?c then _ else _) * 60) = None |- _ =>
      destruct c; apply clock_plus_None in H; intros; exfalso; tauto
  | H : clock_plus _ _ = None |- _ =>
      apply clock_plus_None in H; intros; exfalso; tauto
  end.

Ltac open_inv H :=
  destruct H as [Ht Hd Hrun Hidle Hp Hsb Hlb Hpl Hst Hbf Hbt Hbtf Hbot];
  fp_unfold_all.

Ltac run_bound :=
  match goal with
  | Hrun : _ <> idle -> _ < _ |- _ =>
      specialize (Hrun ltac:(discriminate)); zbool; try (intros _); lia
  end.

Ltac keep_button :=
  match goal with
  | Hbtf : fits _ -> _ = _ |- fits _ -> _ =>
      let F := fresh in intros F; specialize (Hbtf F); congruence
  | Hbt : _ \/ _ |- _ \/ _ =>
      destruct Hbt as [Hbt | [Hbt _]];
      first [ left; congruence | right; split; congruence ]
  end.

Ltac idle_not_paused :=
  match goal with
  | Hidle : idle = idle -> true = false |- _ =>
      specialize (Hidle eq_refl); discriminate
  end.

Ltac bottom_kept :=
  match goal with
  | Hbot : exists n d t, _ |- exists n d t, _ =>
      let n := fresh "n" in let d := fresh "d" in let t := fresh "t" in
      let Hl := fresh in let Hn := fresh in let Hd := fresh in
      let Hf := fresh in
      destruct Hbot as (n & d & t & Hl & Hn & Hd & Hf);
      exists n, d, t;
      split; [exact Hl|]; split; [exact Hn|]; split; [exact Hd|];
      first [ exact Hf | solve [no_fit]
            | rewrite ?Z.add_0_r in *; exact Hf ]
  end.

Ltac bottom_written :=
  match goal with
  | |- exists n d t, _ =>
      do 3 eexists; split; [reflexivity|];
      try match goal with
          | Hrun : _ <> idle -> _ < _ |- _ => specialize (Hrun ltac:(discriminate))
          end;
      zbool; rewrite ?Z.add_0_r;
      split; [lia|]; split; [lia|]; intros _; split; reflexivity
  end.

Ltac finish :=
  first [ assumption | solve [close_fields] | solve [no_fit] | solve [run_bound]
        | solve [keep_button] | solve [idle_not_paused]
        | solve [bottom_written] | solve [bottom_kept] | idtac ].

Section Consistency.

Lemma init_consistent (audio : option string) : Consistent (init audio).
Proof.
  constructor; unfold init; fp_unfold; finish.
Qed.

Lemma heartbeat_consistent (now : Q) (a : PomodoroApp) :
  Consistent a -> Consistent (state_of (_heartbeat now a)).
Proof.
  intros H. destruct a as [ts dn [| |] [|] pl sbp pm sm lm pe au ls lb bt hb];
    open_inv H; fp_unfold; split_clock; constructor; fp_unfold; finish.
Qed.

Lemma press_consistent (ui : Settings) (now : Q) (a : PomodoroApp) :
  Consistent a -> Consistent (state_of (on_start_pause_resume ui now a)).
Proof.
  intros H. destruct a as [ts dn [| |] [|] pl sbp pm sm lm pe au ls lb bt hb];
    open_inv H; fp_unfold;
    try (destruct (_read_settings ui) as [evs [[[[s p] sb] l]|]] eqn:E;
         [apply read_settings_some in E;
          destruct E as (_ & (? & ? & ? & ?) & _)|]);
    fp_unfold; split_clock; constructor; fp_unfold; finish.
Qed.

Lemma reset_consistent (ui : Settings) (a : PomodoroApp) :
  Consistent a -> Consistent (state_of (on_reset ui a)).
Proof.
  intros H. destruct a as [ts dn md pa pl sbp pm sm lm pe au ls lb bt hb];
    open_inv H; fp_unfold.
  destruct (Z.leb_spec ts 0);
    [destruct (_read_settings ui) as [evs [[[[s p] sb] l]|]] eqn:E;
       [apply read_settings_some in E;
        destruct E as (_ & (? & ? & ? & ?) & _)|]|];
    fp_unfold; constructor; fp_unfold; finish.
Qed.

Lemma reachable_consistent (a : PomodoroApp) : reachable a -> Consistent a.
Proof.
  induction 1 as [audio | now a _ IH _ | ui now a _ IH | ui a _ IH].
  - apply init_consistent.
  - apply heartbeat_consistent. exact IH.
  - apply press_consistent. exact IH.
  - apply reset_consistent. exact IH.
Qed.

End Consistency.

Lemma reachable_exec_from (ops : list Op) :
  forall a, reachable a ->
  forallb (fun op => match op with Tick _ => false | _ => true end) ops = true ->
  reachable (exec ops a).
Proof.
  induction ops as [|op ops IH]; intros a Ha Hops; [exact Ha|].
  cbn [forallb] in Hops. apply andb_prop in Hops. destruct Hops as [H1 H2].
  cbn [exec fold_left]. apply IH; [|exact H2].
  destruct op as [now | ui now | ui]; [discriminate | |]; cbn [step].
  - apply reach_press. exact Ha.
  - apply reach_reset. exact Ha.
Defined.

(** ** Starting a run *)

Lemma float_of_int_cases (n : Z) :
  (exists d, float_of_int n = Some d) \/ float_of_int n = None.
Proof. destruct (float_of_int n) as [d|]; [left; exists d|right]; reflexivity. Qed.

(** X1. In idle mode a press of Start begins a study phase exactly when
    all four fields are integers that [_read_settings] accepts; it then
    shows no dialog, stores the settings, zeroes the completed sessions and
    shows the status STUDY.  When the study time in seconds can be
    converted to a float, the deadline is the double nearest to [now] plus
    that time, the second line shows session 1 of the session count with
    the full study time, and the button reads Pause.  When it cannot, the
    press ends in OverflowError and leaves deadline, second line and button
    as they were. *)
Theorem start_accepts_exactly_valid (ui : Settings) (now : Q) (a : PomodoroApp) :
  mode a = idle ->
  let r := on_start_pause_resume ui now a in
  let a' := state_of r in
  (mode a' = study <->
   exists s p sb lb, ui = settings_of s p sb lb /\ valid_config s p sb lb) /\
  (forall s p sb lb,
      ui = settings_of s p sb lb -> valid_config s p sb lb ->
      events_of r = [] /\
      mode a' = study /\ paused a' = false /\ done_pomodoros a' = 0 /\
      paused_left a' = paused_left a /\ config a' = (s, p, sb, lb) /\
      lbl_status a' = "STUDY" /\ _status_before_pause a' = "STUDY" /\
      match float_of_int (p * 60) with
      | Some d =>
          raised r = None /\
          phase_end_monot a' = fadd now d /\
          lbl_bottom a' = fmt_progress 1 s ++ "    " ++ fmt_mm_ss (p * 60) /\
          btn_start a' = "Pause"
      | None =>
          raised r = Some OverflowError /\
          phase_end_monot a' = phase_end_monot a /\
          lbl_bottom a' = lbl_bottom a /\
          btn_start a' = btn_start a
      end).
Proof.
  intros Hm r a'. subst r a'. split; [split|].
  - unfold on_start_pause_resume. rewrite Hm.
    destruct (_read_settings ui) as [evs [[[[s p] sb] lb]|]] eqn:E.
    + intros _. exists s, p, sb, lb.
      apply read_settings_some in E. destruct E as (_ & Hv & Hu).
      split; assumption.
    + unfold state_of. cbn [fst snd]. rewrite Hm. discriminate.
  - intros (s & p & sb & lb & -> & Hv).
    unfold on_start_pause_resume. rewrite Hm.
    rewrite (read_settings_valid s p sb lb Hv).
    destruct a as [ts dn md pa pl sbp pm sm lm pe au ls lb' bt hb].
    fp_unfold. split_clock; reflexivity.
  - intros s p sb lb -> Hv.
    unfold on_start_pause_resume. rewrite Hm.
    rewrite (read_settings_valid s p sb lb Hv).
    destruct a as [ts dn md pa pl sbp pm sm lm pe au ls lb' bt hb].
    fp_unfold. unfold clock_plus.
    destruct (float_of_int (p * 60)) as [d|]; fp_unfold; repeat split.
Qed.

Lemma start_accepts_exactly_valid_witness :
  mode (state_of (on_start_pause_resume demo_settings 0%Q (init None))) = study <->
  exists s p sb lb,
    demo_settings = settings_of s p sb lb /\ valid_config s p sb lb.
Proof.
  apply (start_accepts_exactly_valid demo_settings 0%Q (init None)).
  reflexivity.
Defined.

Example start_25_minutes :
  phase_end_monot started = Fin 1500 /\
  lbl_bottom started = "01/03    25:00" /\ btn_start started = "Pause".
Proof. vm_compute. repeat split. Qed.

Example start_at_a_tenth :
  phase_end_monot
    (state_of (on_start_pause_resume demo_settings
                 (3602879701896397 # 36028797018963968) (init None)))
  = Fin (3298754785653555 # 2199023255552).
Proof. vm_compute. reflexivity. Qed.

(** ** The texts of the widgets *)

(** X2. In every reachable state the status line follows mode and paused
    flag (READY in idle mode, PAUSE in a paused phase, STUDY or BREAK in a
    running one) and the text kept for the resume is the one of the mode.
    The caption of the button follows them too (Start, Resume, Pause) as
    long as the stored study time can be converted to a float; in any case
    the only other caption is Start on a running phase, left by a Start
    that ended in OverflowError. *)
Theorem widget_texts_follow_state (a : PomodoroApp) :
  reachable a ->
  lbl_status a = status_text a /\
  _status_before_pause a = mode_label (mode a) /\
  (btn_start a = caption a \/
   (btn_start a = "Start" /\ mode a <> idle /\ paused a = false)) /\
  (fits (pomo_min a * 60) -> btn_start a = caption a).
Proof.
  intros Hr.
  destruct (reachable_consistent a Hr)
    as [_ _ _ _ _ _ _ _ Hst Hbf Hbt Hbtf _].
  repeat split; try assumption.
  destruct Hbt as [Hbt | [Hbt Hp]]; [left; exact Hbt|].
  destruct (mode a) eqn:Hm.
  - left. unfold caption. rewrite Hm. exact Hbt.
  - right. repeat split; [exact Hbt | discriminate | exact Hp].
  - right. repeat split; [exact Hbt | discriminate | exact Hp].
Qed.

Lemma widget_texts_follow_state_witness :
  lbl_status started_paused = status_text started_paused /\
  _status_before_pause started_paused = mode_label (mode started_paused) /\
  (btn_start started_paused = caption started_paused \/
   (btn_start started_paused = "Start" /\ mode started_paused <> idle /\
    paused started_paused = false)) /\
  (fits (pomo_min started_paused * 60) ->
   btn_start started_paused = caption started_paused).
Proof.
  apply (widget_texts_follow_state started_paused).
  apply reachable_exec_from; [apply reach_init | reflexivity].
Defined.

Example paused_texts :
  lbl_status started_paused = "PAUSE" /\ btn_start started_paused = "Resume" /\
  _status_before_pause started_paused = "STUDY".
Proof. vm_compute. repeat split. Qed.

Example start_button_on_a_running_phase :
  let a := state_of (on_start_pause_resume huge_settings 0%Q (init None)) in
  reachable a /\ mode a = study /\ paused a = false /\ btn_start a = "Start".
Proof.
  split; [apply reach_press; apply reach_init|].
  vm_compute. repeat split.
Qed.

(** ** The progress text in reachable states *)

(** X9. In every reachable state the second line begins with a progress of
    exactly two digits, a slash and exactly two digits, followed by four
    spaces, for a numerator that is at most the denominator and a
    denominator that is at most twenty.  When all three stored phase
    lengths can be converted to a float, the two numbers are the ones of
    the state: completed sessions (plus one in a study phase) and session
    count. *)
Theorem progress_always_two_digits (a : PomodoroApp) :
  reachable a ->
  exists n d t,
    lbl_bottom a = fmt_progress n d ++ "    " ++ t /\
    is_nn_dd (fmt_progress n d) = true /\
    0 <= n <= d /\ d <= 20 /\
    (durations_fit a -> n = numerator_of a /\ d = total_sessions a).
Proof.
  intros Hr.
  destruct (reachable_consistent a Hr)
    as [_ _ _ _ _ _ _ _ _ _ _ _ (n & d & t & Hb & Hn & Hd & Hf)].
  exists n, d, t. split; [exact Hb|].
  split; [|split; [exact Hn | split; [exact Hd | exact Hf]]].
  unfold is_nn_dd, fmt_progress. rewrite !Z.max_r by lia.
  apply (two_by_two_fields "/"); lia.
Qed.

Lemma progress_always_two_digits_witness :
  exists n d t,
    lbl_bottom started = fmt_progress n d ++ "    " ++ t /\
    is_nn_dd (fmt_progress n d) = true /\
    0 <= n <= d /\ d <= 20 /\
    (durations_fit started ->
     n = numerator_of started /\ d = total_sessions started).
Proof.
  apply (progress_always_two_digits started).
  apply reachable_exec_from; [apply reach_init | reflexivity].
Defined.

(** ** A study time that no float can hold *)

(** C5. The press of Start with one session of [10^307] minutes, which
    [_read_settings] accepts, ends in OverflowError inside [_enter_study]:
    the mode is study with no session completed out of one, and the second
    line still shows 00/00, not 01/01. *)
Theorem start_overflow_leaves_progress_stale :
  let r := on_start_pause_resume huge_settings 0%Q (init None) in
  let a := state_of r in
  _read_settings huge_settings = ([], Some (1, 10 ^ 307, 5, 15)) /\
  reachable a /\
  raised r = Some OverflowError /\
  mode a = study /\ done_pomodoros a = 0 /\ total_sessions a = 1 /\
  lbl_bottom a = "00/00    00:00" /\
  (forall t, lbl_bottom a <>
             fmt_progress (done_pomodoros a + 1) (total_sessions a)
             ++ "    " ++ t).
Proof.
  split; [vm_compute; reflexivity|].
  split; [apply reach_press; apply reach_init|].
  split; [vm_compute; reflexivity|].
  split; [vm_compute; reflexivity|].
  split; [vm_compute; reflexivity|].
  split; [vm_compute; reflexivity|].
  split; [vm_compute; reflexivity|].
  intros t H. vm_compute in H. discriminate.
Qed.

(** ** Deadlines of everyday size *)

Section SmallClock.
Local Open Scope Q_scope.

Lemma float_of_int_small (n : Z) :
  (- 2 ^ 53 < n < 2 ^ 53)%Z -> float_of_int n = Some (inject_Z n).
Proof.
  intros H. unfold float_of_int. rewrite (rnd_inject_Z n H). reflexivity.
Qed.

Lemma fits_small (n : Z) : (- 2 ^ 53 < n < 2 ^ 53)%Z -> fits n.
Proof.
  intros H. unfold fits. rewrite (float_of_int_small n H). discriminate.
Qed.

Lemma pow2_50 : pow2 50 == 1125899906842624.
Proof. reflexivity. Qed.

Lemma inject_Z_small (n : Z) :
  (0 <= n < 2 ^ 50)%Z -> 0 <= inject_Z n /\ inject_Z n < 1125899906842624.
Proof.
  intros [H1 H2]. split.
  - change 0 with (inject_Z 0). rewrite <- Zle_Qle. exact H1.
  - change 1125899906842624 with (inject_Z (2 ^ 50)). rewrite <- Zlt_Qlt.
    exact H2.
Qed.

(** A deadline set [n] seconds after [now] is read back at [now] as [n]
    seconds, for clock readings and [n] below [2^50]. *)
Lemma fresh_deadline (now : Q) (n : Z) :
  small_clock now -> (0 <= n < 2 ^ 50)%Z ->
  exists t : Q,
    fadd now (inject_Z n) = Fin t /\
    now + inject_Z n - (1 # 8) <= t <= now + inject_Z n + (1 # 8) /\
    round_int (fsub (Fin t) now) = Some n.
Proof.
  intros [Hn0 Hn1] Hn.
  pose proof pow2_50 as P50. pose proof pow2_51 as P51.
  destruct (inject_Z_small n Hn) as [Hz0 Hz1].
  unfold fadd.
  destruct (rnd_small (now + inject_Z n)) as (t & Ht & Hb); [lra|].
  exists t. split; [exact Ht|]. split; [exact Hb|].
  cbn [fsub].
  destruct (rnd_small (t - now)) as (u & Hu & Hc); [lra|].
  rewrite Hu. cbn [round_int]. f_equal.
  apply py_round_close; lra.
Qed.

Lemma clock_plus_small (now : Q) (n : Z) :
  small_clock now -> (0 <= n < 2 ^ 50)%Z ->
  exists t : Q,
    clock_plus now n = Some (Fin t) /\
    now + inject_Z n - (1 # 8) <= t <= now + inject_Z n + (1 # 8) /\
    round_int (fsub (Fin t) now) = Some n.
Proof.
  intros Hc Hn. unfold clock_plus.
  rewrite float_of_int_small by lia.
  destruct (fresh_deadline now n Hc Hn) as (t & Ht & Hb & Hr).
  exists t. rewrite Ht. repeat split; try assumption; apply Hb.
Qed.

End SmallClock.

(** ** The cadence of breaks *)

Lemma in_run_state (s p sb lb k : Z) (a : PomodoroApp) :
  in_run s p sb lb k a ->
  valid_config s p sb lb /\
  config a = (s, p, sb, lb) /\
  done_pomodoros a = k /\
  0 <= k <= s /\
  (mode a <> idle -> k < s).
Proof.
  induction 1 as [now a Hm Hv | ui now k a Hrun IH Hm | now k a Hrun IH Hm Hhb].
  - split; [exact Hv|].
    unfold on_start_pause_resume. rewrite Hm.
    rewrite (read_settings_valid s p sb lb Hv).
    destruct Hv as (Hs & _).
    destruct a as [ts dn md pa pl sbp pm sm lm pe au ls lb' bt hb].
    fp_unfold. split_clock; repeat split; lia.
  - destruct IH as (Hv & Hc & Hd & Hk & Hlt). split; [exact Hv|].
    specialize (Hlt Hm).
    destruct a as [ts dn [| |] [|] pl sbp pm sm lm pe au ls lb' bt hb];
      fp_unfold_all; try congruence; fp_unfold; split_clock;
      repeat split; try congruence; lia.
  - destruct IH as (Hv & Hc & Hd & Hk & Hlt). split; [exact Hv|].
    specialize (Hlt Hm).
    destruct a as [ts dn [| |] [|] pl sbp pm sm lm pe au ls lb' bt hb];
      fp_unfold_all; try congruence; fp_unfold;
      assert (Hts : ts = s) by congruence;
      split_clock; zbool; repeat split; try congruence; try lia.
Qed.

(** C1. In a run started with accepted settings, the scheduled heartbeat
    that finds the [k]-th study session elapsed ([k] counted from one at
    the start of the run) puts the controller in idle mode, not in a
    break, when [k] is the session count.  When [k] is below the session
    count and the break time in seconds, the long one when [k] is a
    multiple of five and the short one otherwise, can be converted to a
    float, it enters a break of that length: the second line shows the
    length and the deadline is the double nearest to [now] plus the double
    nearest to the length.  For clock readings and lengths below [2^50]
    seconds the deadline is read back at [now] as exactly the length. *)
Theorem break_cadence (s p sb lb k0 : Z) (now : Q) (a : PomodoroApp) :
  in_run s p sb lb k0 a ->
  hb_pending a = true ->
  mode a = study ->
  phase_elapsed now a = true ->
  let k := k0 + 1 in
  let dur := (if k mod 5 =? 0 then lb else sb) * 60 in
  let r := _heartbeat now a in
  let a' := state_of r in
  in_run s p sb lb k a' /\
  done_pomodoros a' = k /\
  (k < s ->
   forall d : Q, float_of_int dur = Some d ->
     raised r = None /\
     mode a' = break /\ paused a' = false /\
     phase_end_monot a' = fadd now d /\
     lbl_bottom a' = fmt_progress k s ++ "    " ++ fmt_mm_ss dur /\
     (small_clock now -> dur < 2 ^ 50 ->
      d = inject_Z dur /\ left_at now a' = Some dur)) /\
  (s <= k -> k = s /\ mode a' = idle /\ raised r = None).
Proof.
  intros Hrun Hhb Hm He k dur r a'.
  assert (Hne : mode a <> idle) by congruence.
  pose proof (run_tick s p sb lb now k0 a Hrun Hne Hhb) as Hrun'.
  rewrite Hm, He in Hrun'. cbn [Mode_eqb andb] in Hrun'.
  fold k r a' in Hrun'.
  destruct (in_run_state s p sb lb k0 a Hrun) as (Hv & Hc & Hd & Hk & Hlt).
  specialize (Hlt Hne).
  split; [exact Hrun'|].
  destruct Hv as (Hs & Hp & Hsb & Hlb).
  subst a' r dur k. clear Hrun Hrun'.
  destruct a as [ts dn md pa pl sbp pm sm lm pe au ls lb' bt hb].
  fp_unfold_all.
  assert (ts = s /\ pm = p /\ sm = sb /\ lm = lb) as (-> & -> & -> & ->)
    by (repeat split; congruence).
  subst md dn.
  destruct pa; cbn [negb andb] in He; [discriminate|].
  fp_unfold.
  destruct (round_int (fsub pe now)) as [l|] eqn:El; [|discriminate].
  rewrite He. fp_unfold.
  destruct (Z.leb_spec s (k0 + 1)); fp_unfold.
  - split; [reflexivity|]. split; [intros; lia|].
    intros _. repeat split. lia.
  - unfold clock_plus.
    set (dur := (if (k0 + 1) mod 5 =? 0 then lb else sb) * 60).
    assert (Hdur : 0 <= dur) by (unfold dur; destruct (_ =? 0); lia).
    destruct (float_of_int dur) as [d|] eqn:Ed; fp_unfold.
    + split; [reflexivity|]. split; [|intros; lia].
      intros _ d' Hd'. injection Hd' as <-.
      repeat split.
      * rewrite (float_of_int_small dur) in Ed by lia. congruence.
      * rewrite (float_of_int_small dur) in Ed by lia.
        injection Ed as <-.
        destruct (fresh_deadline now dur) as (t & Ht & _ & Hr);
          [assumption | lia |].
        rewrite Ht. exact Hr.
    + split; [reflexivity|]. split; [|intros; lia].
      intros _ d' Hd'. discriminate.
Qed.

Lemma break_cadence_witness :
  let r := _heartbeat (inject_Z 1500) started in
  let a' := state_of r in
  in_run 3 25 5 15 1 a' /\
  done_pomodoros a' = 1 /\
  (1 < 3 ->
   forall d : Q, float_of_int (5 * 60) = Some d ->
     raised r = None /\
     mode a' = break /\ paused a' = false /\
     phase_end_monot a' = fadd (inject_Z 1500) d /\
     lbl_bottom a' = fmt_progress 1 3 ++ "    " ++ fmt_mm_ss (5 * 60) /\
     (small_clock (inject_Z 1500) -> 5 * 60 < 2 ^ 50 ->
      d = inject_Z (5 * 60) /\ left_at (inject_Z 1500) a' = Some (5 * 60))) /\
  (3 <= 1 -> 1 = 3 /\ mode a' = idle /\ raised r = None).
Proof.
  assert (Hrun : in_run 3 25 5 15 0 started).
  { apply (run_start 3 25 5 15 0%Q (init None)); [reflexivity|].
    unfold valid_config. lia. }
  assert (Hhb : hb_pending started = true) by reflexivity.
  assert (Hm : mode started = study) by reflexivity.
  assert (He : phase_elapsed (inject_Z 1500) started = true)
    by (vm_compute; reflexivity).
  exact (break_cadence 3 25 5 15 0 (inject_Z 1500) started Hrun Hhb Hm He).
Defined.

(** C1, the claim as it stands fails: after the first of two sessions, with
    a short break of [2^53 + 1] minutes, the break entered at clock reading
    60 is four seconds longer than sixty times its minutes. *)
Lemma break_length_rounded_to_a_double :
  let sb := 2 ^ 53 + 1 in
  let a := exec [Press long_break_settings 0%Q] (init None) in
  let a' := state_of (_heartbeat (inject_Z 60) a) in
  in_run 2 1 sb 15 0 a /\ hb_pending a = true /\ mode a = study /\
  phase_elapsed (inject_Z 60) a = true /\
  mode a' = break /\ done_pomodoros a' = 1 /\
  left_at (inject_Z 60) a' = Some (sb * 60 + 4) /\
  left_at (inject_Z 60) a' <> Some (sb * 60) /\
  phase_end_monot a' <> Fin (inject_Z 60 + inject_Z (sb * 60)).
Proof.
  split.
  { apply (run_start 2 1 (2 ^ 53 + 1) 15 0%Q (init None)); [reflexivity|].
    unfold valid_config. lia. }
  vm_compute. repeat split; discriminate.
Qed.

Example break_that_no_float_can_hold :
  (* a short break of 10^307 minutes: the heartbeat that ends the first
     study session raises inside [_enter_break] *)
  let a := exec [Press (settings_of 2 1 (10 ^ 307) 15) 0%Q] (init None) in
  let r := _heartbeat (inject_Z 60) a in
  raised r = Some OverflowError /\
  events_of r = [play_sound_async None] /\
  mode (state_of r) = break /\ done_pomodoros (state_of r) = 1 /\
  phase_end_monot (state_of r) = Fin 60 /\
  lbl_bottom (state_of r) = "01/02    01:00" /\
  hb_pending (state_of r) = false.
Proof. vm_compute. repeat split. Qed.

Example twelve_sessions :
  let run :=
    phases 23 (exec [Press (settings_of 12 25 5 15) 0%Q] (init None)) in
  breaks_of run =
    [(1, 300); (2, 300); (3, 300); (4, 300); (5, 900); (6, 300); (7, 300);
     (8, 300); (9, 300); (10, 900); (11, 300)] /\
  fst (fst (last run (study, 0, 0))) = idle /\
  snd (fst (last run (study, 0, 0))) = 12.
Proof. vm_compute. repeat split. Qed.

(** ** Pause and resume *)

Section Toggle.

Lemma press_running (ui : Settings) (now : Q) (a : PomodoroApp) (l : Z) :
  mode a <> idle -> paused a = false -> left_at now a = Some l ->
  let r := on_start_pause_resume ui now a in
  let a' := state_of r in
  events_of r = [] /\ raised r = None /\
  paused a' = true /\ paused_left a' = Z.max 0 l /\
  mode a' = mode a /\ done_pomodoros a' = done_pomodoros a /\
  phase_end_monot a' = phase_end_monot a /\ config a' = config a /\
  hb_pending a' = hb_pending a.
Proof.
  destruct a as [ts dn [| |] pa pl sbp pm sm lm pe au ls lb bt hb];
    fp_unfold; intros Hm Hp Hl; try congruence; subst pa; fp_unfold;
    rewrite Hl; fp_unfold; repeat split.
Qed.

Lemma press_running_raises (ui : Settings) (now : Q) (a : PomodoroApp) :
  mode a <> idle -> paused a = false -> left_at now a = None ->
  on_start_pause_resume ui now a = ([], a, Some OverflowError).
Proof.
  destruct a as [ts dn [| |] pa pl sbp pm sm lm pe au ls lb bt hb];
    fp_unfold; intros Hm Hp Hl; try congruence; subst pa; fp_unfold;
    rewrite Hl; reflexivity.
Qed.

Lemma press_paused (ui : Settings) (now : Q) (a : PomodoroApp) (t : pyfloat) :
  mode a <> idle -> paused a = true ->
  clock_plus now (paused_left a) = Some t ->
  let r := on_start_pause_resume ui now a in
  let a' := state_of r in
  events_of r = [] /\ raised r = None /\
  paused a' = false /\ phase_end_monot a' = t /\
  mode a' = mode a /\ done_pomodoros a' = done_pomodoros a /\
  paused_left a' = paused_left a /\ config a' = config a /\
  hb_pending a' = hb_pending a.
Proof.
  destruct a as [ts dn [| |] pa pl sbp pm sm lm pe au ls lb bt hb];
    fp_unfold; intros Hm Hp Hl; try congruence; subst pa; fp_unfold;
    rewrite Hl; fp_unfold; repeat split.
Qed.

Lemma heartbeat_paused (now : Q) (a : PomodoroApp) :
  paused a = true ->
  let r := _heartbeat now a in
  events_of r = [] /\ raised r = None /\
  run_state (state_of r) = run_state a.
Proof.
  destruct a as [ts dn [| |] pa pl sbp pm sm lm pe au ls lb bt hb];
    fp_unfold; intros ->; fp_unfold; repeat split.
Qed.

Lemma ticks_paused (ticks : list Q) :
  forall a, paused a = true ->
  run_state (exec (map Tick ticks) a) = run_state a.
Proof.
  induction ticks as [|t ticks IH]; intros a Hp; [reflexivity|].
  cbn [map exec fold_left step].
  destruct (heartbeat_paused t a Hp) as (_ & _ & Hrs).
  change (fold_left (fun a op => state_of (step op a)) (map Tick ticks)
            (state_of (_heartbeat t a)))
    with (exec (map Tick ticks) (state_of (_heartbeat t a))).
  rewrite IH; [exact Hrs|].
  unfold run_state in Hrs. congruence.
Qed.

End Toggle.

(** C3. In a running phase (mode study or break, not paused) with a finite
    deadline, a pause at [now1] freezes the remaining seconds and the
    heartbeats that fall in the pause leave the frozen value alone.  When
    the frozen value and the clock reading [now2] of the resume are below
    [2^50] seconds, the remaining seconds right after the resume are
    exactly the frozen ones, whatever the length of the pause.  The
    statement does not need [now1 <= now2]. *)
Theorem pause_resume_round_trip
  (ui1 ui2 : Settings) (now1 now2 : Q) (ticks : list Q) (a : PomodoroApp)
  (l : Z) :
  mode a <> idle ->
  paused a = false ->
  left_at now1 a = Some l ->
  small_clock now2 ->
  Z.max 0 l < 2 ^ 50 ->
  let r1 := on_start_pause_resume ui1 now1 a in
  let a1 := state_of r1 in
  let a1' := exec (map Tick ticks) a1 in
  let r2 := on_start_pause_resume ui2 now2 a1' in
  let a2 := state_of r2 in
  raised r1 = None /\
  paused a1 = true /\
  paused_left a1 = Z.max 0 l /\
  paused_left a1' = paused_left a1 /\
  raised r2 = None /\
  paused a2 = false /\
  mode a2 = mode a /\
  done_pomodoros a2 = done_pomodoros a /\
  left_at now2 a2 = Some (paused_left a1).
Proof.
  intros Hm Hp Hl Hc Hs r1 a1 a1' r2 a2.
  destruct (press_running ui1 now1 a l Hm Hp Hl)
    as (_ & Hr1 & Hp1 & Hl1 & Hm1 & Hd1 & _ & _ & _).
  fold r1 a1 in Hr1, Hp1, Hl1, Hm1, Hd1.
  pose proof (ticks_paused ticks a1 Hp1) as Hrs. fold a1' in Hrs.
  unfold run_state in Hrs.
  assert (Hm1' : mode a1' = mode a1) by congruence.
  assert (Hp1' : paused a1' = true) by congruence.
  assert (Hl1' : paused_left a1' = paused_left a1) by congruence.
  assert (Hd1' : done_pomodoros a1' = done_pomodoros a1) by congruence.
  assert (Hne : mode a1' <> idle) by congruence.
  destruct (clock_plus_small now2 (paused_left a1') Hc ltac:(lia))
    as (t & Ht & _ & Hr).
  destruct (press_paused ui2 now2 a1' (Fin t) Hne Hp1' Ht)
    as (_ & Hr2 & Hp2 & He2 & Hm2 & Hd2 & _ & _ & _).
  fold r2 a2 in Hr2, Hp2, He2, Hm2, Hd2.
  repeat split; try congruence.
  unfold left_at. rewrite He2, Hr. congruence.
Qed.

Lemma pause_resume_round_trip_witness :
  let r1 := on_start_pause_resume demo_settings (inject_Z 10) started in
  let a1 := state_of r1 in
  let a1' := exec (map Tick [inject_Z 11; inject_Z 12]) a1 in
  let r2 := on_start_pause_resume demo_settings (inject_Z 40) a1' in
  let a2 := state_of r2 in
  raised r1 = None /\
  paused a1 = true /\
  paused_left a1 = Z.max 0 1490 /\
  paused_left a1' = paused_left a1 /\
  raised r2 = None /\
  paused a2 = false /\
  mode a2 = mode started /\
  done_pomodoros a2 = done_pomodoros started /\
  left_at (inject_Z 40) a2 = Some (paused_left a1).
Proof.
  apply (pause_resume_round_trip demo_settings demo_settings
           (inject_Z 10) (inject_Z 40) [inject_Z 11; inject_Z 12] started 1490).
  - vm_compute. discriminate.
  - vm_compute. reflexivity.
  - vm_compute. reflexivity.
  - vm_compute. split; [discriminate | reflexivity].
  - vm_compute. reflexivity.
Defined.

(** C3, the claim as it stands fails: a study phase of [2^60] seconds is
    paused at 60, which freezes [2^60] seconds, and resumed at 100.25;
    right after the resume [2^60 - 128] seconds remain. *)
Lemma pause_resume_loses_seconds :
  let a := exec [Press aeon_settings 0%Q] (init None) in
  let now1 := inject_Z 60 in
  let now2 := 401 # 4 in
  let a1 := state_of (on_start_pause_resume aeon_settings now1 a) in
  let a2 := state_of (on_start_pause_resume aeon_settings now2 a1) in
  reachable a /\ mode a = study /\ paused a = false /\ (now1 <= now2)%Q /\
  paused a1 = true /\ paused_left a1 = 2 ^ 60 /\
  paused a2 = false /\
  left_at now2 a2 = Some (2 ^ 60 - 128) /\
  left_at now2 a2 <> Some (paused_left a1).
Proof.
  split; [apply reachable_exec_from; [apply reach_init | reflexivity]|].
  vm_compute. repeat split; discriminate.
Qed.

Example pause_resume_numbers :
  paused_left started_paused = 1490 /\
  left_at (inject_Z 40)
    (state_of (on_start_pause_resume demo_settings (inject_Z 40) started_paused))
  = Some 1490.
Proof. split; vm_compute; reflexivity. Qed.

(** ** Heartbeats that change nothing *)








Example tick_twice_at_a_late_clock :
  (* at the clock reading 2^62 neighbouring doubles are 1024 apart: the
     break of 300 seconds entered by the first heartbeat ends at 2^62 *)
  let now := inject_Z (2 ^ 62) in
  let b := state_of (step (Tick now) started) in
  mode b = break /\ phase_end_monot b = Fin now /\
  mode (state_of (_heartbeat now b)) = study /\
  events_of (_heartbeat now b) = [play_sound_async None].
Proof. vm_compute. repeat split. Qed.

Example tick_twice_at_deadline :
  mode (state_of (_heartbeat (inject_Z 1500) started)) = break /\
  lbl_bottom (state_of (_heartbeat (inject_Z 1500) started)) = "01/03    05:00" /\
  events_of (_heartbeat (inject_Z 1500)
               (state_of (_heartbeat (inject_Z 1500) started))) = [].
Proof. repeat split; vm_compute; reflexivity. Qed.

(** ** Rounding of the remaining time *)

Section Remaining.
Local Open Scope Q_scope.

Lemma left_at_finite (now : Q) (a : PomodoroApp) (l : Z) :
  left_at now a = Some l ->
  exists pe r,
    phase_end_monot a = Fin pe /\ rnd (pe - now) = Fin r /\ l = py_round r.
Proof.
  unfold left_at. destruct (phase_end_monot a) as [pe| |]; cbn [fsub];
    try discriminate.
  destruct (rnd (pe - now)) as [r| |] eqn:E; cbn [round_int]; try discriminate.
  intros H. exists pe, r. repeat split; congruence.
Qed.

Lemma rnd_51 : rnd (pow2 51) = Fin (inject_Z (2 ^ 51)).
Proof. vm_compute. reflexivity. Qed.

(** A result below [2^51] comes from an argument below [2^51]. *)
Lemma rnd_small_inv (x r : Q) :
  rnd x = Fin r -> 0 <= x -> r < pow2 51 -> x < pow2 51.
Proof.
  intros Hr Hx Hb. apply Qnot_le_lt. intros C.
  pose proof (rnd_mono _ _ C) as M. rewrite rnd_51, Hr in M.
  cbn [fle] in M. pose proof pow2_51 as P.
  change (inject_Z (2 ^ 51)) with 2251799813685248 in M. lra.
Qed.

End Remaining.

(** X7. The whole seconds that the heartbeat computes for a phase never go
    up when the clock goes on.  They differ from the exact time left to
    the deadline by at most half a second and half the distance between
    neighbouring doubles at that time, which makes five eighths of a second
    for times below [2^51] seconds. *)
Theorem countdown_never_rises (now1 now2 : Q) (a : PomodoroApp) (l1 l2 : Z) :
  (now1 <= now2)%Q ->
  left_at now1 a = Some l1 ->
  left_at now2 a = Some l2 ->
  l2 <= l1 /\
  exists pe : Q,
    phase_end_monot a = Fin pe /\
    (pe - now1 - (1 # 2) - (1 # 2) * ulp (pe - now1) <= inject_Z l1)%Q /\
    (inject_Z l1 <= pe - now1 + (1 # 2) + (1 # 2) * ulp (pe - now1))%Q /\
    ((- pow2 51 < pe - now1)%Q -> (pe - now1 < pow2 51)%Q ->
     (pe - now1 - (5 # 8) <= inject_Z l1)%Q /\
     (inject_Z l1 <= pe - now1 + (5 # 8))%Q).
Proof.
  intros Hn H1 H2.
  destruct (left_at_finite now1 a l1 H1) as (pe & r1 & Hpe & Hr1 & ->).
  destruct (left_at_finite now2 a l2 H2) as (pe' & r2 & Hpe' & Hr2 & ->).
  assert (pe' = pe) by congruence. subst pe'.
  split.
  - apply py_round_mono.
    assert (M : fle (rnd (pe - now2)) (rnd (pe - now1)))
      by (apply rnd_mono; lra).
    rewrite Hr1, Hr2 in M. exact M.
  - exists pe. split; [exact Hpe|].
    destruct (rnd_near _ _ Hr1) as [A B].
    destruct (py_round_near r1) as [C D].
    pose proof (ulp_pos (pe - now1)) as U.
    set (u := ulp (pe - now1)) in *. clearbody u.
    split; [lra|]. split; [lra|].
    intros L1 L2.
    destruct (rnd_small (pe - now1)) as (r & Hr & Hb); [split; assumption|].
    assert (r = r1) by congruence. subst r. split; lra.
Qed.

Lemma countdown_never_rises_witness :
  1490 <= 1490 /\
  exists pe : Q,
    phase_end_monot started = Fin pe /\
    (pe - (10 # 1) - (1 # 2) - (1 # 2) * ulp (pe - (10 # 1))
     <= inject_Z 1490)%Q /\
    (inject_Z 1490
     <= pe - (10 # 1) + (1 # 2) + (1 # 2) * ulp (pe - (10 # 1)))%Q /\
    ((- pow2 51 < pe - (10 # 1))%Q -> (pe - (10 # 1) < pow2 51)%Q ->
     (pe - (10 # 1) - (5 # 8) <= inject_Z 1490)%Q /\
     (inject_Z 1490 <= pe - (10 # 1) + (5 # 8))%Q).
Proof.
  apply (countdown_never_rises (10 # 1) (21 # 2) started 1490 1490).
  - vm_compute. discriminate.
  - vm_compute. reflexivity.
  - vm_compute. reflexivity.
Defined.

Example left_rounds_the_double_difference :
  (* the doubles nearest to 1167.9365895696853 and 401.4365895696853 *)
  let pe := 5136639442947659 # 4398046511104 in
  let now := 7062147168745771 # 17592186044416 in
  (pe - now == (1533 # 2) + (1 # 17592186044416))%Q /\
  round_int (fsub (Fin pe) now) = Some 766 /\
  py_round (pe - now) = 767.
Proof. vm_compute. repeat split. Qed.

(** X8. A pause at [now1], not later than a finite deadline, followed by a
    resume at [now2] moves the deadline by the length of the pause up to
    the rounding of the frozen time and of the two float operations: for a
    frozen time and a clock reading [now2] below [2^50] seconds the new
    deadline is within three quarters of a second of the old one plus
    [now2 - now1]. *)
Theorem pause_resume_drift
  (ui1 ui2 : Settings) (now1 now2 : Q) (a : PomodoroApp) (pe : Q) (l : Z) :
  mode a <> idle ->
  paused a = false ->
  phase_end_monot a = Fin pe ->
  (now1 <= pe)%Q ->
  left_at now1 a = Some l ->
  l < 2 ^ 50 ->
  small_clock now2 ->
  let a1 := state_of (on_start_pause_resume ui1 now1 a) in
  let a2 := state_of (on_start_pause_resume ui2 now2 a1) in
  paused_left a1 = l /\
  exists t : Q,
    phase_end_monot a2 = Fin t /\
    (pe + (now2 - now1) - (3 # 4) <= t)%Q /\
    (t <= pe + (now2 - now1) + (3 # 4))%Q.
Proof.
  intros Hm Hp Hpe Hle Hl Hs Hc a1 a2.
  destruct (left_at_finite now1 a l Hl) as (pe' & r & Hpe' & Hr & El).
  assert (pe' = pe) by congruence. subst pe'.
  (* the frozen time is not negative *)
  assert (R0 : (0 <= r)%Q).
  { pose proof (rnd_nonneg (pe - now1) ltac:(lra)) as N.
    rewrite Hr in N. exact N. }
  assert (L0 : 0 <= l).
  { subst l. rewrite <- (py_round_inject_Z 0). apply py_round_mono. exact R0. }
  destruct (press_running ui1 now1 a l Hm Hp Hl)
    as (_ & _ & Hp1 & Hl1 & Hm1 & _ & _ & _ & _).
  fold a1 in Hp1, Hl1, Hm1. rewrite Z.max_r in Hl1 by exact L0.
  split; [exact Hl1|].
  assert (Hne : mode a1 <> idle) by congruence.
  destruct (clock_plus_small now2 (paused_left a1) Hc ltac:(lia))
    as (t & Ht & Hb & _).
  destruct (press_paused ui2 now2 a1 (Fin t) Hne Hp1 Ht)
    as (_ & _ & _ & He2 & _).
  fold a2 in He2. exists t. split; [exact He2|].
  rewrite Hl1 in Hb.
  (* the difference was rounded by at most an eighth *)
  destruct (py_round_near r) as [C D]. rewrite <- El in C, D.
  assert (Hl50 : (inject_Z l < 1125899906842624)%Q).
  { change 1125899906842624%Q with (inject_Z (2 ^ 50)). rewrite <- Zlt_Qlt.
    exact Hs. }
  pose proof pow2_51 as P51.
  assert (X : (pe - now1 < pow2 51)%Q)
    by (apply (rnd_small_inv _ r Hr); lra).
  destruct (rnd_small (pe - now1)) as (r' & Hr' & Hb'); [split; lra|].
  assert (r' = r) by congruence. subst r'.
  split; lra.
Qed.

Lemma pause_resume_drift_witness :
  let a1 := state_of (on_start_pause_resume demo_settings (41 # 4) started) in
  let a2 := state_of (on_start_pause_resume demo_settings (81 # 2) a1) in
  paused_left a1 = 1490 /\
  exists t : Q,
    phase_end_monot a2 = Fin t /\
    (1500 + ((81 # 2) - (41 # 4)) - (3 # 4) <= t)%Q /\
    (t <= 1500 + ((81 # 2) - (41 # 4)) + (3 # 4))%Q.
Proof.
  apply (pause_resume_drift demo_settings demo_settings (41 # 4) (81 # 2)
           started 1500 1490).
  - vm_compute. discriminate.
  - vm_compute. reflexivity.
  - vm_compute. reflexivity.
  - vm_compute. discriminate.
  - vm_compute. reflexivity.
  - vm_compute. reflexivity.
  - vm_compute. split; [discriminate | reflexivity].
Defined.

Example pause_resume_gains_a_quarter :
  let a2 :=
    state_of (on_start_pause_resume demo_settings (81 # 2)
                (state_of (on_start_pause_resume demo_settings (41 # 4) started))) in
  phase_end_monot a2 = Fin (3061 # 2) /\
  (1500 + ((81 # 2) - (41 # 4)) == (3061 # 2) - (1 # 4))%Q.
Proof. split; vm_compute; reflexivity. Qed.

Example resume_of_an_aeon :
  (* deadline 2^60, paused at 60, resumed at 100.25 *)
  let a := exec [Press aeon_settings 0%Q; Press aeon_settings (inject_Z 60);
                 Press aeon_settings (401 # 4)] (init None) in
  phase_end_monot a = Fin (inject_Z (2 ^ 60)).
Proof. vm_compute. reflexivity. Qed.

(** ** When a handler raises *)

Section Early.

Lemma early_reachable (a : PomodoroApp) : reachable_early a -> reachable a.
Proof.
  induction 1 as [audio | now a _ IH Hb _ | ui now a _ IH _ | ui a _ IH].
  - apply reach_init.
  - apply reach_tick; assumption.
  - apply reach_press; assumption.
  - apply reach_reset; assumption.
Qed.

Lemma left_at_sane (now : Q) (a : PomodoroApp) :
  small_clock now -> sane a ->
  exists x r l, phase_end_monot a = Fin x /\ rnd (x - now) = Fin r /\
                l = py_round r /\ left_at now a = Some l.
Proof.
  intros Hc [(t & Ht & Hb) _].
  destruct (left_defined now t Hc Hb) as (r & Hr).
  exists t, r, (py_round r). unfold left_at. rewrite Ht. cbn [fsub].
  rewrite Hr. repeat split.
Qed.

Lemma clock_plus_sane (now : Q) (n : Z) :
  small_clock now -> 0 <= n -> fits n ->
  exists t, clock_plus now n = Some (Fin t) /\
            (0 <= t <= inject_Z dbl_max)%Q.
Proof.
  intros Hc Hn Hf. unfold clock_plus, fits in *.
  destruct (float_of_int n) as [d|] eqn:E; [|congruence].
  destruct (deadline_finite now n d Hc Hn E) as (t & Ht & Hb).
  exists t. rewrite Ht. split; [reflexivity | exact Hb].
Qed.

Lemma clock_plus_fits (now : Q) (n : Z) :
  clock_plus now n = None <-> ~ fits n.
Proof.
  unfold clock_plus, fits. destruct (float_of_int n); split;
    try discriminate; try congruence; intros H; try reflexivity.
  exfalso. apply H. discriminate.
Qed.

Ltac open_sane H :=
  let t := fresh "t" in let Ht := fresh "Ht" in
  let Hb := fresh "Hb" in let Hf := fresh "Hf" in
  destruct H as [(t & Ht & Hb) Hf];
  cbn [phase_end_monot paused_left] in Ht, Hf; subst.

(** The deadline that the clock arithmetic has just produced is finite. *)
Ltac new_deadline :=
  match goal with
  | Hc : small_clock ?now, E : clock_plus ?now ?X = Some ?p |- _ =>
      let d := fresh "d" in let Ed := fresh "Ed" in let Ep := fresh "Ep" in
      let t := fresh "t" in let Ht := fresh "Ht" in let Hb := fresh "Hb" in
      destruct (clock_plus_Some now X p E) as (d & Ed & Ep);
      destruct (deadline_finite now X d Hc) as (t & Ht & Hb);
      [ try match goal with
            | |- context [if ?c then _ else _] => destruct c
            end; lia
      | exact Ed
      | exists t; split; [congruence | exact Hb] ]
  end.

Ltac new_frozen :=
  match goal with
  | E : round_int (fsub (Fin ?t) ?now) = Some ?z |- fits (Z.max 0 ?z) =>
      cbn [fsub] in E;
      let r := fresh "r" in let Er := fresh "Er" in
      destruct (rnd (t - now)) as [r| |] eqn:Er; cbn [round_int] in E;
      try discriminate E;
      injection E as <-; exact (frozen_fits _ _ Er)
  end.

Ltac sane_goal :=
  unfold sane; fp_unfold;
  split;
  [ first [ solve [eexists; split; [reflexivity | assumption]]
          | solve [new_deadline] | idtac ]
  | first [ assumption | solve [new_frozen] | idtac ] ].

Lemma heartbeat_sane (now : Q) (a : PomodoroApp) :
  Consistent a -> sane a -> small_clock now ->
  sane (state_of (_heartbeat now a)).
Proof.
  intros H S Hc.
  destruct a as [ts dn [| |] [|] pl sbp pm sm lm pe au ls lb bt hb];
    open_sane S; open_inv H; fp_unfold; split_clock; sane_goal.
Qed.

Lemma press_sane (ui : Settings) (now : Q) (a : PomodoroApp) :
  Consistent a -> sane a -> small_clock now ->
  sane (state_of (on_start_pause_resume ui now a)).
Proof.
  intros H S Hc.
  destruct a as [ts dn [| |] [|] pl sbp pm sm lm pe au ls lb bt hb];
    open_sane S; open_inv H; fp_unfold;
    try (destruct (_read_settings ui) as [evs [[[[s p] sb] l]|]] eqn:E;
         [apply read_settings_some in E;
          destruct E as (_ & (? & ? & ? & ?) & _)|]);
    fp_unfold; split_clock; sane_goal.
Qed.

Lemma reset_sane (ui : Settings) (a : PomodoroApp) :
  sane a -> sane (state_of (on_reset ui a)).
Proof.
  intros S.
  destruct a as [ts dn md pa pl sbp pm sm lm pe au ls lb bt hb];
    open_sane S; fp_unfold.
  destruct (ts <=? 0);
    [destruct (_read_settings ui) as [evs [[[[s p] sb] l]|]]|];
    sane_goal.
Qed.

Lemma early_sane (a : PomodoroApp) : reachable_early a -> sane a.
Proof.
  induction 1 as [audio | now a Hr IH Hb Hc | ui now a Hr IH Hc | ui a Hr IH].
  - unfold sane, init. cbn [phase_end_monot paused_left]. split.
    + exists 0%Q. split; [reflexivity|]. split; [lra|].
      change 0%Q with (inject_Z 0). rewrite <- Zle_Qle. apply Z.leb_le.
      vm_compute. reflexivity.
    + apply fits_small. lia.
  - apply heartbeat_sane; try assumption.
    apply reachable_consistent, early_reachable. exact Hr.
  - apply press_sane; try assumption.
    apply reachable_consistent, early_reachable. exact Hr.
  - apply reset_sane. exact IH.
Qed.

End Early.

Lemma only_overflow (e : option Exn) : e <> None <-> e = Some OverflowError.
Proof. destruct e as [[]|]; split; congruence. Qed.

(** X25. While every reading of the clock is below [2^50] seconds, the
    only exception of the timer is the OverflowError of
    [time.monotonic() + dur] for a phase length that no float can hold:
    Reset never raises; a press of the button raises exactly when it is a
    Start with accepted settings whose study time has no float (pause and
    resume never raise); a heartbeat raises exactly when it finds the phase
    elapsed and the length of the phase to enter has no float. *)
Theorem overflow_only_without_float (a : PomodoroApp) :
  reachable_early a ->
  (forall ui, raised (on_reset ui a) = None) /\
  (forall ui now, small_clock now ->
     (raised (on_start_pause_resume ui now a) = Some OverflowError <->
      mode a = idle /\
      exists s p sb lb,
        ui = settings_of s p sb lb /\ valid_config s p sb lb /\
        ~ fits (p * 60))) /\
  (forall now, small_clock now ->
     (raised (_heartbeat now a) = Some OverflowError <->
      phase_elapsed now a = true /\
      exists n, next_length a = Some n /\ ~ fits n)).
Proof.
  intros Hr.
  pose proof (early_sane a Hr) as S.
  pose proof (reachable_consistent a (early_reachable a Hr)) as H.
  split; [|split].
  - intros ui.
    destruct a as [ts dn md pa pl sbp pm sm lm pe au ls lb bt hb]; fp_unfold.
    destruct (ts <=? 0);
      [destruct (_read_settings ui) as [evs [[[[s p] sb] l]|]]|];
      reflexivity.
  - intros ui now Hc.
    destruct (left_at_sane now a Hc S) as (x & r & l & Hx & Hrr & Hl & Hleft).
    destruct S as [_ Sf].
    destruct a as [ts dn md pa pl sbp pm sm lm pe au ls lb bt hb].
    unfold left_at in Hleft. cbn [phase_end_monot paused_left mode] in *.
    destruct md.
    + (* idle: a Start *)
      fp_unfold.
      destruct (_read_settings ui) as [evs [[[[s p] sb] l']|]] eqn:E; fp_unfold.
      * apply read_settings_some in E. destruct E as (_ & Hv & ->).
        destruct (clock_plus now (p * 60)) as [t|] eqn:Ec; fp_unfold.
        -- split; [discriminate|].
           intros (_ & s' & p' & sb' & lb' & Hu & _ & Hn).
           injection Hu as <- <- <- <-.
           exfalso. apply Hn. intros F. unfold clock_plus in Ec. rewrite F in Ec.
           discriminate.
        -- split; [|reflexivity]. intros _. split; [reflexivity|].
           exists s, p, sb, l'. repeat split; try apply Hv.
           apply (clock_plus_fits now). exact Ec.
      * split; [discriminate|].
        intros (_ & s' & p' & sb' & lb' & -> & Hv & _).
        rewrite (read_settings_valid _ _ _ _ Hv) in E. discriminate.
    + (* study *)
      destruct pa; fp_unfold.
      * destruct (clock_plus now pl) as [t|] eqn:Ec; fp_unfold.
        -- split; [discriminate | intros [C _]; discriminate].
        -- exfalso. apply (clock_plus_fits now) in Ec. contradiction.
      * rewrite Hleft. fp_unfold.
        split; [discriminate | intros [C _]; discriminate].
    + (* break *)
      destruct pa; fp_unfold.
      * destruct (clock_plus now pl) as [t|] eqn:Ec; fp_unfold.
        -- split; [discriminate | intros [C _]; discriminate].
        -- exfalso. apply (clock_plus_fits now) in Ec. contradiction.
      * rewrite Hleft. fp_unfold.
        split; [discriminate | intros [C _]; discriminate].
  - intros now Hc.
    destruct (left_at_sane now a Hc S) as (x & r & l & Hx & Hrr & Hl & Hleft).
    destruct a as [ts dn md pa pl sbp pm sm lm pe au ls lb bt hb].
    unfold left_at in Hleft. unfold next_length.
    cbn [phase_end_monot paused_left mode] in *.
    destruct md; fp_unfold.
    + split; [discriminate | intros [C _]; discriminate].
    + (* study *)
      destruct pa; fp_unfold;
        [split; [discriminate | intros [C _]; discriminate]|].
      rewrite Hleft. fp_unfold.
      destruct (l <=? 0); fp_unfold;
        [|split; [discriminate | intros [C _]; discriminate]].
      destruct (ts <=? dn + 1); fp_unfold.
      * split; [discriminate | intros (_ & n & C & _); discriminate].
      * set (dur := (if (dn + 1) mod 5 =? 0 then lm else sm) * 60).
        destruct (clock_plus now dur) as [t|] eqn:Ec; fp_unfold.
        -- split; [discriminate|].
           intros (_ & n & Hn & Hf). injection Hn as <-.
           exfalso. apply Hf. intros F. unfold clock_plus in Ec.
           rewrite F in Ec. discriminate.
        -- split; [|reflexivity]. intros _. split; [reflexivity|].
           exists dur. split; [reflexivity|].
           apply (clock_plus_fits now). exact Ec.
    + (* break *)
      destruct pa; fp_unfold;
        [split; [discriminate | intros [C _]; discriminate]|].
      rewrite Hleft. fp_unfold.
      destruct (l <=? 0); fp_unfold;
        [|split; [discriminate | intros [C _]; discriminate]].
      destruct (clock_plus now (pm * 60)) as [t|] eqn:Ec; fp_unfold.
      * split; [discriminate|].
        intros (_ & n & Hn & Hf). injection Hn as <-.
        exfalso. apply Hf. intros F. unfold clock_plus in Ec.
        rewrite F in Ec. discriminate.
      * split; [|reflexivity]. intros _. split; [reflexivity|].
        exists (pm * 60). split; [reflexivity|].
        apply (clock_plus_fits now). exact Ec.
Qed.

Lemma overflow_only_without_float_witness :
  (forall ui, raised (on_reset ui started) = None) /\
  (forall ui now, small_clock now ->
     (raised (on_start_pause_resume ui now started) = Some OverflowError <->
      mode started = idle /\
      exists s p sb lb,
        ui = settings_of s p sb lb /\ valid_config s p sb lb /\
        ~ fits (p * 60))) /\
  (forall now, small_clock now ->
     (raised (_heartbeat now started) = Some OverflowError <->
      phase_elapsed now started = true /\
      exists n, next_length started = Some n /\ ~ fits n)).
Proof.
  apply (overflow_only_without_float started).
  change started
    with (state_of (on_start_pause_resume demo_settings 0%Q (init None))).
  apply early_press; [apply early_init|].
  vm_compute. split; [discriminate | reflexivity].
Defined.

(** ** A heartbeat that raised *)

Lemma heartbeat_schedule (now : Q) (a : PomodoroApp) :
  hb_pending (state_of (_heartbeat now a)) = true <->
  raised (_heartbeat now a) = None.
Proof.
  destruct a as [ts dn [| |] [|] pl sbp pm sm lm pe au ls lb bt hb];
    fp_unfold; split_clock; split; intros; congruence.
Qed.

Lemma press_schedule (ui : Settings) (now : Q) (a : PomodoroApp) :
  hb_pending (state_of (on_start_pause_resume ui now a)) = hb_pending a.
Proof.
  destruct a as [ts dn [| |] [|] pl sbp pm sm lm pe au ls lb bt hb];
    fp_unfold;
    try (destruct (_read_settings ui) as [evs [[[[s p] sb] l]|]]);
    fp_unfold; split_clock; reflexivity.
Qed.

Lemma reset_schedule (ui : Settings) (a : PomodoroApp) :
  hb_pending (state_of (on_reset ui a)) = hb_pending a.
Proof.
  destruct a as [ts dn md pa pl sbp pm sm lm pe au ls lb bt hb]; fp_unfold.
  destruct (ts <=? 0);
    [destruct (_read_settings ui) as [evs [[[[s p] sb] l]|]]|];
    reflexivity.
Qed.

(** X26. A heartbeat schedules the next one exactly when it does not raise,
    and the two buttons leave the schedule as it is.  So after a heartbeat
    that ended in OverflowError no heartbeat runs any more, whatever is
    pressed: the countdown stands still and the phase never ends by
    itself. *)
Theorem heartbeat_stops_after_overflow (now : Q) (a b : PomodoroApp) :
  raised (_heartbeat now a) <> None ->
  later (state_of (_heartbeat now a)) b ->
  hb_pending b = false /\
  (forall now', raised (_heartbeat now' b) = None <->
                hb_pending (state_of (_heartbeat now' b)) = true) /\
  (forall ui now',
      hb_pending (state_of (on_start_pause_resume ui now' b)) = false) /\
  (forall ui, hb_pending (state_of (on_reset ui b)) = false).
Proof.
  intros Hraise Hl.
  assert (Hb : hb_pending b = false).
  { induction Hl as [| now' b Hl IH Hp | ui now' b Hl IH | ui b Hl IH].
    - destruct (hb_pending (state_of (_heartbeat now a))) eqn:E;
        [|reflexivity].
      apply heartbeat_schedule in E. contradiction.
    - congruence.
    - rewrite press_schedule. exact IH.
    - rewrite reset_schedule. exact IH. }
  split; [exact Hb|]. split; [|split].
  - intros now'. symmetry. apply heartbeat_schedule.
  - intros ui now'. rewrite press_schedule. exact Hb.
  - intros ui. rewrite reset_schedule. exact Hb.
Qed.

Lemma heartbeat_stops_after_overflow_witness :
  hb_pending
    (state_of
       (on_start_pause_resume endless_break_settings (inject_Z 70)
          (state_of
             (_heartbeat (inject_Z 60)
                (exec [Press endless_break_settings 0%Q] (init None))))))
  = false.
Proof.
  assert (H1 : raised (_heartbeat (inject_Z 60)
                  (exec [Press endless_break_settings 0%Q] (init None)))
               <> None)
    by (vm_compute; discriminate).
  exact (proj1 (heartbeat_stops_after_overflow (inject_Z 60)
                  (exec [Press endless_break_settings 0%Q] (init None)) _
                  H1
                  (later_press _ endless_break_settings (inject_Z 70) _
                     (later_now _)))).
Defined.

End FpFacts.
